(** * Learner score aggregation ([getLearnerData], src/script.js)

    A shallow embedding of the grade aggregation routine and the
    properties of its specification.

    The routine is dynamically typed JavaScript, so its arguments are
    embedded as JavaScript values and every test the source performs on
    them ([typeof], truthiness, [===], property reads) is written out.

    Scope of the embedding.
    - Numbers are exact rationals ([Q]); the IEEE specials and rounding
      are not represented.  A step whose result would not be a finite
      number (arithmetic on a score that is not a number) is outside the
      embedded fragment and yields [None].
    - [new Date(v)] is a run-time service: its time value is the section
      variable [Date_of], [None] standing for an invalid date.  The clock
      read by the source ([new Date()]) is the argument [now].
    - Inputs are trees: two positions of an input never hold the same
      object.  A learner id that is itself an object (a key compared by
      reference) and an assignment id that is not a number (a property
      key that may clash with inherited properties) are outside the
      fragment.
    The routine is embedded twice.  First its inputs are immutable
    trees, which is enough for what it computes, prints and throws.
    The module [Store] then embeds it over a mutable object store, where
    objects have an identity and are updated in place, to settle what
    it writes. *)

From Stdlib Require Import QArith Qminmax ZArith Lqa Lia Ascii String.
From stdpp Require Import gmap strings list fin_maps.

Local Open Scope Q_scope.

(** ** JavaScript values *)

#[warnings="-register-all"]
Inductive value :=
| VUndefined
| VNull
| VBool (b : bool)
| VNum (x : Q)
| VStr (s : string)
| VObj (props : list (string * value))
| VArr (elems : list value).

(** [typeof v]. *)
Definition typeof (v : value) : string :=
  match v with
  | VUndefined => "undefined"
  | VNull => "object"
  | VBool _ => "boolean"
  | VNum _ => "number"
  | VStr _ => "string"
  | VObj _ => "object"
  | VArr _ => "object"
  end.

(** [Array.isArray(v)]. *)
Definition isArray (v : value) : bool :=
  match v with VArr _ => true | _ => false end.

(** ToBoolean: what [!v] and [if (v)] test. *)
Definition truthy (v : value) : bool :=
  match v with
  | VUndefined | VNull => false
  | VBool b => b
  | VNum x => negb (Qeq_bool x 0)
  | VStr s => negb (String.eqb s "")
  | VObj _ | VArr _ => true
  end.

(** Own property [k] of an object literal, [undefined] when absent. *)
Fixpoint lookup_prop (k : string) (props : list (string * value)) : value :=
  match props with
  | [] => VUndefined
  | (k', v) :: rest => if String.eqb k k' then v else lookup_prop k rest
  end.

(** A property read [v.k] raises a TypeError exactly on these. *)
Definition nullish (v : value) : bool :=
  match v with VUndefined | VNull => true | _ => false end.

(** The property read [v.k] on a value that is not nullish, for the
    field names the routine reads (none of them is an index, [length]
    or an inherited property). *)
Definition prop (v : value) (k : string) : value :=
  match v with
  | VObj props => lookup_prop k props
  | _ => VUndefined
  end.

(** [a === b], which is also the key comparison of [Map] on this
    fragment.  Objects and arrays compare by reference, and two nodes
    of an input tree are two objects. *)
Definition strict_eq (a b : value) : bool :=
  match a, b with
  | VUndefined, VUndefined => true
  | VNull, VNull => true
  | VBool x, VBool y => Bool.eqb x y
  | VNum x, VNum y => Qeq_bool x y
  | VStr x, VStr y => String.eqb x y
  | _, _ => false
  end.

(** [x < y] on numbers. *)
Definition Qltb (x y : Q) : bool := negb (Qle_bool y x).

(** ** [Map]: insertion-ordered, keys compared as above *)

Section JsMap.
Context {V : Type}.

Fixpoint Map_get (m : list (value * V)) (k : value) : option V :=
  match m with
  | [] => None
  | (k', v) :: rest => if strict_eq k' k then Some v else Map_get rest k
  end.

Definition Map_has (m : list (value * V)) (k : value) : bool :=
  match Map_get m k with Some _ => true | None => false end.

(** [m.set(k, v)]: an existing key keeps its position. *)
Fixpoint Map_set (m : list (value * V)) (k : value) (v : V) : list (value * V) :=
  match m with
  | [] => [(k, v)]
  | (k', v') :: rest =>
      if strict_eq k' k then (k', v) :: rest else (k', v') :: Map_set rest k v
  end.
End JsMap.

(** ** Plain objects keyed by numbers ([assignmentScores]) *)

Fixpoint scores_get (o : list (Q * Q)) (k : Q) : option Q :=
  match o with
  | [] => None
  | (k', p) :: rest => if Qeq_bool k' k then Some p else scores_get rest k
  end.

Fixpoint scores_set (o : list (Q * Q)) (k : Q) (p : Q) : list (Q * Q) :=
  match o with
  | [] => [(k, p)]
  | (k', p') :: rest =>
      if Qeq_bool k' k then (k', p) :: rest else (k', p') :: scores_set rest k p
  end.

(** ** Errors, diagnostics, completions *)

Inductive error :=
| InvalidInputType                 (* 'Invalid input data types' *)
| GroupMismatch                    (* 'Invalid input: AssignmentGroup does not belong ...' *)
| InvalidAssignment (id : value)   (* `Invalid points_possible for assignment ${id}` *)
| TypeError.                       (* raised by the run time on a read of null/undefined *)

Inductive diagnostic :=
| Warn (submission : value)        (* console.warn('Invalid submission structure:', s) *)
| ErrorLog (e : error).            (* console.error('Error processing learner data:', msg) *)

Inductive completion (A : Type) :=
| Normal (a : A)
| Throw (e : error).
Arguments Normal {A} a.
Arguments Throw {A} e.

(** ** The accumulator built per learner, and the emitted summary *)

Record Learner := mkLearner {
  learner_ident : value;           (* id *)
  totalScore : Q;
  totalPossible : Q;
  assignmentScores : list (Q * Q)
}.

(** The flat record [{ id, avg, ...assignmentScores }]: numeric keys
    cannot clash with [id] and [avg]. *)
Record LearnerResult := mkResult {
  result_id : value;
  avg : Q;
  scores : list (Q * Q)
}.

Definition newLearner (learnerId : value) : Learner :=
  {| learner_ident := learnerId; totalScore := 0; totalPossible := 0; assignmentScores := [] |}.

(** ** The routine *)

Section GetLearnerData.

(** Time value of [new Date(v)] in milliseconds, [None] for an invalid
    date. *)
Variable Date_of : value -> option Z.

(** [a > b] on dates: both are converted to their time values, and a
    comparison with an invalid date is false. *)
Definition date_gt (a b : option Z) : bool :=
  match a, b with
  | Some x, Some y => (y <? x)%Z
  | _, _ => false
  end.

(** [assignmentGroup.assignments.forEach(...)], lines 27-33. *)
Fixpoint indexAssignments (assignments : list value)
    (assignmentMap : list (value * value)) : completion (list (value * value)) :=
  match assignments with
  | [] => Normal assignmentMap
  | assignment :: rest =>
      if nullish assignment then Throw TypeError
      else
        match prop assignment "points_possible" with
        | VNum points_possible =>
            if Qltb points_possible 0
            then Throw (InvalidAssignment (prop assignment "id"))
            else indexAssignments rest
                   (Map_set assignmentMap (prop assignment "id") assignment)
        | _ => Throw (InvalidAssignment (prop assignment "id"))
        end
  end.

(** Lines 82-95: keep the highest percentage per assignment. *)
Definition keepHighest (learner : Learner) (assignmentId : Q)
    (percentage score points_possible : Q) : Learner :=
  let recorded :=
    match scores_get (assignmentScores learner) assignmentId with
    | Some p => VNum p
    | None => VUndefined
    end in
  let greater :=
    match recorded with VNum p => Qltb p percentage | _ => false end in
  if negb (truthy recorded) || greater then
    let learner :=
      match recorded with
      | VNum p =>
          if truthy recorded then
            {| learner_ident := learner_ident learner;
               totalScore := totalScore learner - p * points_possible;
               totalPossible := totalPossible learner - points_possible;
               assignmentScores := assignmentScores learner |}
          else learner
      | _ => learner
      end in
    {| learner_ident := learner_ident learner;
       totalScore := totalScore learner + score;
       totalPossible := totalPossible learner + points_possible;
       assignmentScores := scores_set (assignmentScores learner) assignmentId percentage |}
  else learner.

(** Lines 72-77: the score after the late penalty. *)
Definition penalised (submittedDate dueDate : option Z)
    (score points_possible : Q) : Q :=
  if date_gt submittedDate dueDate
  then Qmax 0 (score - (1 # 10) * points_possible)
  else score.

(** Lines 49-57: a learner seen for the first time gets an empty
    record. *)
Definition ensureLearner (learnerData : list (value * Learner))
    (learnerId : value) : list (value * Learner) :=
  if Map_has learnerData learnerId then learnerData
  else Map_set learnerData learnerId (newLearner learnerId).

Section Loop.
Variable now : Z.
Variable assignmentMap : list (value * value).

(** One iteration of the loop over the submissions, lines 39-96.
    The result is the completion of the iteration, with the learner
    map it leaves, and the diagnostics it printed. *)
Definition processSubmission (learnerData : list (value * Learner))
    (submission : value)
  : option (completion (list (value * Learner)) * list diagnostic) :=
  if nullish submission then Some (Throw TypeError, [])
  else
    let learnerId := prop submission "learner_id" in
    let assignmentId := prop submission "assignment_id" in
    let body := prop submission "submission" in
    if negb (truthy learnerId) || negb (truthy assignmentId) || negb (truthy body)
    then Some (Normal learnerData, [Warn submission])
    else
      let learnerData := ensureLearner learnerData learnerId in
      match Map_get learnerData learnerId with
      | None => None               (* a key compared by reference *)
      | Some learner =>
          match Map_get assignmentMap assignmentId with
          | None => Some (Normal learnerData, [])
          | Some assignment =>
              if negb (truthy assignment) then Some (Normal learnerData, [])
              else
                let dueDate := Date_of (prop assignment "due_at") in
                if date_gt dueDate (Some now) then Some (Normal learnerData, [])
                else
                  match prop assignment "points_possible" with
                  | VNum points_possible =>
                      if Qeq_bool points_possible 0
                      then Some (Normal learnerData, [])
                      else
                        let submittedDate := Date_of (prop body "submitted_at") in
                        match prop body "score", assignmentId with
                        | VNum score, VNum key =>
                            let score :=
                              penalised submittedDate dueDate score points_possible in
                            let percentage := score / points_possible in
                            let learner :=
                              keepHighest learner key percentage score points_possible in
                            Some (Normal (Map_set learnerData learnerId learner), [])
                        | _, _ => None   (* not a finite number, or a named key *)
                        end
                  | _ => None
                  end
          end
      end.

(** [for (const submission of learnerSubmissions)]. *)
Fixpoint forSubmissions (learnerSubmissions : list value)
    (learnerData : list (value * Learner))
  : option (completion (list (value * Learner)) * list diagnostic) :=
  match learnerSubmissions with
  | [] => Some (Normal learnerData, [])
  | submission :: rest =>
      match processSubmission learnerData submission with
      | Some (Normal learnerData, printed) =>
          match forSubmissions rest learnerData with
          | Some (c, printed') => Some (c, printed ++ printed')
          | None => None
          end
      | other => other
      end
  end.
End Loop.

(** Lines 99-109: one summary per learner with counted points. *)
Fixpoint assemble (learnerData : list (value * Learner)) : list LearnerResult :=
  match learnerData with
  | [] => []
  | (learnerId, data) :: rest =>
      if Qeq_bool (totalPossible data) 0 then assemble rest
      else {| result_id := learner_ident data;
              avg := totalScore data / totalPossible data;
              scores := assignmentScores data |} :: assemble rest
  end.

(** The [try] block, lines 17-111. *)
Definition tryBlock (now : Z) (courseInfo assignmentGroup : value)
    (learnerSubmissions : list value)
  : option (completion (list LearnerResult) * list diagnostic) :=
  if nullish assignmentGroup || nullish courseInfo then Some (Throw TypeError, [])
  else if negb (strict_eq (prop assignmentGroup "course_id") (prop courseInfo "id"))
  then Some (Throw GroupMismatch, [])
  else
    match prop assignmentGroup "assignments" with
    | VArr assignments =>
        match indexAssignments assignments [] with
        | Throw e => Some (Throw e, [])
        | Normal assignmentMap =>
            match forSubmissions now assignmentMap learnerSubmissions [] with
            | Some (Normal learnerData, printed) =>
                Some (Normal (assemble learnerData), printed)
            | Some (Throw e, printed) => Some (Throw e, printed)
            | None => None
            end
        end
    | _ => Some (Throw TypeError, [])   (* no [forEach] to call *)
    end.

(** [getLearnerData(courseInfo, assignmentGroup, learnerSubmissions)],
    run when the clock reads [now]: its completion and what it printed
    on the console.  The [catch] clause logs the error and rethrows. *)
Definition getLearnerData (now : Z)
    (courseInfo assignmentGroup learnerSubmissions : value)
  : option (completion (list LearnerResult) * list diagnostic) :=
  match learnerSubmissions with
  | VArr submissions =>
      if negb (String.eqb (typeof courseInfo) "object")
         || negb (String.eqb (typeof assignmentGroup) "object")
      then Some (Throw InvalidInputType, [])
      else
        match tryBlock now courseInfo assignmentGroup submissions with
        | Some (Throw e, printed) => Some (Throw e, printed ++ [ErrorLog e])
        | other => other
        end
  | _ => Some (Throw InvalidInputType, [])
  end.

End GetLearnerData.

(** ** A concrete date service for the examples

    Date-only ISO strings ([YYYY-MM-DD]) denote midnight UTC of that
    day; this is the only form the repository's data uses.  Other values
    are not dates here, and no example below uses one. *)

Definition digit (c : ascii) : option Z :=
  let n := (Z.of_N (N_of_ascii c) - 48)%Z in
  if ((0 <=? n) && (n <=? 9))%Z then Some n else None.

Definition daysInMonth (y m : Z) : Z :=
  if (m =? 2)%Z then
    if ((y mod 4 =? 0) && (negb (y mod 100 =? 0) || (y mod 400 =? 0)))%Z
    then 29%Z else 28%Z
  else if ((m =? 4) || (m =? 6) || (m =? 9) || (m =? 11))%Z then 30%Z
  else 31%Z.

(** Days between 1970-01-01 and the civil date [y]-[m]-[d]. *)
Definition daysFromCivil (y m d : Z) : Z :=
  let y := (if m <=? 2 then y - 1 else y)%Z in
  let era := (y / 400)%Z in
  let yoe := (y - era * 400)%Z in
  let mp := (if m <=? 2 then m + 9 else m - 3)%Z in
  let doy := ((153 * mp + 2) / 5 + d - 1)%Z in
  let doe := (yoe * 365 + yoe / 4 - yoe / 100 + doy)%Z in
  (era * 146097 + doe - 719468)%Z.

Definition isoDate (s : string) : option Z :=
  match list_ascii_of_string s with
  | [y1; y2; y3; y4; dash1; m1; m2; dash2; d1; d2] =>
      match digit y1, digit y2, digit y3, digit y4,
            digit m1, digit m2, digit d1, digit d2 with
      | Some a, Some b, Some c, Some d, Some e, Some f, Some g, Some h =>
          let y := (a * 1000 + b * 100 + c * 10 + d)%Z in
          let m := (e * 10 + f)%Z in
          let dd := (g * 10 + h)%Z in
          if (Ascii.eqb dash1 "-"%char && Ascii.eqb dash2 "-"%char
              && (1 <=? m)%Z && (m <=? 12)%Z
              && (1 <=? dd)%Z && (dd <=? daysInMonth y m)%Z)%bool
          then Some (daysFromCivil y m dd * 86400000)%Z
          else None
      | _, _, _, _, _, _, _, _ => None
      end
  | _ => None
  end.

Definition isoClock (v : value) : option Z :=
  match v with
  | VStr s => isoDate s
  | _ => None
  end.

(** ** The repository's own data (src/script.js, lines 124-204) *)

Module Fixture.
Definition assignment (i : Z) (due : string) (points : Z) : value :=
  VObj [("id", VNum (inject_Z i)); ("due_at", VStr due);
        ("points_possible", VNum (inject_Z points))].

Definition submitted (learner assignment : Z) (at_ : string) (score : Z) : value :=
  VObj [("learner_id", VNum (inject_Z learner));
        ("assignment_id", VNum (inject_Z assignment));
        ("submission",
          VObj [("submitted_at", VStr at_); ("score", VNum (inject_Z score))])].

Definition courseInfo : value :=
  VObj [("id", VNum 1); ("name", VStr "JavaScript Fundamentals")].

Definition assignmentGroup : value :=
  VObj [("id", VNum 1); ("name", VStr "Homework Assignments");
        ("course_id", VNum 1); ("group_weight", VNum (4 # 10));
        ("assignments",
          VArr [assignment 1 "2023-10-01" 100;
                assignment 2 "2023-10-08" 200;
                assignment 3 "2023-10-15" 150])].

Definition learnerSubmissions : value :=
  VArr [submitted 101 1 "2023-09-30" 85;
        submitted 101 2 "2023-10-09" 180;
        submitted 101 1 "2023-09-29" 90;
        submitted 102 1 "2023-10-02" 95;
        submitted 102 3 "2023-10-10" 120;
        submitted 103 2 "2023-10-05" 150].

(** 2024-01-01, after every due date of the data. *)
Definition now : Z := 1704067200000%Z.

(** The index built from the group's assignments. *)
Definition assignmentMap : list (value * value) :=
  [(VNum 1, assignment 1 "2023-10-01" 100);
   (VNum 2, assignment 2 "2023-10-08" 200);
   (VNum 3, assignment 3 "2023-10-15" 150)].
End Fixture.

(** ** Further scenarios *)

Module Scenario.
Import Fixture.

(** A group with an ungraded assignment (4, zero points) and one that
    is due in 2030 (5). *)
Definition assignments : list value :=
  [assignment 1 "2023-10-01" 100;
   assignment 4 "2023-10-01" 0;
   assignment 5 "2030-01-01" 100].

Definition assignmentGroup : value :=
  VObj [("id", VNum 2); ("course_id", VNum 1); ("assignments", VArr assignments)].

Definition assignmentMap : list (value * value) :=
  [(VNum 1, assignment 1 "2023-10-01" 100);
   (VNum 4, assignment 4 "2023-10-01" 0);
   (VNum 5, assignment 5 "2030-01-01" 100)].

Definition ungraded : list value :=
  [submitted 101 1 "2023-09-30" 85;
   submitted 101 4 "2023-09-30" 10;
   submitted 102 4 "2023-09-30" 5].

Definition early : list value :=
  [submitted 101 1 "2023-09-30" 85;
   submitted 101 5 "2023-09-30" 90;
   submitted 102 5 "2023-09-30" 70].

(** One learner, one assignment of 100 points, a first submission
    scored 0 and a second one scored 50, both on time. *)
Definition resubmitted : list value :=
  [submitted 101 1 "2023-09-29" 0;
   submitted 101 1 "2023-09-30" 50].

(** The same first submission, then one for another assignment, then
    a second submission scored 0 again. *)
Definition tied : list value :=
  [submitted 101 1 "2023-09-29" 0;
   submitted 101 2 "2023-10-05" 150;
   submitted 101 1 "2023-09-30" 0].
End Scenario.


(** ** The routine over a mutable object store

    Here every object the routine touches (the arguments and what they
    reach, the two [Map]s, the learner records, the results) is a cell
    of a store, values hold references to cells, and a property write or
    a [Map] or array update replaces the cell it is aimed at, whichever
    cell that is.  Arrays and [Map]s are read again at each step of an
    iteration.  The fragment is the one described at the top of the
    file; what falls outside it yields [None]. *)

Module Store.

Definition loc := positive.

Inductive val :=
| Undefined
| Null
| Bool (b : bool)
| Num (x : Q)
| Str (s : string)
| Ref (l : loc).
Arguments Ref l%_positive.

(** Property keys: the field names of the source, and the numeric
    assignment ids under which percentages are recorded. *)
Inductive key :=
| Named (s : string)
| Numbered (x : Q).

Inductive cell :=
| Obj (props : list (key * val))        (* a plain object and its own properties *)
| Arr (elems : list val)                (* an array *)
| MapObj (entries : list (val * val)).  (* a Map, in insertion order *)

Inductive error :=
| InvalidInputType
| GroupMismatch
| InvalidAssignment (id : val)
| TypeError.

Inductive diagnostic :=
| Warn (submission : val)
| ErrorLog (e : error).

Inductive completion (A : Type) :=
| Normal (a : A)
| Throw (e : error).
Arguments Normal {A} a.
Arguments Throw {A} e.

Definition typeof (v : val) : string :=
  match v with
  | Undefined => "undefined"
  | Null => "object"
  | Bool _ => "boolean"
  | Num _ => "number"
  | Str _ => "string"
  | Ref _ => "object"
  end.

Definition truthy (v : val) : bool :=
  match v with
  | Undefined | Null => false
  | Bool b => b
  | Num x => negb (Qeq_bool x 0)
  | Str s => negb (String.eqb s "")
  | Ref _ => true
  end.

(** [a === b] and the key comparison of [Map]; references are equal
    when they are the same reference. *)
Definition strict_eq (a b : val) : bool :=
  match a, b with
  | Undefined, Undefined => true
  | Null, Null => true
  | Bool x, Bool y => Bool.eqb x y
  | Num x, Num y => Qeq_bool x y
  | Str x, Str y => String.eqb x y
  | Ref x, Ref y => Pos.eqb x y
  | _, _ => false
  end.

Definition key_eqb (a b : key) : bool :=
  match a, b with
  | Named s, Named t => String.eqb s t
  | Numbered x, Numbered y => Qeq_bool x y
  | _, _ => false
  end.

Fixpoint lookup_prop (k : key) (props : list (key * val)) : val :=
  match props with
  | [] => Undefined
  | (k', v) :: rest => if key_eqb k' k then v else lookup_prop k rest
  end.

Fixpoint update_prop (k : key) (v : val) (props : list (key * val))
  : list (key * val) :=
  match props with
  | [] => [(k, v)]
  | (k', v') :: rest =>
      if key_eqb k' k then (k', v) :: rest else (k', v') :: update_prop k v rest
  end.

Fixpoint entries_get (entries : list (val * val)) (k : val) : option val :=
  match entries with
  | [] => None
  | (k', v) :: rest => if strict_eq k' k then Some v else entries_get rest k
  end.

Fixpoint entries_set (entries : list (val * val)) (k v : val) : list (val * val) :=
  match entries with
  | [] => [(k, v)]
  | (k', v') :: rest =>
      if strict_eq k' k then (k', v) :: rest else (k', v') :: entries_set rest k v
  end.

(** *** Computations on the store *)

Record state := mkState {
  cells : gmap loc cell;
  console : list diagnostic
}.

(** A computation ends normally or by a throw, in a new state; [None]
    is a computation this embedding does not follow. *)
Definition M (A : Type) : Type := state -> option (completion A * state).

#[global] Instance M_ret : MRet M := fun A a st => Some (Normal a, st).

#[global] Instance M_bind : MBind M := fun A B f m st =>
  match m st with
  | Some (Normal a, st') => f a st'
  | Some (Throw e, st') => Some (Throw e, st')
  | None => None
  end.

Definition throw {A} (e : error) : M A := fun st => Some (Throw e, st).

Definition unsupported {A} : M A := fun _ => None.

(** Nothing to do: [continue], or a branch that is not taken. *)
Definition skip : M unit := mret tt.

(** [try { m } catch (e) { handler e }]. *)
Definition catch {A} (m : M A) (handler : error -> M A) : M A := fun st =>
  match m st with
  | Some (Throw e, st') => handler e st'
  | other => other
  end.

Definition print (d : diagnostic) : M unit := fun st =>
  Some (Normal tt, {| cells := cells st; console := console st ++ [d] |}).

Definition read (l : loc) : M cell := fun st =>
  match cells st !! l with
  | Some c => Some (Normal c, st)
  | None => None
  end.

(** Replaces the cell at [l]. *)
Definition write (l : loc) (c : cell) : M unit := fun st =>
  match cells st !! l with
  | Some _ => Some (Normal tt, {| cells := <[l := c]> (cells st); console := console st |})
  | None => None
  end.

(** A new object. *)
Definition alloc (c : cell) : M loc := fun st =>
  let l := fresh (dom (cells st)) in
  Some (Normal l, {| cells := <[l := c]> (cells st); console := console st |}).

(** [v.k] and [v[k]]. *)
Definition getProp (v : val) (k : key) : M val :=
  match v with
  | Undefined | Null => throw TypeError
  | Ref l =>
      c ← read l;
      match c, k with
      | Obj props, _ => mret (lookup_prop k props)
      | _, Named _ => mret Undefined
      | _, Numbered _ => unsupported
      end
  | _ => mret Undefined
  end.

(** [v.k = x] and [v[k] = x]; on a primitive the assignment is
    ignored. *)
Definition setProp (v : val) (k : key) (x : val) : M unit :=
  match v with
  | Undefined | Null => throw TypeError
  | Ref l =>
      c ← read l;
      match c with
      | Obj props => write l (Obj (update_prop k x props))
      | _ => unsupported
      end
  | _ => mret tt
  end.

Definition getNum (v : val) (k : key) : M Q :=
  x ← getProp v k;
  match x with
  | Num q => mret q
  | _ => unsupported
  end.

Definition Map_entries (m : loc) : M (list (val * val)) :=
  c ← read m;
  match c with
  | MapObj entries => mret entries
  | _ => unsupported
  end.

Definition Map_has (m : loc) (k : val) : M bool :=
  entries ← Map_entries m;
  mret (match entries_get entries k with Some _ => true | None => false end).

Definition Map_get (m : loc) (k : val) : M val :=
  entries ← Map_entries m;
  mret (match entries_get entries k with Some v => v | None => Undefined end).

Definition Map_set (m : loc) (k v : val) : M unit :=
  entries ← Map_entries m;
  write m (MapObj (entries_set entries k v)).

Definition isArray (v : val) : M bool :=
  match v with
  | Ref l =>
      c ← read l;
      mret (match c with Arr _ => true | _ => false end)
  | _ => mret false
  end.

Definition Array_elems (a : loc) : M (list val) :=
  c ← read a;
  match c with
  | Arr elems => mret elems
  | _ => unsupported
  end.

Definition Array_push (a : loc) (x : val) : M unit :=
  elems ← Array_elems a;
  write a (Arr (elems ++ [x])).

(** The own properties [...v] copies. *)
Definition ownProps (v : val) : M (list (key * val)) :=
  match v with
  | Ref l =>
      c ← read l;
      match c with
      | Obj props => mret props
      | _ => unsupported
      end
  | _ => mret []
  end.

(** Visits the positions [i], [i+1], ... of a collection, at most [n]
    of them, reading each item when it is its turn. *)
Fixpoint iterate {X} (n i : nat) (item : nat -> M (option X)) (body : X -> M unit)
  : M unit :=
  match n with
  | O => mret tt
  | S n =>
      x ← item i;
      match x with
      | Some x => body x;; iterate n (S i) item body
      | None => mret tt
      end
  end.

(** [a.forEach(body)]: the length is read once, before the first call. *)
Definition forEach (a : val) (body : val -> M unit) : M unit :=
  match a with
  | Ref l =>
      c ← read l;
      match c with
      | Arr elems =>
          iterate (length elems) 0
            (fun i => elems ← Array_elems l; mret (elems !! i)) body
      | Obj _ => throw TypeError      (* no [forEach] to call *)
      | MapObj _ => unsupported
      end
  | _ => throw TypeError
  end.

(** [for (const x of a)] on an array.  A loop over an array that has
    grown meanwhile is not followed further. *)
Definition forOfArray (a : loc) (body : val -> M unit) : M unit :=
  elems ← Array_elems a;
  iterate (length elems) 0 (fun i => elems ← Array_elems a; mret (elems !! i)) body;;
  elems' ← Array_elems a;
  if (length elems' <=? length elems)%nat then skip else unsupported.

(** [for (const [k, v] of m)] on a Map, likewise. *)
Definition forOfMap (m : loc) (body : val * val -> M unit) : M unit :=
  entries ← Map_entries m;
  iterate (length entries) 0
    (fun i => entries ← Map_entries m; mret (entries !! i)) body;;
  entries' ← Map_entries m;
  if (length entries' <=? length entries)%nat then skip else unsupported.

(** *** The routine *)

Section GetLearnerData.

(** Time value of [new Date(v)], which may read the cells [v] reaches. *)
Variable Date_of : gmap loc cell -> val -> option Z.

Definition newDate (v : val) : M (option Z) := fun st =>
  Some (Normal (Date_of (cells st) v), st).

(** The callback of [forEach], lines 27-33. *)
Definition indexAssignment (assignmentMap : loc) (assignment : val) : M unit :=
  points_possible ← getProp assignment (Named "points_possible");
  let invalid :=
    match points_possible with
    | Num x => Qltb x 0
    | _ => true
    end in
  if invalid then
    id ← getProp assignment (Named "id");
    throw (InvalidAssignment id)
  else
    id ← getProp assignment (Named "id");
    Map_set assignmentMap id assignment.

(** Lines 86-90: the contribution of the recorded percentage leaves
    the totals. *)
Definition retract (learner recorded : val) (points_possible : Q) : M unit :=
  if truthy recorded then
    match recorded with
    | Num p =>
        totalScore ← getNum learner (Named "totalScore");
        setProp learner (Named "totalScore") (Num (totalScore - p * points_possible));;
        totalPossible ← getNum learner (Named "totalPossible");
        setProp learner (Named "totalPossible") (Num (totalPossible - points_possible))
    | _ => unsupported
    end
  else skip.

(** Lines 82-95. *)
Definition keepHighest (learner : val) (key percentage score points_possible : Q)
  : M unit :=
  assignmentScores ← getProp learner (Named "assignmentScores");
  recorded ← getProp assignmentScores (Numbered key);
  let greater := match recorded with Num p => Qltb p percentage | _ => false end in
  if negb (truthy recorded) || greater then
    retract learner recorded points_possible;;
    assignmentScores ← getProp learner (Named "assignmentScores");
    setProp assignmentScores (Numbered key) (Num percentage);;
    totalScore ← getNum learner (Named "totalScore");
    setProp learner (Named "totalScore") (Num (totalScore + score));;
    totalPossible ← getNum learner (Named "totalPossible");
    setProp learner (Named "totalPossible") (Num (totalPossible + points_possible))
  else skip.

(** Lines 49-57. *)
Definition ensureLearner (learnerData : loc) (learnerId : val) : M unit :=
  known ← Map_has learnerData learnerId;
  if negb known then
    assignmentScores ← alloc (Obj []);
    learner ← alloc (Obj [(Named "id", learnerId);
                          (Named "totalScore", Num 0);
                          (Named "totalPossible", Num 0);
                          (Named "assignmentScores", Ref assignmentScores)]);
    Map_set learnerData learnerId (Ref learner)
  else skip.

(** The body of the loop over the submissions, lines 40-95. *)
Definition processSubmission (now : Z) (assignmentMap learnerData : loc)
    (submission : val) : M unit :=
  learnerId ← getProp submission (Named "learner_id");
  assignmentId ← getProp submission (Named "assignment_id");
  body ← getProp submission (Named "submission");
  if negb (truthy learnerId) || negb (truthy assignmentId) || negb (truthy body)
  then print (Warn submission)
  else
    ensureLearner learnerData learnerId;;
    learner ← Map_get learnerData learnerId;
    assignment ← Map_get assignmentMap assignmentId;
    if negb (truthy assignment) then skip
    else
      due_at ← getProp assignment (Named "due_at");
      dueDate ← newDate due_at;
      if date_gt dueDate (Some now) then skip
      else
        points_possible ← getProp assignment (Named "points_possible");
        match points_possible with
        | Num points_possible =>
            if Qeq_bool points_possible 0 then skip
            else
              submitted_at ← getProp body (Named "submitted_at");
              submittedDate ← newDate submitted_at;
              score ← getProp body (Named "score");
              match score, assignmentId with
              | Num score, Num key =>
                  let score := penalised submittedDate dueDate score points_possible in
                  let percentage := score / points_possible in
                  keepHighest learner key percentage score points_possible
              | _, _ => unsupported
              end
        | _ => unsupported
        end.

(** The body of the loop over the learners, lines 100-108. *)
Definition summarise (results : loc) (entry : val * val) : M unit :=
  let data := entry.2 in
  totalPossible ← getNum data (Named "totalPossible");
  if Qeq_bool totalPossible 0 then skip
  else
    id ← getProp data (Named "id");
    totalScore ← getNum data (Named "totalScore");
    assignmentScores ← getProp data (Named "assignmentScores");
    spread ← ownProps assignmentScores;
    result ← alloc (Obj (foldl (fun props kv => update_prop kv.1 kv.2 props)
                           [(Named "id", id);
                            (Named "avg", Num (totalScore / totalPossible))]
                           spread));
    Array_push results (Ref result).

(** The [try] block, lines 17-111. *)
Definition tryBlock (now : Z) (courseInfo assignmentGroup : val)
    (learnerSubmissions : loc) : M val :=
  course_id ← getProp assignmentGroup (Named "course_id");
  id ← getProp courseInfo (Named "id");
  if negb (strict_eq course_id id) then throw GroupMismatch
  else
    results ← alloc (Arr []);
    assignmentMap ← alloc (MapObj []);
    assignments ← getProp assignmentGroup (Named "assignments");
    forEach assignments (indexAssignment assignmentMap);;
    learnerData ← alloc (MapObj []);
    forOfArray learnerSubmissions (processSubmission now assignmentMap learnerData);;
    forOfMap learnerData (summarise results);;
    mret (Ref results).

(** [getLearnerData(courseInfo, assignmentGroup, learnerSubmissions)]
    when the clock reads [now]. *)
Definition getLearnerData (now : Z)
    (courseInfo assignmentGroup learnerSubmissions : val) : M val :=
  array ← isArray learnerSubmissions;
  match learnerSubmissions with
  | Ref submissions =>
      if negb (String.eqb (typeof courseInfo) "object")
         || negb (String.eqb (typeof assignmentGroup) "object")
         || negb array
      then throw InvalidInputType
      else
        catch (tryBlock now courseInfo assignmentGroup submissions)
          (fun e => print (ErrorLog e);; throw e)
  | _ => throw InvalidInputType
  end.

End GetLearnerData.

(** *** What a computation may assume and must leave

    [spec P m Q E]: from a state in [P], the computation [m] ends
    normally with a result and a state in [Q], or by a throw in a state
    in [E]. *)
Definition spec {A} (P : state -> Prop) (m : M A)
    (Q : A -> state -> Prop) (E : state -> Prop) : Prop :=
  forall st r st',
    P st -> m st = Some (r, st') ->
    match r with
    | Normal a => Q a st'
    | Throw _ => E st'
    end.

(** The computation leaves the state as it is. *)
Definition reads_only {A} (m : M A) : Prop :=
  forall st r st', m st = Some (r, st') -> st' = st.

Section Footprint.

(** The cells of the store when the call starts. *)
Variable initial : gmap loc cell.

(** Every cell of the initial store is still there, unchanged. *)
Definition frame (st : state) : Prop := initial ⊆ cells st.

(** The value is not a reference to a cell of the initial store. *)
Definition local (v : val) : Prop :=
  forall l, v = Ref l -> initial !! l = None.

Definition scoresKey : key := Named "assignmentScores".

(** The value is a reference to a learner record made by this call,
    whose percentages are kept in an object made by this call. *)
Definition learner_ok (σ : gmap loc cell) (v : val) : Prop :=
  exists l props,
    v = Ref l /\ initial !! l = None /\ σ !! l = Some (Obj props)
    /\ local (lookup_prop scoresKey props).

(** The Map at [learnerData] holds such records only. *)
Definition learners (learnerData : loc) (σ : gmap loc cell) : Prop :=
  exists entries,
    σ !! learnerData = Some (MapObj entries)
    /\ Forall (fun e => learner_ok σ e.2) entries.

(** The updates a learner record of this call goes through: a cell is
    added, or a property other than [assignmentScores] of an object made
    by this call is set. *)
Inductive update : gmap loc cell -> gmap loc cell -> Prop :=
| update_none σ : update σ σ
| update_alloc σ l c :
    σ !! l = None -> update σ (<[l := c]> σ)
| update_props σ l props k x :
    initial !! l = None -> σ !! l = Some (Obj props) -> k <> scoresKey ->
    update σ (<[l := Obj (update_prop k x props)]> σ).

(** What the loop over the submissions maintains. *)
Definition learnersKept (learnerData : loc) (st : state) : Prop :=
  frame st /\ learners learnerData (cells st).

(** The same, with a value read from the Map at hand: [undefined], or
    one of its records. *)
Definition learnerAtHand (learnerData : loc) (learner : val) (st : state) : Prop :=
  learnersKept learnerData st
  /\ (learner = Undefined \/ learner_ok (cells st) learner).

(** An assertion that such updates, and printing, preserve. *)
Definition stable (P : state -> Prop) : Prop :=
  forall st σ' console',
    P st -> update (cells st) σ' -> P {| cells := σ'; console := console' |}.

End Footprint.

End Store.

(** Allocates an input tree in the store, every node as a cell of its
    own. *)
Fixpoint load (v : value) : Store.M Store.val :=
  match v with
  | VUndefined => mret Store.Undefined
  | VNull => mret Store.Null
  | VBool b => mret (Store.Bool b)
  | VNum x => mret (Store.Num x)
  | VStr s => mret (Store.Str s)
  | VObj props =>
      props' ← (fix loadProps (props : list (string * value))
                  : Store.M (list (Store.key * Store.val)) :=
                  match props with
                  | [] => mret []
                  | (k, x) :: rest =>
                      x' ← load x;
                      rest' ← loadProps rest;
                      mret ((Store.Named k, x') :: rest')
                  end) props;
      l ← Store.alloc (Store.Obj props');
      mret (Store.Ref l)
  | VArr elems =>
      elems' ← (fix loadElems (elems : list value) : Store.M (list Store.val) :=
                  match elems with
                  | [] => mret []
                  | x :: rest =>
                      x' ← load x;
                      rest' ← loadElems rest;
                      mret (x' :: rest')
                  end) elems;
      l ← Store.alloc (Store.Arr elems');
      mret (Store.Ref l)
  end.

(** The date service of the examples on store values. *)
Definition isoClockOf (cells : gmap Store.loc Store.cell) (v : Store.val) : option Z :=
  match v with
  | Store.Str s => isoDate s
  | _ => None
  end.

(** A call on arguments given as trees, in a store that holds nothing
    else. *)
Definition callOnTrees (now : Z) (courseInfo assignmentGroup learnerSubmissions : value)
  : Store.M Store.val :=
  c ← load courseInfo;
  g ← load assignmentGroup;
  s ← load learnerSubmissions;
  Store.getLearnerData isoClockOf now c g s.

(** The repository's data in a store. *)
Module Stored.
Definition empty : Store.state := {| Store.cells := ∅; Store.console := [] |}.

Definition arguments : Store.M (Store.val * Store.val * Store.val) :=
  c ← load Fixture.courseInfo;
  g ← load Fixture.assignmentGroup;
  s ← load Fixture.learnerSubmissions;
  mret (c, g, s).

(** The store once the three arguments are in it: the course is cell 1,
    the group cell 6, the array of submissions cell 19. *)
Definition before : Store.state :=
  match arguments empty with
  | Some (_, st) => st
  | None => empty
  end.

(** The store the call leaves. *)
Definition after : Store.state :=
  match Store.getLearnerData isoClockOf Fixture.now
          (Store.Ref 1) (Store.Ref 6) (Store.Ref 19) before with
  | Some (_, st) => st
  | None => before
  end.
End Stored.

(** What a call on trees completes with, what it prints, and a cell of
    the store it leaves. *)
Definition observed (l : Store.loc)
    (run : option (Store.completion Store.val * Store.state))
  : option (Store.completion Store.val * list Store.diagnostic * option Store.cell) :=
  match run with
  | Some (c, st) => Some (c, Store.console st, Store.cells st !! l)
  | None => None
  end.
Arguments observed l%_positive run.

(** ** Vocabulary of the specification *)

(** A submission record with one of its three fields absent or falsy:
    the test of line 41. *)
Definition malformed (submission : value) : bool :=
  negb (truthy (prop submission "learner_id"))
  || negb (truthy (prop submission "assignment_id"))
  || negb (truthy (prop submission "submission")).

(** What the loop does with a submission, as the checks of lines 40-80
    decide it. *)
Inductive action :=
| Warned                                   (* malformed: warn and skip *)
| Skipped                                  (* unknown, not yet due or zero points *)
| Scored (key score points_possible : Q).  (* passes all skip checks *)

Section Vocabulary.
Variable Date_of : value -> option Z.
Variable now : Z.
Variable assignmentMap : list (value * value).

(** The assignment is due strictly after the clock instant (line 66). *)
Definition notYetDue (assignment : value) : bool :=
  date_gt (Date_of (prop assignment "due_at")) (Some now).

Definition classify (submission : value) : option (completion action) :=
  if nullish submission then Some (Throw TypeError)
  else if malformed submission then Some (Normal Warned)
  else
    let learnerId := prop submission "learner_id" in
    if negb (strict_eq learnerId learnerId) then None
    else
      match Map_get assignmentMap (prop submission "assignment_id") with
      | None => Some (Normal Skipped)
      | Some assignment =>
          if negb (truthy assignment) || notYetDue assignment
          then Some (Normal Skipped)
          else
            match prop assignment "points_possible" with
            | VNum points_possible =>
                if Qeq_bool points_possible 0 then Some (Normal Skipped)
                else
                  match prop (prop submission "submission") "score",
                        prop submission "assignment_id" with
                  | VNum raw, VNum key =>
                      Some (Normal (Scored key
                        (penalised
                           (Date_of (prop (prop submission "submission") "submitted_at"))
                           (Date_of (prop assignment "due_at")) raw points_possible)
                        points_possible))
                  | _, _ => None
                  end
            | _ => None
            end
      end.

(** The submission passes all skip checks. *)
Definition counted (submission : value) : bool :=
  match classify submission with
  | Some (Normal (Scored _ _ _)) => true
  | _ => false
  end.

(** The submission refers to the assignment found under [key]. *)
Definition refersTo (key : value) (submission : value) : bool :=
  strict_eq (prop submission "assignment_id") key.

(** The submission refers to an assignment that is not yet due. *)
Definition refersToFuture (submission : value) : bool :=
  match Map_get assignmentMap (prop submission "assignment_id") with
  | Some assignment => notYetDue assignment
  | None => false
  end.
End Vocabulary.

(** What a learner has accumulated so far: the two totals and the
    recorded percentages.  A learner not seen yet has accumulated
    nothing. *)
Definition view (learner : Learner) : Q * Q * list (Q * Q) :=
  (totalScore learner, totalPossible learner, assignmentScores learner).

Definition tally (learnerData : list (value * Learner)) (learnerId : value)
  : Q * Q * list (Q * Q) :=
  match Map_get learnerData learnerId with
  | Some learner => view learner
  | None => (0, 0, [])
  end.

Definition same_tallies (learnerData1 learnerData2 : list (value * Learner)) : Prop :=
  forall learnerId, tally learnerData1 learnerId = tally learnerData2 learnerId.

(** The summaries emitted for a learner: [avg] and the percentages. *)
Definition summaries_of (learnerId : value) (out : list LearnerResult)
  : list (Q * list (Q * Q)) :=
  List.map (fun r => (avg r, scores r))
    (List.filter (fun r => strict_eq (result_id r) learnerId) out).

(** Keys of the learner map are pairwise different, and each record
    carries its key as id. *)
Fixpoint distinct_learners (learnerData : list (value * Learner)) : Prop :=
  match learnerData with
  | [] => True
  | (k, learner) :: rest =>
      strict_eq (learner_ident learner) k = true
      /\ Map_get rest k = None
      /\ distinct_learners rest
  end.

(** No learner has a percentage recorded under [key]. *)
Definition unrecorded (key : Q) (learnerData : list (value * Learner)) : Prop :=
  forall learnerId, scores_get (snd (tally learnerData learnerId)) key = None.

(** The summary emitted for a tally (lines 100-106), if any. *)
Definition summary_of_tally (t : Q * Q * list (Q * Q)) : list (Q * list (Q * Q)) :=
  let '(total, possible, percentages) := t in
  if Qeq_bool possible 0 then [] else [(total / possible, percentages)].

(** Points possible of the assignment indexed under a numeric id. *)
Definition pointsOf (assignmentMap : list (value * value)) (key : Q) : Q :=
  match Map_get assignmentMap (VNum key) with
  | Some assignment =>
      match prop assignment "points_possible" with
      | VNum points_possible => points_possible
      | _ => 0
      end
  | None => 0
  end.

(** The totals recomputed from the recorded percentages, each
    assignment counted once. *)
Fixpoint recomputedScore (assignmentMap : list (value * value))
    (percentages : list (Q * Q)) : Q :=
  match percentages with
  | [] => 0
  | (key, p) :: rest =>
      p * pointsOf assignmentMap key + recomputedScore assignmentMap rest
  end.

Fixpoint recomputedPossible (assignmentMap : list (value * value))
    (percentages : list (Q * Q)) : Q :=
  match percentages with
  | [] => 0
  | (key, p) :: rest =>
      pointsOf assignmentMap key + recomputedPossible assignmentMap rest
  end.


(** ** The date helper (src/script.js, lines 118-121) *)

(** [isValidDate(dateString)]: the time value of [new Date(dateString)]
    is not [NaN].  The routine never calls it. *)
Definition isValidDate (Date_of : value -> option Z) (dateString : value) : bool :=
  match Date_of dateString with
  | Some _ => true
  | None => false
  end.

(** ** Vocabulary for the index, the learners and the best percentage *)

(** The test of line 29 on an assignment: its [points_possible] is not
    a number, or is negative. *)
Definition invalidPoints (assignment : value) : bool :=
  match prop assignment "points_possible" with
  | VNum points_possible => Qltb points_possible 0
  | _ => true
  end.

(** The last element of the list whose [id] is [key]. *)
Definition lastWithId (key : value) (assignments : list value) : option value :=
  List.find (fun a => strict_eq (prop a "id") key) (rev assignments).



(** The greatest percentage among the counted submissions of a learner
    for an assignment, if there is one. *)
Definition betterOf (best : option Q) (percentage : Q) : option Q :=
  match best with
  | Some b => Some (Qmax b percentage)
  | None => Some percentage
  end.

Definition bestPercentage (Date_of : value -> option Z) (now : Z)
    (assignmentMap : list (value * value)) (learnerId : value) (key : Q)
    (submissions : list value) : option Q :=
  fold_left
    (fun best s =>
       match classify Date_of now assignmentMap s with
       | Some (Normal (Scored k score points_possible)) =>
           if strict_eq (prop s "learner_id") learnerId && Qeq_bool k key
           then betterOf best (score / points_possible)
           else best
       | _ => best
       end)
    submissions None.

(** Two optional numbers that are both absent, or present and equal. *)
Definition same_number (x y : option Q) : Prop :=
  match x, y with
  | Some a, Some b => a == b
  | None, None => True
  | _, _ => False
  end.

(** The submission refers to an assignment the index does not hold
    (the test of line 63 on what [assignmentMap.get] returns). *)
Definition refersToUnknown (assignmentMap : list (value * value))
    (submission : value) : bool :=
  match Map_get assignmentMap (prop submission "assignment_id") with
  | Some assignment => negb (truthy assignment)
  | None => true
  end.



(** What the totals of a learner always satisfy: [totalScore] is the
    score recomputed from the recorded percentages, [totalPossible] is
    not less than the points possible of the recorded assignments, a
    learner with no percentage has no points, and every recorded
    assignment has points. *)
Definition totals_sound (assignmentMap : list (value * value)) (learner : Learner)
  : Prop :=
  totalScore learner == recomputedScore assignmentMap (assignmentScores learner)
  /\ recomputedPossible assignmentMap (assignmentScores learner)
     <= totalPossible learner
  /\ (assignmentScores learner = [] -> totalPossible learner == 0)
  /\ Forall (fun kp => 0 < pointsOf assignmentMap kp.1) (assignmentScores learner).


(** ** Vocabulary for what a call on the store returns *)

(** The value is a reference to a cell that the initial store does not
    hold. *)
Definition newRef (initial : gmap Store.loc Store.cell) (v : Store.val) : Prop :=
  exists l, v = Store.Ref l /\ initial !! l = None.

(** The cell at [results] is an array of such references. *)
Definition resultsKept (initial : gmap Store.loc Store.cell) (results : Store.loc)
    (st : Store.state) : Prop :=
  exists elems,
    Store.cells st !! results = Some (Store.Arr elems)
    /\ Forall (newRef initial) elems.

(** * Properties *)

(** The routine on the repository's data: 101 keeps the better of two
    submissions and is penalised once, 102 is penalised once. *)
Example fixture_run :
  getLearnerData isoClock Fixture.now
    Fixture.courseInfo Fixture.assignmentGroup Fixture.learnerSubmissions
  = Some (Normal
      [ {| result_id := VNum 101; avg := 250000 # 300000;
           scores := [(1, 90 # 100); (2, 1600 # 2000)] |};
        {| result_id := VNum 102; avg := 2050 # 2500;
           scores := [(1, 850 # 1000); (3, 120 # 150)] |};
        {| result_id := VNum 103; avg := 150 # 200;
           scores := [(2, 150 # 200)] |} ], []).
Proof. vm_compute. reflexivity. Qed.

(** ** Comparison of keys *)

Lemma Qeq_bool_sym (x y : Q) : Qeq_bool x y = Qeq_bool y x.
Proof.
  destruct (Qeq_bool x y) eqn:E, (Qeq_bool y x) eqn:E'; try reflexivity.
  - apply Qeq_bool_iff in E. symmetry in E. apply Qeq_bool_iff in E. congruence.
  - apply Qeq_bool_iff in E'. symmetry in E'. apply Qeq_bool_iff in E'. congruence.
Qed.

Lemma Qeq_bool_trans_true (x y z : Q) :
  Qeq_bool x y = true -> Qeq_bool y z = true -> Qeq_bool x z = true.
Proof.
  rewrite !Qeq_bool_iff. intros -> ->. reflexivity.
Qed.

Lemma strict_eq_sym (a b : value) : strict_eq a b = strict_eq b a.
Proof.
  destruct a, b; simpl; try reflexivity.
  - destruct b, b0; reflexivity.
  - apply Qeq_bool_sym.
  - apply String.eqb_sym.
Qed.

Lemma strict_eq_trans (a b c : value) :
  strict_eq a b = true -> strict_eq b c = true -> strict_eq a c = true.
Proof.
  destruct a, b; simpl; try discriminate; destruct c; simpl; try discriminate; auto.
  - destruct b, b0, b1; auto.
  - apply Qeq_bool_trans_true.
  - rewrite !String.eqb_eq. congruence.
Qed.

(** Two keys equal to a third agree on every other key. *)
Lemma strict_eq_congr (a b c : value) :
  strict_eq a b = true -> strict_eq a c = strict_eq b c.
Proof.
  intros Hab. destruct (strict_eq b c) eqn:Hbc.
  - eapply strict_eq_trans; eassumption.
  - destruct (strict_eq a c) eqn:Hac; [|reflexivity].
    rewrite <- Hbc. symmetry. eapply strict_eq_trans; [|eassumption].
    rewrite strict_eq_sym. exact Hab.
Qed.

Lemma strict_eq_refl_of (a b : value) :
  strict_eq a b = true -> strict_eq a a = true.
Proof.
  intros H. eapply strict_eq_trans; [exact H|]. rewrite strict_eq_sym. exact H.
Qed.

(** ** [Map] *)

Section JsMapFacts.
Context {V : Type}.
Implicit Types (m : list (value * V)) (k : value) (v : V).

Lemma Map_get_congr m k k' :
  strict_eq k k' = true -> Map_get m k = Map_get m k'.
Proof.
  intros H. induction m as [|[k0 v0] m IH]; simpl; [reflexivity|].
  rewrite (strict_eq_sym k0 k), (strict_eq_sym k0 k'), (strict_eq_congr _ _ _ H).
  rewrite IH. reflexivity.
Qed.

Lemma Map_get_set_same m k v :
  strict_eq k k = true -> Map_get (Map_set m k v) k = Some v.
Proof.
  intros H. induction m as [|[k0 v0] m IH]; simpl.
  - rewrite H. reflexivity.
  - destruct (strict_eq k0 k) eqn:E; simpl; rewrite E; auto.
Qed.

Lemma Map_get_set_other m k k' v :
  strict_eq k k' = false -> Map_get (Map_set m k v) k' = Map_get m k'.
Proof.
  intros H. induction m as [|[k0 v0] m IH]; simpl.
  - rewrite H. reflexivity.
  - destruct (strict_eq k0 k) eqn:E; simpl.
    + rewrite (strict_eq_congr _ _ k' E), H. reflexivity.
    + rewrite IH. reflexivity.
Qed.

Lemma Map_get_set m k k' v :
  strict_eq k k = true ->
  Map_get (Map_set m k v) k' = if strict_eq k k' then Some v else Map_get m k'.
Proof.
  intros H. destruct (strict_eq k k') eqn:E.
  - rewrite <- (Map_get_congr _ k k' E). apply Map_get_set_same, H.
  - apply Map_get_set_other, E.
Qed.

Lemma Map_get_set_fresh m k k' v :
  Map_get m k = None ->
  Map_get (Map_set m k v) k' = if strict_eq k k' then Some v else Map_get m k'.
Proof.
  induction m as [|[k0 v0] m IH]; simpl; [reflexivity|].
  destruct (strict_eq k0 k) eqn:E; [discriminate|]. intros Hnone. simpl.
  rewrite (IH Hnone).
  destruct (strict_eq k0 k') eqn:E0; [|reflexivity].
  destruct (strict_eq k k') eqn:E1; [|reflexivity].
  rewrite strict_eq_sym in E1.
  rewrite (strict_eq_trans _ _ _ E0 E1) in E. discriminate.
Qed.
End JsMapFacts.

(** ** Input validation *)

Section Validation.
Variable Date_of : value -> option Z.
Variable now : Z.

Lemma indexAssignments_throws assignments assignmentMap e :
  indexAssignments assignments assignmentMap = Throw e ->
  e = TypeError \/ exists i, e = InvalidAssignment i.
Proof.
  revert assignmentMap.
  induction assignments as [|a rest IH]; simpl; intros assignmentMap; [discriminate|].
  destruct (nullish a); [intros [= <-]; auto|].
  destruct (prop a "points_possible");
    try (intros [= <-]; eauto).
  destruct (Qltb x 0); [intros [= <-]; eauto | apply IH].
Qed.

Lemma processSubmission_throws assignmentMap learnerData submission e printed :
  processSubmission Date_of now assignmentMap learnerData submission
    = Some (Throw e, printed) ->
  e = TypeError /\ printed = [] /\ nullish submission = true.
Proof.
  unfold processSubmission.
  destruct (nullish submission); [intros [= <- <-]; auto|].
  repeat (match goal with
          | |- context [if ?b then _ else _] => destruct b
          | |- context [match ?x with _ => _ end] => destruct x
          end; try discriminate).
Qed.

Lemma forSubmissions_throws assignmentMap submissions learnerData e printed :
  forSubmissions Date_of now assignmentMap submissions learnerData
    = Some (Throw e, printed) ->
  e = TypeError.
Proof.
  revert learnerData printed.
  induction submissions as [|s rest IH]; simpl; intros learnerData printed; [discriminate|].
  destruct (processSubmission Date_of now assignmentMap learnerData s)
    as [[[ld'|e'] p]|] eqn:E; [| |discriminate].
  - destruct (forSubmissions Date_of now assignmentMap rest ld') as [[c p']|] eqn:E';
      [|discriminate].
    intros [= -> <-]. eapply IH, E'.
  - intros [= -> <-]. apply processSubmission_throws in E. tauto.
Qed.

Lemma tryBlock_throws courseInfo assignmentGroup submissions e printed :
  tryBlock Date_of now courseInfo assignmentGroup submissions = Some (Throw e, printed) ->
  e <> InvalidInputType.
Proof.
  unfold tryBlock.
  destruct (nullish assignmentGroup || nullish courseInfo); [intros [= <- <-]; discriminate|].
  destruct (negb (strict_eq _ _)); [intros [= <- <-]; discriminate|].
  destruct (prop assignmentGroup "assignments"); try (intros [= <- <-]; discriminate).
  destruct (indexAssignments elems []) as [assignmentMap|e'] eqn:E.
  - destruct (forSubmissions Date_of now assignmentMap submissions [])
      as [[[ld|e''] p]|] eqn:E'; try discriminate.
    intros [= <- <-]. apply forSubmissions_throws in E'. subst. discriminate.
  - intros [= <- <-]. apply indexAssignments_throws in E as [->|[i ->]]; discriminate.
Qed.

(** The type test of lines 10-14 and nothing else raises
    [InvalidInputType]. *)
Lemma InvalidInputType_iff courseInfo assignmentGroup learnerSubmissions :
  (exists printed,
      getLearnerData Date_of now courseInfo assignmentGroup learnerSubmissions
      = Some (Throw InvalidInputType, printed))
  <-> (typeof courseInfo <> "object"%string
       \/ typeof assignmentGroup <> "object"%string
       \/ isArray learnerSubmissions = false).
Proof.
  unfold getLearnerData. split.
  - intros [printed H].
    destruct learnerSubmissions; auto.
    destruct (String.eqb (typeof courseInfo) "object") eqn:E1;
      [|apply String.eqb_neq in E1; auto].
    destruct (String.eqb (typeof assignmentGroup) "object") eqn:E2;
      [|apply String.eqb_neq in E2; auto].
    simpl in H. exfalso.
    destruct (tryBlock Date_of now courseInfo assignmentGroup elems)
      as [[[out|e] p]|] eqn:E; try discriminate.
    injection H as -> _. eapply tryBlock_throws; [exact E|reflexivity].
  - intros H.
    destruct learnerSubmissions; try (eexists; reflexivity).
    destruct H as [H|[H|H]]; [| |discriminate].
    + apply String.eqb_neq in H. rewrite H. eexists; reflexivity.
    + apply String.eqb_neq in H. rewrite H, orb_true_r. eexists; reflexivity.
Qed.

(** C7.  When the group's [course_id] differs from the course's [id],
    the call fails with [GroupMismatch] whatever the submissions are:
    none of them is looked at (no warning is printed, only the error
    report of the [catch] clause), and nothing is returned. *)
Theorem group_mismatch_aborts courseInfo assignmentGroup submissions :
  typeof courseInfo = "object"%string -> nullish courseInfo = false ->
  typeof assignmentGroup = "object"%string -> nullish assignmentGroup = false ->
  strict_eq (prop assignmentGroup "course_id") (prop courseInfo "id") = false ->
  getLearnerData Date_of now courseInfo assignmentGroup (VArr submissions)
  = Some (Throw GroupMismatch, [ErrorLog GroupMismatch]).
Proof.
  intros Hc Hcn Hg Hgn Hne. unfold getLearnerData, tryBlock.
  rewrite Hc, Hg, Hcn, Hgn, Hne. reflexivity.
Qed.

End Validation.

(** C8, at a course that is [null].  [typeof null] is ["object"], so
    the type test lets it through and the first property read raises a
    TypeError instead of the error for invalid input types. *)
Theorem null_course_passes_type_test :
  typeof VNull = "object"%string
  /\ getLearnerData isoClock Fixture.now
       VNull Fixture.assignmentGroup Fixture.learnerSubmissions
     = Some (Throw TypeError, [ErrorLog TypeError]).
Proof. split; reflexivity. Qed.

Lemma group_mismatch_aborts_witness :
  getLearnerData isoClock Fixture.now
    (VObj [("id", VNum 2)]) Fixture.assignmentGroup
    (VArr [Fixture.submitted 101 1 "2023-09-30" 85; VNull])
  = Some (Throw GroupMismatch, [ErrorLog GroupMismatch]).
Proof.
  apply (group_mismatch_aborts isoClock Fixture.now
           (VObj [("id", VNum 2)]) Fixture.assignmentGroup); reflexivity.
Defined.

(** ** Malformed submissions *)

Section Malformed.
Variable Date_of : value -> option Z.
Variable now : Z.

Lemma forSubmissions_app assignmentMap l1 l2 learnerData :
  forSubmissions Date_of now assignmentMap (l1 ++ l2) learnerData
  = match forSubmissions Date_of now assignmentMap l1 learnerData with
    | Some (Normal learnerData', printed) =>
        match forSubmissions Date_of now assignmentMap l2 learnerData' with
        | Some (c, printed') => Some (c, printed ++ printed')
        | None => None
        end
    | other => other
    end.
Proof.
  revert learnerData. induction l1 as [|s l1 IH]; intros learnerData; simpl.
  - destruct (forSubmissions Date_of now assignmentMap l2 learnerData) as [[c p]|];
      reflexivity.
  - destruct (processSubmission Date_of now assignmentMap learnerData s)
      as [[[ld'|e] p]|]; try reflexivity.
    rewrite IH.
    destruct (forSubmissions Date_of now assignmentMap l1 ld') as [[[ld''|e] p1]|];
      try reflexivity.
    destruct (forSubmissions Date_of now assignmentMap l2 ld'') as [[c p2]|];
      try reflexivity.
    rewrite app_assoc. reflexivity.
Qed.

(** The iteration on a malformed record: a warning, and the learner
    map as it was. *)
Lemma processSubmission_malformed assignmentMap learnerData m :
  nullish m = false -> malformed m = true ->
  processSubmission Date_of now assignmentMap learnerData m
  = Some (Normal learnerData, [Warn m]).
Proof.
  unfold processSubmission, malformed. intros -> ->. reflexivity.
Qed.

Lemma forSubmissions_malformed assignmentMap l1 m l2 learnerData :
  nullish m = false -> malformed m = true ->
  match forSubmissions Date_of now assignmentMap (l1 ++ l2) learnerData with
  | Some (Normal learnerData', printed) =>
      exists before after,
        printed = before ++ after
        /\ forSubmissions Date_of now assignmentMap (l1 ++ m :: l2) learnerData
           = Some (Normal learnerData', before ++ Warn m :: after)
  | Some (Throw e, printed) =>
      exists printed',
        forSubmissions Date_of now assignmentMap (l1 ++ m :: l2) learnerData
        = Some (Throw e, printed')
  | None =>
      forSubmissions Date_of now assignmentMap (l1 ++ m :: l2) learnerData = None
  end.
Proof.
  intros Hn Hm. rewrite !forSubmissions_app. simpl.
  destruct (forSubmissions Date_of now assignmentMap l1 learnerData)
    as [[[ld1|e] p1]|]; [| eexists; reflexivity | reflexivity].
  rewrite (processSubmission_malformed _ _ _ Hn Hm).
  destruct (forSubmissions Date_of now assignmentMap l2 ld1) as [[[ld2|e] p2]|];
    [| eexists; reflexivity | reflexivity].
  exists p1, p2. split; reflexivity.
Qed.

(** C6.  A malformed record in the list does not make the call fail:
    its iteration prints one warning and leaves the learner map
    alone, and the call completes as it does on the list without the
    record (same summaries, or same error), with that one warning
    added to what is printed. *)
Theorem malformed_submission_skipped courseInfo assignmentGroup l1 m l2 :
  nullish m = false -> malformed m = true ->
  (forall assignmentMap learnerData,
      processSubmission Date_of now assignmentMap learnerData m
      = Some (Normal learnerData, [Warn m]))
  /\ fst <$> getLearnerData Date_of now courseInfo assignmentGroup (VArr (l1 ++ m :: l2))
     = fst <$> getLearnerData Date_of now courseInfo assignmentGroup (VArr (l1 ++ l2))
  /\ (forall out printed,
        getLearnerData Date_of now courseInfo assignmentGroup (VArr (l1 ++ l2))
        = Some (Normal out, printed) ->
        exists before after,
          printed = before ++ after
          /\ getLearnerData Date_of now courseInfo assignmentGroup
               (VArr (l1 ++ m :: l2))
             = Some (Normal out, before ++ Warn m :: after)).
Proof.
  intros Hn Hm. split; [intros; apply processSubmission_malformed; assumption|].
  unfold getLearnerData, tryBlock.
  destruct (negb (String.eqb (typeof courseInfo) "object")
            || negb (String.eqb (typeof assignmentGroup) "object"));
    [split; [reflexivity | discriminate]|].
  destruct (nullish assignmentGroup || nullish courseInfo);
    [split; [reflexivity | discriminate]|].
  destruct (negb (strict_eq _ _)); [split; [reflexivity | discriminate]|].
  destruct (prop assignmentGroup "assignments");
    try (split; [reflexivity | discriminate]).
  destruct (indexAssignments elems []) as [assignmentMap|e];
    [|split; [reflexivity | discriminate]].
  pose proof (forSubmissions_malformed assignmentMap l1 m l2 [] Hn Hm) as H.
  destruct (forSubmissions Date_of now assignmentMap (l1 ++ l2) [])
    as [[[ld|e] p]|].
  - destruct H as (before & after & -> & ->). split; [reflexivity|].
    intros out printed [= <- <-]. exists before, after. split; reflexivity.
  - destruct H as [p' ->]. split; [reflexivity | discriminate].
  - rewrite H. split; [reflexivity | discriminate].
Qed.

End Malformed.

Lemma malformed_submission_skipped_witness :
  let m := VObj [("learner_id", VNum 101); ("assignment_id", VNum 1)] in
  getLearnerData isoClock Fixture.now Fixture.courseInfo Fixture.assignmentGroup
    (VArr ([Fixture.submitted 101 1 "2023-09-30" 85] ++ m
           :: [Fixture.submitted 102 1 "2023-10-02" 95]))
  = Some (Normal
      [ {| result_id := VNum 101; avg := 85 # 100; scores := [(1, 85 # 100)] |};
        {| result_id := VNum 102; avg := 850 # 1000; scores := [(1, 850 # 1000)] |} ],
      [Warn m]).
Proof.
  intros m.
  destruct (malformed_submission_skipped isoClock Fixture.now
              Fixture.courseInfo Fixture.assignmentGroup
              [Fixture.submitted 101 1 "2023-09-30" 85] m
              [Fixture.submitted 102 1 "2023-10-02" 95]
              eq_refl eq_refl) as (_ & _ & H).
  destruct (H _ [] eq_refl) as (before & after & Hp & ->).
  destruct before, after; try discriminate. reflexivity.
Defined.

(** ** Late penalty *)

Section LatePenalty.
Variable Date_of : value -> option Z.
Variable now : Z.
Variable assignmentMap : list (value * value).

Lemma penalised_late submitted due score points_possible :
  (due < submitted)%Z ->
  penalised (Some submitted) (Some due) score points_possible
  = Qmax 0 (score - (1 # 10) * points_possible).
Proof.
  intros H. unfold penalised, date_gt.
  apply Z.ltb_lt in H. rewrite H. reflexivity.
Qed.

Lemma penalised_on_time submitted due score points_possible :
  (submitted <= due)%Z ->
  penalised (Some submitted) (Some due) score points_possible = score.
Proof.
  intros H. unfold penalised, date_gt.
  apply Z.ltb_ge in H. rewrite H. reflexivity.
Qed.

(** C3.  For a submission that passes the checks of the loop, the
    score [effective] that enters the percentage and the totals is
    [max(0, raw - 0.1 * points_possible)], hence not negative, when
    the submission came strictly after the due date, and the raw
    score when it came before or exactly at the due date. *)
Theorem late_penalty learnerData submission key learner assignment
    due submitted raw points_possible :
  let learnerId := prop submission "learner_id" in
  let body := prop submission "submission" in
  nullish submission = false ->
  truthy learnerId = true -> truthy body = true ->
  prop submission "assignment_id" = VNum key -> truthy (VNum key) = true ->
  Map_get (ensureLearner learnerData learnerId) learnerId = Some learner ->
  Map_get assignmentMap (VNum key) = Some assignment -> truthy assignment = true ->
  Date_of (prop assignment "due_at") = Some due -> (due <= now)%Z ->
  prop assignment "points_possible" = VNum points_possible ->
  ~ points_possible == 0 ->
  Date_of (prop body "submitted_at") = Some submitted ->
  prop body "score" = VNum raw ->
  exists effective,
    processSubmission Date_of now assignmentMap learnerData submission
    = Some (Normal
              (Map_set (ensureLearner learnerData learnerId) learnerId
                 (keepHighest learner key (effective / points_possible)
                    effective points_possible)), [])
    /\ ((due < submitted)%Z ->
        effective = Qmax 0 (raw - (1 # 10) * points_possible) /\ 0 <= effective)
    /\ ((submitted <= due)%Z -> effective = raw).
Proof.
  intros learnerId body Hn Hl Hb Ha Hk Hlearner Hassign Ht Hdue Hpast Hpp Hnz Hsub Hraw.
  exists (penalised (Some submitted) (Some due) raw points_possible).
  split; [|split].
  - unfold processSubmission. fold learnerId body.
    rewrite Hn, Ha, Hl, Hb, Hk. simpl orb. cbv iota.
    rewrite Hlearner, Hassign, Ht, Hdue. simpl negb. cbv iota.
    unfold date_gt at 1. apply Z.ltb_ge in Hpast. rewrite Hpast.
    rewrite Hpp.
    destruct (Qeq_bool points_possible 0) eqn:E;
      [apply Qeq_bool_iff in E; contradiction|].
    rewrite Hsub, Hraw. reflexivity.
  - intros Hlate. rewrite (penalised_late _ _ _ _ Hlate).
    split; [reflexivity | apply Q.le_max_l].
  - intros Hontime. apply penalised_on_time, Hontime.
Qed.

End LatePenalty.

(** ** The learner map and its tallies *)

Lemma Map_get_ensureLearner_self learnerData learnerId :
  strict_eq learnerId learnerId = true ->
  exists learner,
    Map_get (ensureLearner learnerData learnerId) learnerId = Some learner.
Proof.
  intros H. unfold ensureLearner, Map_has.
  destruct (Map_get learnerData learnerId) eqn:E; [eauto|].
  rewrite Map_get_set_same by exact H. eauto.
Qed.

Lemma Map_get_ensureLearner_ref learnerData learnerId :
  strict_eq learnerId learnerId = false ->
  Map_get (ensureLearner learnerData learnerId) learnerId = None.
Proof.
  intros H. unfold ensureLearner, Map_has.
  assert (Hnone : forall m : list (value * Learner), Map_get m learnerId = None).
  { induction m as [|[k v] m IH]; simpl; [reflexivity|].
    destruct (strict_eq k learnerId) eqn:E; [|exact IH].
    rewrite strict_eq_sym in E. apply strict_eq_refl_of in E. congruence. }
  apply Hnone.
Qed.

Lemma tally_ensureLearner learnerData learnerId learnerId' :
  tally (ensureLearner learnerData learnerId) learnerId'
  = tally learnerData learnerId'.
Proof.
  unfold ensureLearner, Map_has, tally.
  destruct (Map_get learnerData learnerId) eqn:E; [reflexivity|].
  rewrite (Map_get_set_fresh _ _ learnerId' _ E).
  destruct (strict_eq learnerId learnerId') eqn:E'; [|reflexivity].
  rewrite <- (Map_get_congr learnerData _ _ E'), E. reflexivity.
Qed.

Lemma tally_found learnerData learnerId learner :
  Map_get learnerData learnerId = Some learner ->
  tally learnerData learnerId = view learner.
Proof. unfold tally. intros ->. reflexivity. Qed.

Lemma tally_Map_set learnerData learnerId learner learnerId' :
  strict_eq learnerId learnerId = true ->
  tally (Map_set learnerData learnerId learner) learnerId'
  = if strict_eq learnerId learnerId' then view learner
    else tally learnerData learnerId'.
Proof.
  intros H. unfold tally. rewrite (Map_get_set _ _ _ _ H).
  destruct (strict_eq learnerId learnerId'); reflexivity.
Qed.

Lemma keepHighest_ident learner key percentage score points_possible :
  learner_ident (keepHighest learner key percentage score points_possible)
  = learner_ident learner.
Proof.
  unfold keepHighest.
  destruct (scores_get (assignmentScores learner) key) as [p|]; simpl.
  - destruct (negb (negb (Qeq_bool p 0)) || Qltb p percentage); [|reflexivity].
    destruct (negb (Qeq_bool p 0)); reflexivity.
  - reflexivity.
Qed.

(** The totals and percentages [keepHighest] leaves depend on the
    totals and percentages it finds, not on the id. *)
Lemma keepHighest_view learner1 learner2 key percentage score points_possible :
  view learner1 = view learner2 ->
  view (keepHighest learner1 key percentage score points_possible)
  = view (keepHighest learner2 key percentage score points_possible).
Proof.
  destruct learner1 as [i1 ts1 tp1 as1], learner2 as [i2 ts2 tp2 as2].
  unfold view, keepHighest. simpl. intros [= -> -> ->].
  destruct (scores_get as2 key) as [p|]; simpl.
  - destruct (negb (negb (Qeq_bool p 0)) || Qltb p percentage); [|reflexivity].
    destruct (negb (Qeq_bool p 0)); reflexivity.
  - reflexivity.
Qed.

Lemma distinct_learners_Map_set learnerData k learner :
  distinct_learners learnerData ->
  strict_eq (learner_ident learner) k = true ->
  distinct_learners (Map_set learnerData k learner).
Proof.
  intros Hd Hid. induction learnerData as [|[k0 l0] rest IH]; simpl.
  - repeat split. exact Hid.
  - destruct Hd as (Hid0 & Hnone & Hrest).
    destruct (strict_eq k0 k) eqn:E; simpl.
    + repeat split; [|exact Hnone|exact Hrest].
      eapply strict_eq_trans; [exact Hid|]. rewrite strict_eq_sym. exact E.
    + repeat split; [exact Hid0| |apply IH, Hrest].
      rewrite Map_get_set_other; [exact Hnone|].
      rewrite strict_eq_sym. exact E.
Qed.

Lemma distinct_learners_ensureLearner learnerData learnerId :
  distinct_learners learnerData ->
  strict_eq learnerId learnerId = true ->
  distinct_learners (ensureLearner learnerData learnerId).
Proof.
  intros Hd Hrefl. unfold ensureLearner.
  destruct (Map_has learnerData learnerId); [exact Hd|].
  apply distinct_learners_Map_set; assumption.
Qed.

Lemma Map_get_ident learnerData k learner :
  distinct_learners learnerData ->
  Map_get learnerData k = Some learner ->
  strict_eq (learner_ident learner) k = true.
Proof.
  induction learnerData as [|[k0 l0] rest IH]; simpl; [discriminate|].
  intros (Hid0 & _ & Hrest).
  destruct (strict_eq k0 k) eqn:E; [|apply IH, Hrest].
  intros [= <-]. eapply strict_eq_trans; eassumption.
Qed.

Lemma Map_get_In learnerData k learner :
  distinct_learners learnerData ->
  In (k, learner) learnerData ->
  Map_get learnerData k = Some learner.
Proof.
  induction learnerData as [|[k0 l0] rest IH]; simpl; [tauto|].
  intros (Hid0 & Hnone & Hrest) [[= -> ->]|Hin].
  - rewrite strict_eq_sym in Hid0. rewrite (strict_eq_refl_of _ _ Hid0). reflexivity.
  - specialize (IH Hrest Hin).
    destruct (strict_eq k0 k) eqn:E; [|exact IH].
    rewrite (Map_get_congr rest _ _ E), IH in Hnone. discriminate.
Qed.

Lemma summaries_of_assemble learnerData learnerId :
  distinct_learners learnerData ->
  summaries_of learnerId (assemble learnerData)
  = summary_of_tally (tally learnerData learnerId).
Proof.
  unfold summaries_of, tally.
  induction learnerData as [|[k0 l0] rest IH]; simpl; [reflexivity|].
  intros (Hid0 & Hnone & Hrest). specialize (IH Hrest).
  assert (Hkey : strict_eq (learner_ident l0) learnerId = strict_eq k0 learnerId)
    by (apply strict_eq_congr, Hid0).
  destruct (strict_eq k0 learnerId) eqn:E.
  - rewrite <- (Map_get_congr rest _ _ E), Hnone in IH. simpl in IH.
    unfold view. simpl.
    destruct (Qeq_bool (totalPossible l0) 0); [exact IH|].
    simpl. rewrite Hkey. simpl. rewrite IH. reflexivity.
  - destruct (Qeq_bool (totalPossible l0) 0); [exact IH|].
    simpl. rewrite Hkey. exact IH.
Qed.

Lemma same_tallies_summaries ld1 ld2 learnerId :
  distinct_learners ld1 -> distinct_learners ld2 -> same_tallies ld1 ld2 ->
  summaries_of learnerId (assemble ld1) = summaries_of learnerId (assemble ld2).
Proof.
  intros H1 H2 Hsame. rewrite !summaries_of_assemble by assumption.
  rewrite Hsame. reflexivity.
Qed.

Lemma assemble_In learnerData r :
  In r (assemble learnerData) ->
  exists k learner,
    In (k, learner) learnerData
    /\ result_id r = learner_ident learner
    /\ avg r = totalScore learner / totalPossible learner
    /\ scores r = assignmentScores learner
    /\ ~ totalPossible learner == 0.
Proof.
  induction learnerData as [|[k0 l0] rest IH]; simpl; [tauto|].
  destruct (Qeq_bool (totalPossible l0) 0) eqn:E.
  - intros Hin. destruct (IH Hin) as (k & l & H & Hr). exists k, l. tauto.
  - intros [<-|Hin].
    + exists k0, l0. simpl. repeat split; auto.
      intros Hz. apply Qeq_bool_iff in Hz. congruence.
    + destruct (IH Hin) as (k & l & H & Hr). exists k, l. tauto.
Qed.

Lemma scores_get_set_other o k k' p :
  Qeq_bool k k' = false ->
  scores_get (scores_set o k p) k' = scores_get o k'.
Proof.
  intros H. induction o as [|[k0 p0] o IH]; simpl.
  - rewrite H. reflexivity.
  - destruct (Qeq_bool k0 k) eqn:E; simpl.
    + destruct (Qeq_bool k0 k') eqn:E'; [|reflexivity].
      rewrite Qeq_bool_sym in E.
      rewrite (Qeq_bool_trans_true _ _ _ E E') in H. discriminate.
    + rewrite IH. reflexivity.
Qed.

Lemma keepHighest_scores_other learner k k' percentage score points_possible :
  Qeq_bool k k' = false ->
  scores_get (assignmentScores (keepHighest learner k percentage score points_possible)) k'
  = scores_get (assignmentScores learner) k'.
Proof.
  intros H. unfold keepHighest.
  destruct (scores_get (assignmentScores learner) k) as [p|]; simpl.
  - destruct (negb (negb (Qeq_bool p 0)) || Qltb p percentage); [|reflexivity].
    simpl. rewrite scores_get_set_other by exact H.
    destruct (negb (Qeq_bool p 0)); reflexivity.
  - apply scores_get_set_other, H.
Qed.

(** ** The loop, submission by submission *)

Section LoopFacts.
Variable Date_of : value -> option Z.
Variable now : Z.
Variable assignmentMap : list (value * value).

Abbreviation classify := (classify Date_of now assignmentMap).
Abbreviation counted := (counted Date_of now assignmentMap).
Abbreviation processSubmission := (processSubmission Date_of now assignmentMap).
Abbreviation forSubmissions := (forSubmissions Date_of now assignmentMap).

(** The loop body does what [classify] says. *)
Lemma processSubmission_classify learnerData submission :
  processSubmission learnerData submission
  = match classify submission with
    | Some (Throw e) => Some (Throw e, [])
    | Some (Normal Warned) => Some (Normal learnerData, [Warn submission])
    | Some (Normal Skipped) =>
        Some (Normal (ensureLearner learnerData (prop submission "learner_id")), [])
    | Some (Normal (Scored key score points_possible)) =>
        let learnerId := prop submission "learner_id" in
        match Map_get (ensureLearner learnerData learnerId) learnerId with
        | Some learner =>
            Some (Normal
                    (Map_set (ensureLearner learnerData learnerId) learnerId
                       (keepHighest learner key (score / points_possible)
                          score points_possible)), [])
        | None => None
        end
    | None => None
    end.
Proof.
  unfold processSubmission, classify, malformed, notYetDue.
  destruct (nullish submission); [reflexivity|].
  destruct (negb (truthy (prop submission "learner_id"))
            || negb (truthy (prop submission "assignment_id"))
            || negb (truthy (prop submission "submission"))); [reflexivity|].
  destruct (strict_eq (prop submission "learner_id") (prop submission "learner_id"))
    eqn:Hrefl; simpl negb; cbv iota.
  2:{ rewrite Map_get_ensureLearner_ref by exact Hrefl. reflexivity. }
  destruct (Map_get_ensureLearner_self learnerData _ Hrefl) as [learner Hl].
  rewrite Hl.
  destruct (Map_get assignmentMap (prop submission "assignment_id")) as [assignment|];
    [|reflexivity].
  destruct (truthy assignment); simpl negb; simpl orb; cbv iota; [|reflexivity].
  destruct (date_gt (Date_of (prop assignment "due_at")) (Some now)); [reflexivity|].
  destruct (prop assignment "points_possible"); try reflexivity.
  destruct (Qeq_bool x 0); [reflexivity|].
  destruct (prop (prop submission "submission") "score"); try reflexivity.
  destruct (prop submission "assignment_id"); reflexivity.
Qed.

(** *** Tallies *)

(** A submission that is not counted leaves every tally as it was. *)
Lemma uncounted_inert learnerData submission learnerData' printed :
  counted submission = false ->
  processSubmission learnerData submission = Some (Normal learnerData', printed) ->
  same_tallies learnerData learnerData'.
Proof.
  unfold counted. rewrite processSubmission_classify.
  destruct (classify submission) as [[[| |key score pp]|e]|]; try discriminate.
  - intros _ [= <- _] learnerId. reflexivity.
  - intros _ [= <- _] learnerId. rewrite tally_ensureLearner. reflexivity.
Qed.

(** Related learner maps stay related when the same submission is
    processed in both. *)
Lemma processSubmission_same_tallies ld1 ld2 submission ld1' printed :
  same_tallies ld1 ld2 ->
  processSubmission ld1 submission = Some (Normal ld1', printed) ->
  exists ld2',
    processSubmission ld2 submission = Some (Normal ld2', printed)
    /\ same_tallies ld1' ld2'.
Proof.
  intros Hsame. rewrite !processSubmission_classify.
  destruct (classify submission) as [[[| |key score pp]|e]|]; try discriminate.
  - intros [= <- <-]. eauto.
  - intros [= <- <-]. eexists. split; [reflexivity|].
    intros learnerId. rewrite !tally_ensureLearner. apply Hsame.
  - cbv zeta. set (learnerId := prop submission "learner_id").
    destruct (Map_get (ensureLearner ld1 learnerId) learnerId) as [l1|] eqn:E1;
      [|discriminate].
    intros [= <- <-].
    assert (Hrefl : strict_eq learnerId learnerId = true).
    { destruct (strict_eq learnerId learnerId) eqn:E; [reflexivity|].
      rewrite Map_get_ensureLearner_ref in E1 by exact E. discriminate. }
    destruct (Map_get_ensureLearner_self ld2 _ Hrefl) as [l2 E2].
    rewrite E2. eexists. split; [reflexivity|].
    assert (Hview : view l1 = view l2).
    { rewrite <- (tally_found _ _ _ E1), <- (tally_found _ _ _ E2).
      rewrite !tally_ensureLearner. apply Hsame. }
    intros learnerId'. rewrite !tally_Map_set by exact Hrefl.
    destruct (strict_eq learnerId learnerId').
    + apply keepHighest_view, Hview.
    + rewrite !tally_ensureLearner. apply Hsame.
Qed.

(** Dropping submissions that are not counted changes no tally. *)
Lemma forSubmissions_without (keep : value -> bool) submissions :
  (forall s, In s submissions -> keep s = false -> counted s = false) ->
  forall ld1 ld2 ld1' printed,
    same_tallies ld1 ld2 ->
    forSubmissions submissions ld1 = Some (Normal ld1', printed) ->
    exists ld2' printed',
      forSubmissions (List.filter keep submissions) ld2 = Some (Normal ld2', printed')
      /\ same_tallies ld1' ld2'.
Proof.
  induction submissions as [|s rest IH]; intros Hdrop ld1 ld2 ld1' printed Hsame; simpl.
  - intros [= <- <-]. eauto.
  - destruct (processSubmission ld1 s) as [[[ld1s|e] p]|] eqn:E; try discriminate.
    destruct (forSubmissions rest ld1s) as [[c p']|] eqn:E'; [|discriminate].
    intros [= -> <-].
    assert (Hrest : forall s', In s' rest -> keep s' = false -> counted s' = false)
      by (intros s' Hin; apply Hdrop; right; exact Hin).
    destruct (keep s) eqn:Hk.
    + destruct (processSubmission_same_tallies _ _ _ _ _ Hsame E) as (ld2s & E2 & Hs).
      destruct (IH Hrest _ _ _ _ Hs E') as (ld2' & p2 & E2' & Hs').
      simpl. rewrite E2, E2'. eauto.
    + apply (IH Hrest ld1s ld2 ld1' p'); [|exact E'].
      intros learnerId. rewrite <- Hsame. symmetry.
      eapply uncounted_inert; [|exact E]. apply Hdrop; [left; reflexivity | exact Hk].
Qed.

(** *** The learner map stays a map *)

Lemma processSubmission_distinct learnerData submission learnerData' printed :
  distinct_learners learnerData ->
  processSubmission learnerData submission = Some (Normal learnerData', printed) ->
  distinct_learners learnerData'.
Proof.
  intros Hd. rewrite processSubmission_classify. unfold classify.
  destruct (nullish submission); [discriminate|].
  destruct (malformed submission); [intros [= <- _]; exact Hd|].
  set (learnerId := prop submission "learner_id").
  destruct (strict_eq learnerId learnerId) eqn:Hrefl; simpl negb; cbv iota;
    [|discriminate].
  pose proof (distinct_learners_ensureLearner _ _ Hd Hrefl) as Hd'.
  assert (Hscored : forall key score pp,
    match Map_get (ensureLearner learnerData learnerId) learnerId with
    | Some learner =>
        Some (Normal
                (Map_set (ensureLearner learnerData learnerId) learnerId
                   (keepHighest learner key (score / pp) score pp)),
              @nil diagnostic)
    | None => None
    end = Some (Normal learnerData', printed) ->
    distinct_learners learnerData').
  { intros key score pp.
    destruct (Map_get (ensureLearner learnerData learnerId) learnerId)
      as [learner|] eqn:E; [|discriminate].
    intros [= <- _]. apply distinct_learners_Map_set; [exact Hd'|].
    rewrite keepHighest_ident. eapply Map_get_ident; eassumption. }
  destruct (Map_get assignmentMap (prop submission "assignment_id")) as [a|];
    [|intros [= <- _]; exact Hd'].
  destruct (negb (truthy a) || notYetDue Date_of now a); [intros [= <- _]; exact Hd'|].
  destruct (prop a "points_possible"); try discriminate.
  destruct (Qeq_bool x 0); [intros [= <- _]; exact Hd'|].
  destruct (prop (prop submission "submission") "score"); try discriminate.
  destruct (prop submission "assignment_id"); try discriminate.
  apply Hscored.
Qed.

Lemma forSubmissions_distinct submissions learnerData learnerData' printed :
  distinct_learners learnerData ->
  forSubmissions submissions learnerData = Some (Normal learnerData', printed) ->
  distinct_learners learnerData'.
Proof.
  revert learnerData printed.
  induction submissions as [|s rest IH]; simpl; intros learnerData printed Hd.
  - intros [= <- _]. exact Hd.
  - destruct (processSubmission learnerData s) as [[[ld1|e] p]|] eqn:E;
      try discriminate.
    destruct (forSubmissions rest ld1) as [[c p']|] eqn:E'; [|discriminate].
    intros [= -> _]. eapply IH; [|exact E'].
    eapply processSubmission_distinct; eassumption.
Qed.

(** *** Submissions that are skipped *)

Lemma classify_Scored submission key score points_possible :
  classify submission = Some (Normal (Scored key score points_possible)) ->
  exists assignment,
    prop submission "assignment_id" = VNum key
    /\ Map_get assignmentMap (VNum key) = Some assignment
    /\ notYetDue Date_of now assignment = false
    /\ prop assignment "points_possible" = VNum points_possible
    /\ ~ points_possible == 0.
Proof.
  unfold classify.
  destruct (nullish submission); [discriminate|].
  destruct (malformed submission); [discriminate|].
  destruct (negb (strict_eq _ _)); [discriminate|].
  destruct (Map_get assignmentMap (prop submission "assignment_id")) as [a|] eqn:Ea;
    [|discriminate].
  destruct (truthy a); simpl negb; simpl orb; cbv iota; [|discriminate].
  destruct (notYetDue Date_of now a) eqn:Ed; [discriminate|].
  destruct (prop a "points_possible") eqn:Ep; try discriminate.
  destruct (Qeq_bool x 0) eqn:Ez; [discriminate|].
  destruct (prop (prop submission "submission") "score"); try discriminate.
  destruct (prop submission "assignment_id") eqn:Ek; try discriminate.
  intros [= <- _ <-]. exists a. repeat split; auto.
  intros Hz. apply Qeq_bool_iff in Hz. congruence.
Qed.

Lemma refersToFuture_uncounted submission :
  refersToFuture Date_of now assignmentMap submission = true ->
  counted submission = false.
Proof.
  unfold refersToFuture, counted. intros H.
  destruct (classify submission) as [[[| |key score pp]|e]|] eqn:E; try reflexivity.
  apply classify_Scored in E as (a & Hk & Ha & Hd & _).
  rewrite Hk, Ha, Hd in H. discriminate.
Qed.

Lemma zero_points_uncounted key assignment points_possible submission :
  Map_get assignmentMap key = Some assignment ->
  prop assignment "points_possible" = VNum points_possible ->
  points_possible == 0 ->
  refersTo key submission = true ->
  counted submission = false.
Proof.
  unfold refersTo, counted. intros Ha Hp Hz H.
  destruct (classify submission) as [[[| |k score pp]|e]|] eqn:E; try reflexivity.
  apply classify_Scored in E as (a & Hk & Ha' & _ & Hp' & Hnz).
  rewrite Hk in H. rewrite (Map_get_congr _ _ _ H), Ha in Ha'.
  injection Ha' as <-. rewrite Hp in Hp'. injection Hp' as <-. contradiction.
Qed.

(** A submission of one learner leaves the tallies of the others. *)
Lemma processSubmission_tally_other learnerData submission learnerData' printed
    learnerId :
  strict_eq (prop submission "learner_id") learnerId = false ->
  processSubmission learnerData submission = Some (Normal learnerData', printed) ->
  tally learnerData' learnerId = tally learnerData learnerId.
Proof.
  intros Hother. rewrite processSubmission_classify.
  destruct (classify submission) as [[[| |key score pp]|e]|]; try discriminate.
  - intros [= <- _]. reflexivity.
  - intros [= <- _]. apply tally_ensureLearner.
  - cbv zeta.
    destruct (Map_get (ensureLearner learnerData (prop submission "learner_id"))
                (prop submission "learner_id")) as [l|] eqn:E; [|discriminate].
    intros [= <- _]. unfold tally at 1.
    rewrite Map_get_set_other by exact Hother.
    apply tally_ensureLearner.
Qed.

(** A learner none of whose submissions is counted keeps an empty
    tally. *)
Lemma forSubmissions_uncounted_learner learnerId submissions :
  (forall s, In s submissions ->
             strict_eq (prop s "learner_id") learnerId = true -> counted s = false) ->
  forall learnerData learnerData' printed,
    forSubmissions submissions learnerData = Some (Normal learnerData', printed) ->
    tally learnerData' learnerId = tally learnerData learnerId.
Proof.
  induction submissions as [|s rest IH]; simpl; intros Hall learnerData learnerData' printed.
  - intros [= <- _]. reflexivity.
  - destruct (processSubmission learnerData s) as [[[ld1|e] p]|] eqn:E;
      try discriminate.
    destruct (forSubmissions rest ld1) as [[c p']|] eqn:E'; [|discriminate].
    intros [= -> _].
    rewrite (IH (fun s' Hin => Hall s' (or_intror Hin)) _ _ _ E').
    destruct (strict_eq (prop s "learner_id") learnerId) eqn:Hl.
    + symmetry. eapply uncounted_inert; [|exact E].
      apply Hall; [left; reflexivity | exact Hl].
    + eapply processSubmission_tally_other; eassumption.
Qed.

(** *** Percentages are recorded under counted assignments only *)

Lemma processSubmission_unrecorded key assignment points_possible
    learnerData submission learnerData' printed :
  Map_get assignmentMap (VNum key) = Some assignment ->
  prop assignment "points_possible" = VNum points_possible ->
  points_possible == 0 ->
  unrecorded key learnerData ->
  processSubmission learnerData submission = Some (Normal learnerData', printed) ->
  unrecorded key learnerData'.
Proof.
  intros Ha Hp Hz Hun. rewrite processSubmission_classify.
  destruct (classify submission) as [[[| |k score pp]|e]|] eqn:E; try discriminate.
  - intros [= <- _]. exact Hun.
  - intros [= <- _] learnerId. rewrite tally_ensureLearner. apply Hun.
  - cbv zeta. set (learnerId := prop submission "learner_id").
    destruct (Map_get (ensureLearner learnerData learnerId) learnerId) as [l|] eqn:El;
      [|discriminate].
    intros [= <- _] learnerId'.
    assert (Hrefl : strict_eq learnerId learnerId = true).
    { destruct (strict_eq learnerId learnerId) eqn:Er; [reflexivity|].
      rewrite Map_get_ensureLearner_ref in El by exact Er. discriminate. }
    rewrite tally_Map_set by exact Hrefl.
    destruct (strict_eq learnerId learnerId');
      [|rewrite tally_ensureLearner; apply Hun].
    unfold view. simpl.
    assert (Hk : Qeq_bool k key = false).
    { destruct (Qeq_bool k key) eqn:Ek; [|reflexivity].
      assert (Hc : counted submission = false).
      { apply (zero_points_uncounted (VNum key) assignment points_possible); auto.
        apply classify_Scored in E as (a & Hid & _). unfold refersTo.
        rewrite Hid. exact Ek. }
      unfold counted in Hc. rewrite E in Hc. discriminate. }
    rewrite keepHighest_scores_other by exact Hk.
    pose proof (Hun learnerId) as H0.
    rewrite <- (tally_ensureLearner _ learnerId), (tally_found _ _ _ El) in H0.
    exact H0.
Qed.

End LoopFacts.

(** ** Skipped submissions at the level of the call *)

Section Skips.
Variable Date_of : value -> option Z.
Variable now : Z.

(** Once a call has got through validation and indexing, every call
    with the same course and group is a run of the loop followed by
    the assembly. *)
Lemma getLearnerData_loop courseInfo assignmentGroup assignments assignmentMap
    submissions0 out0 printed0 :
  prop assignmentGroup "assignments" = VArr assignments ->
  indexAssignments assignments [] = Normal assignmentMap ->
  getLearnerData Date_of now courseInfo assignmentGroup (VArr submissions0)
    = Some (Normal out0, printed0) ->
  forall submissions,
    getLearnerData Date_of now courseInfo assignmentGroup (VArr submissions)
    = match forSubmissions Date_of now assignmentMap submissions [] with
      | Some (Normal learnerData, printed) =>
          Some (Normal (assemble learnerData), printed)
      | Some (Throw e, printed) => Some (Throw e, printed ++ [ErrorLog e])
      | None => None
      end.
Proof.
  intros Hassign Hindex H submissions. revert H.
  unfold getLearnerData, tryBlock. rewrite Hassign, Hindex.
  destruct (negb (String.eqb (typeof courseInfo) "object")
            || negb (String.eqb (typeof assignmentGroup) "object"));
    [discriminate|].
  destruct (nullish assignmentGroup || nullish courseInfo); [discriminate|].
  destruct (negb (strict_eq _ _)); [discriminate|].
  intros _.
  destruct (forSubmissions Date_of now assignmentMap submissions [])
    as [[[ld|e] p]|]; reflexivity.
Qed.

(** The common part of C5 and C9: dropping submissions that are not
    counted from the input changes no tally and no summary. *)
Lemma drop_uncounted (keep : value -> bool) courseInfo assignmentGroup
    assignments assignmentMap submissions out printed :
  prop assignmentGroup "assignments" = VArr assignments ->
  indexAssignments assignments [] = Normal assignmentMap ->
  (forall s, In s submissions -> keep s = false ->
             counted Date_of now assignmentMap s = false) ->
  getLearnerData Date_of now courseInfo assignmentGroup (VArr submissions)
    = Some (Normal out, printed) ->
  exists learnerData learnerData' printed',
    forSubmissions Date_of now assignmentMap submissions []
      = Some (Normal learnerData, printed)
    /\ out = assemble learnerData
    /\ forSubmissions Date_of now assignmentMap (List.filter keep submissions) []
       = Some (Normal learnerData', printed')
    /\ same_tallies learnerData learnerData'
    /\ getLearnerData Date_of now courseInfo assignmentGroup
         (VArr (List.filter keep submissions))
       = Some (Normal (assemble learnerData'), printed')
    /\ (forall learnerId,
          summaries_of learnerId (assemble learnerData')
          = summaries_of learnerId out).
Proof.
  intros Hassign Hindex Hdrop H.
  pose proof (getLearnerData_loop _ _ _ _ _ _ _ Hassign Hindex H) as Hloop.
  rewrite Hloop in H.
  destruct (forSubmissions Date_of now assignmentMap submissions [])
    as [[[ld|e] p]|] eqn:E; try discriminate.
  injection H as <- <-.
  destruct (forSubmissions_without Date_of now assignmentMap keep submissions Hdrop
              [] [] ld p (fun _ => eq_refl) E) as (ld' & p' & E' & Hsame).
  exists ld, ld', p'. rewrite Hloop, E'.
  repeat split; auto.
  intros learnerId. symmetry.
  apply same_tallies_summaries; auto;
    eapply forSubmissions_distinct; try eassumption; exact I.
Qed.

(** C5.  For an assignment found in the index with zero points
    possible: no summary of a call that returns has a percentage
    under its id, the same call without the submissions that refer to
    it returns too, with the same totals for every learner and the
    same [avg] and percentages in every learner's summary, and every
    division [score / points_possible] the loop performs has a
    divisor other than zero. *)
Theorem zero_points_excluded courseInfo assignmentGroup assignments assignmentMap
    submissions key assignment points_possible out printed :
  prop assignmentGroup "assignments" = VArr assignments ->
  indexAssignments assignments [] = Normal assignmentMap ->
  Map_get assignmentMap (VNum key) = Some assignment ->
  prop assignment "points_possible" = VNum points_possible ->
  points_possible == 0 ->
  getLearnerData Date_of now courseInfo assignmentGroup (VArr submissions)
    = Some (Normal out, printed) ->
  let others := List.filter (fun s => negb (refersTo (VNum key) s)) submissions in
  (forall r, In r out -> scores_get (scores r) key = None)
  /\ (exists learnerData learnerData' printed',
        forSubmissions Date_of now assignmentMap submissions []
          = Some (Normal learnerData, printed)
        /\ out = assemble learnerData
        /\ forSubmissions Date_of now assignmentMap others []
           = Some (Normal learnerData', printed')
        /\ same_tallies learnerData learnerData'
        /\ getLearnerData Date_of now courseInfo assignmentGroup (VArr others)
           = Some (Normal (assemble learnerData'), printed')
        /\ (forall learnerId,
              summaries_of learnerId (assemble learnerData')
              = summaries_of learnerId out))
  /\ (forall learnerData submission learnerData' printed',
        processSubmission Date_of now assignmentMap learnerData submission
          = Some (Normal learnerData', printed') ->
        same_tallies learnerData learnerData'
        \/ exists learner k score divisor,
             ~ divisor == 0
             /\ learnerData'
                = Map_set (ensureLearner learnerData (prop submission "learner_id"))
                    (prop submission "learner_id")
                    (keepHighest learner k (score / divisor) score divisor)).
Proof.
  intros Hassign Hindex Ha Hp Hz H others.
  assert (Hdrop : forall s, In s submissions ->
            negb (refersTo (VNum key) s) = false ->
            counted Date_of now assignmentMap s = false).
  { intros s _ Hs. apply negb_false_iff in Hs.
    eapply zero_points_uncounted; eassumption. }
  destruct (drop_uncounted _ _ _ _ _ _ _ _ Hassign Hindex Hdrop H)
    as (ld & ld' & p' & E & -> & E' & Hsame & Hcall & Hsum).
  split; [|split].
  - intros r Hin.
    assert (Hun : unrecorded key ld).
    { clear - E Ha Hp Hz.
      assert (Hgen : forall subs ld0 ld1 p,
                unrecorded key ld0 ->
                forSubmissions Date_of now assignmentMap subs ld0
                  = Some (Normal ld1, p) ->
                unrecorded key ld1).
      { induction subs as [|s rest IH]; simpl; intros ld0 ld1 p Hun.
        - intros [= <- _]. exact Hun.
        - destruct (processSubmission Date_of now assignmentMap ld0 s)
            as [[[lds|e] ps]|] eqn:Es; try discriminate.
          destruct (forSubmissions Date_of now assignmentMap rest lds)
            as [[c pr]|] eqn:Er; [|discriminate].
          intros [= -> _]. eapply IH; [|exact Er].
          eapply processSubmission_unrecorded; eassumption. }
      eapply Hgen; [|exact E]. intros learnerId. reflexivity. }
    apply assemble_In in Hin as (k & l & Hin & _ & _ & -> & _).
    assert (Hd : distinct_learners ld)
      by (eapply forSubmissions_distinct; [|exact E]; exact I).
    pose proof (Map_get_In _ _ _ Hd Hin) as Hget.
    specialize (Hun k). rewrite (tally_found _ _ _ Hget) in Hun. exact Hun.
  - exists ld, ld', p'. repeat split; auto.
  - intros ld0 s ld1 p1. rewrite processSubmission_classify.
    destruct (classify Date_of now assignmentMap s)
      as [[[| |k score pp]|e]|] eqn:Ec; try discriminate.
    + intros [= <- _]. left. intros learnerId. reflexivity.
    + intros [= <- _]. left. intros learnerId.
      rewrite tally_ensureLearner. reflexivity.
    + cbv zeta.
      destruct (Map_get (ensureLearner ld0 (prop s "learner_id")) (prop s "learner_id"))
        as [l|]; [|discriminate].
      intros [= <- _]. right. exists l, k, score, pp.
      apply classify_Scored in Ec as (a & _ & _ & _ & _ & Hnz). split; auto.
Qed.

(** C9.  A submission that refers to an assignment due strictly after
    the clock instant is not counted, and the call without such
    submissions returns the same totals, [avg] and percentages for
    every learner; a learner none of whose submissions is counted has
    no summary in the output. *)
Theorem not_yet_due_skipped courseInfo assignmentGroup assignments assignmentMap
    submissions out printed :
  prop assignmentGroup "assignments" = VArr assignments ->
  indexAssignments assignments [] = Normal assignmentMap ->
  getLearnerData Date_of now courseInfo assignmentGroup (VArr submissions)
    = Some (Normal out, printed) ->
  let future := refersToFuture Date_of now assignmentMap in
  let due := List.filter (fun s => negb (future s)) submissions in
  (forall s, future s = true -> counted Date_of now assignmentMap s = false)
  /\ (exists learnerData learnerData' printed',
        forSubmissions Date_of now assignmentMap submissions []
          = Some (Normal learnerData, printed)
        /\ out = assemble learnerData
        /\ forSubmissions Date_of now assignmentMap due []
           = Some (Normal learnerData', printed')
        /\ same_tallies learnerData learnerData'
        /\ getLearnerData Date_of now courseInfo assignmentGroup (VArr due)
           = Some (Normal (assemble learnerData'), printed')
        /\ (forall learnerId,
              summaries_of learnerId (assemble learnerData')
              = summaries_of learnerId out))
  /\ (forall learnerId,
        (forall s, In s submissions ->
                   strict_eq (prop s "learner_id") learnerId = true ->
                   counted Date_of now assignmentMap s = false) ->
        forall r, In r out -> strict_eq (result_id r) learnerId = false).
Proof.
  intros Hassign Hindex H future due.
  assert (Hdrop : forall s, In s submissions -> negb (future s) = false ->
            counted Date_of now assignmentMap s = false).
  { intros s _ Hs. apply negb_false_iff in Hs.
    apply refersToFuture_uncounted, Hs. }
  destruct (drop_uncounted _ _ _ _ _ _ _ _ Hassign Hindex Hdrop H)
    as (ld & ld' & p' & E & -> & E' & Hsame & Hcall & Hsum).
  split; [|split].
  - intros s. apply refersToFuture_uncounted.
  - exists ld, ld', p'. repeat split; auto.
  - intros learnerId Hall r Hin.
    pose proof (forSubmissions_uncounted_learner Date_of now assignmentMap
                  learnerId submissions Hall [] ld printed E) as Ht.
    assert (Hd : distinct_learners ld)
      by (eapply forSubmissions_distinct; [|exact E]; exact I).
    pose proof (summaries_of_assemble ld learnerId Hd) as Hs.
    rewrite Ht in Hs. unfold summaries_of in Hs. simpl in Hs.
    destruct (strict_eq (result_id r) learnerId) eqn:Er; [|reflexivity].
    assert (Hf : In r (List.filter (fun r => strict_eq (result_id r) learnerId)
                         (assemble ld)))
      by (apply filter_In; split; assumption).
    apply (in_map (fun r => (avg r, scores r))) in Hf.
    rewrite Hs in Hf. destruct Hf.
Qed.

End Skips.

(** ** Duplicate resolution *)

Section KeepHighest.
Variables (learner : Learner) (key percentage score points_possible : Q).

(** First percentage for the assignment: recorded, and the totals
    grow by the score and the points possible. *)
Lemma keepHighest_first :
  scores_get (assignmentScores learner) key = None ->
  view (keepHighest learner key percentage score points_possible)
  = (totalScore learner + score, totalPossible learner + points_possible,
     scores_set (assignmentScores learner) key percentage).
Proof. unfold keepHighest, view. intros ->. reflexivity. Qed.


(** A recorded percentage other than zero is replaced by a greater
    one; its contribution leaves the totals first. *)
Lemma keepHighest_replaces recorded :
  scores_get (assignmentScores learner) key = Some recorded ->
  ~ recorded == 0 -> recorded < percentage ->
  view (keepHighest learner key percentage score points_possible)
  = (totalScore learner - recorded * points_possible + score,
     totalPossible learner - points_possible + points_possible,
     scores_set (assignmentScores learner) key percentage).
Proof.
  unfold keepHighest, view. intros -> Hnz Hlt. simpl.
  destruct (Qeq_bool recorded 0) eqn:E; [apply Qeq_bool_iff in E; contradiction|].
  unfold Qltb. destruct (Qle_bool percentage recorded) eqn:E'.
  - apply Qle_bool_iff in E'. lra.
  - reflexivity.
Qed.

(** A recorded percentage of zero is falsy: it is treated as no
    record at all, and nothing leaves the totals. *)
Lemma keepHighest_zero_recorded recorded :
  scores_get (assignmentScores learner) key = Some recorded ->
  recorded == 0 ->
  view (keepHighest learner key percentage score points_possible)
  = (totalScore learner + score, totalPossible learner + points_possible,
     scores_set (assignmentScores learner) key percentage).
Proof.
  unfold keepHighest, view. intros -> Hz. simpl.
  apply Qeq_bool_iff in Hz. rewrite Hz. reflexivity.
Qed.
End KeepHighest.

(** The percentage recorded after a submission is the greater of the
    recorded one and the new one, as long as percentages are not
    negative. *)
Lemma keepHighest_records_max learner key percentage score points_possible :
  0 <= percentage ->
  (forall r, scores_get (assignmentScores learner) key = Some r -> 0 <= r) ->
  exists recorded,
    scores_get
      (assignmentScores (keepHighest learner key percentage score points_possible)) key
    = Some recorded
    /\ recorded
       == match scores_get (assignmentScores learner) key with
          | Some r => Qmax r percentage
          | None => percentage
          end.
Proof.
  intros Hpos Hrec. unfold keepHighest.
  assert (Hset : forall o, scores_get (scores_set o key percentage) key = Some percentage).
  { induction o as [|[k0 p0] o IH]; simpl.
    - rewrite (proj2 (Qeq_bool_iff key key)) by reflexivity. reflexivity.
    - destruct (Qeq_bool k0 key) eqn:E; simpl; rewrite E; auto. }
  destruct (scores_get (assignmentScores learner) key) as [r|] eqn:E; simpl.
  - specialize (Hrec r eq_refl). unfold Qltb.
    destruct (Qeq_bool r 0) eqn:Ez; simpl.
    + apply Qeq_bool_iff in Ez. exists percentage. split; [apply Hset|].
      rewrite Q.max_r; [reflexivity | lra].
    + destruct (Qle_bool percentage r) eqn:El; simpl.
      * exists r. split; [exact E|]. apply Qle_bool_iff in El.
        rewrite Q.max_l; [reflexivity | exact El].
      * exists percentage. split; [apply Hset|].
        assert (r < percentage).
        { apply Qnot_le_lt. intros H. apply Qle_bool_iff in H. congruence. }
        rewrite Q.max_r; [reflexivity | lra].
  - exists percentage. split; [apply Hset | reflexivity].
Qed.

(** ** The totals when no percentage is zero

    The totals are the ones recomputed from the recorded percentages
    as long as no counted submission has a score of zero. *)

Section Accounted.
Variable Date_of : value -> option Z.
Variable now : Z.
Variable assignmentMap : list (value * value).

Lemma pointsOf_congr k k' :
  Qeq_bool k k' = true -> pointsOf assignmentMap k = pointsOf assignmentMap k'.
Proof.
  intros H. unfold pointsOf.
  rewrite (Map_get_congr assignmentMap (VNum k) (VNum k') H). reflexivity.
Qed.

Lemma recomputed_set o k p :
  recomputedScore assignmentMap (scores_set o k p)
  == recomputedScore assignmentMap o
     - match scores_get o k with Some p0 => p0 | None => 0 end
       * pointsOf assignmentMap k
     + p * pointsOf assignmentMap k
  /\ recomputedPossible assignmentMap (scores_set o k p)
     == recomputedPossible assignmentMap o
        + match scores_get o k with Some _ => 0 | None => pointsOf assignmentMap k end.
Proof.
  induction o as [|[k0 p0] o [IHs IHp]]; simpl.
  - split; ring.
  - destruct (Qeq_bool k0 k) eqn:E; simpl.
    + rewrite (pointsOf_congr _ _ E). split; ring.
    + rewrite IHs, IHp. split; ring.
Qed.




Lemma Forall_Map_set (P : Learner -> Prop) learnerData k learner :
  Forall (fun e => P e.2) learnerData -> P learner ->
  Forall (fun e => P e.2) (Map_set learnerData k learner).
Proof.
  intros Hall Hl. induction Hall as [|[k0 l0] rest H0 Hrest IH]; simpl.
  - constructor; [exact Hl | constructor].
  - destruct (strict_eq k0 k); constructor; auto.
Qed.

Lemma Forall_Map_get (P : Learner -> Prop) learnerData k learner :
  Forall (fun e => P e.2) learnerData ->
  Map_get learnerData k = Some learner -> P learner.
Proof.
  intros Hall. induction Hall as [|[k0 l0] rest H0 Hrest IH]; simpl; [discriminate|].
  destruct (strict_eq k0 k); [intros [= <-]; exact H0 | exact IH].
Qed.




End Accounted.

(** C1, at a learner who scores 0 and then 50 out of 100 on the same
    assignment.  The recorded percentage is the greater one, but the
    points possible of the assignment are in the total twice. *)
Theorem resubmission_after_zero_counts_points_twice :
  forSubmissions isoClock Fixture.now Fixture.assignmentMap Scenario.resubmitted []
  = Some (Normal
      [(VNum 101,
        {| learner_ident := VNum 101; totalScore := 50; totalPossible := 200;
           assignmentScores := [(1, 50 # 100)] |})], []).
Proof. vm_compute. reflexivity. Qed.

(** C2, on the same input.  The summary's [avg] is a quarter, while the
    best score of the only counted assignment is 50 out of 100. *)
Theorem average_after_zero_is_not_the_recomputed_one :
  exists r,
    getLearnerData isoClock Fixture.now Fixture.courseInfo Fixture.assignmentGroup
      (VArr Scenario.resubmitted) = Some (Normal [r], [])
    /\ scores r = [(1, 50 # 100)]
    /\ avg r == 1 # 4
    /\ ~ avg r == 50 / 100.
Proof.
  eexists. split; [vm_compute; reflexivity|].
  repeat split; simpl; try reflexivity. intros H. discriminate H.
Qed.

(** C4, at a learner with 0 recorded for an assignment of 100 points
    who submits for it again and scores 0 again.  The percentage ties
    with the recorded one, yet the total of points possible grows. *)
Theorem tie_at_zero_adds_points_again :
  exists before after,
    forSubmissions isoClock Fixture.now Fixture.assignmentMap
      (firstn 2 Scenario.tied) [] = Some (Normal before, [])
    /\ tally before (VNum 101) = (150, 300, [(1, 0 # 100); (2, 150 # 200)])
    /\ processSubmission isoClock Fixture.now Fixture.assignmentMap before
         (Fixture.submitted 101 1 "2023-09-30" 0) = Some (Normal after, [])
    /\ tally after (VNum 101) = (150, 400, [(1, 0 # 100); (2, 150 # 200)]).
Proof.
  do 2 eexists. split; [vm_compute; reflexivity|].
  split; [vm_compute; reflexivity|].
  split; vm_compute; reflexivity.
Qed.

(** ** The theorems at concrete inputs *)

Lemma late_penalty_witness :
  exists effective,
    processSubmission isoClock Fixture.now Fixture.assignmentMap []
      (Fixture.submitted 101 2 "2023-10-09" 180)
    = Some (Normal
        (Map_set (ensureLearner [] (VNum 101)) (VNum 101)
           (keepHighest (newLearner (VNum 101)) 2 (effective / 200) effective 200)),
        [])
    /\ effective = Qmax 0 (180 - (1 # 10) * 200)
    /\ 0 <= effective.
Proof.
  destruct (late_penalty isoClock Fixture.now Fixture.assignmentMap []
              (Fixture.submitted 101 2 "2023-10-09" 180) 2
              (newLearner (VNum 101)) (Fixture.assignment 2 "2023-10-08" 200)
              1696723200000 1696809600000 180 200)
    as (effective & Hstep & Hlate & _); try reflexivity.
  - vm_compute. discriminate.
  - intros H. discriminate H.
  - exists effective. split; [exact Hstep|]. apply Hlate. reflexivity.
Defined.

Lemma zero_points_excluded_witness :
  scores_get
    (scores {| result_id := VNum 101; avg := 85 # 100; scores := [(1, 85 # 100)] |}) 4
  = None.
Proof.
  refine (proj1 (zero_points_excluded isoClock Fixture.now
                   Fixture.courseInfo Scenario.assignmentGroup
                   Scenario.assignments Scenario.assignmentMap Scenario.ungraded
                   4 (Fixture.assignment 4 "2023-10-01" 0) 0 _ []
                   eq_refl eq_refl eq_refl eq_refl _ _) _ _).
  - reflexivity.
  - vm_compute. reflexivity.
  - left. reflexivity.
Defined.

Lemma not_yet_due_skipped_witness :
  strict_eq
    (result_id {| result_id := VNum 101; avg := 85 # 100; scores := [(1, 85 # 100)] |})
    (VNum 102)
  = false.
Proof.
  refine (proj2 (proj2 (not_yet_due_skipped isoClock Fixture.now
                   Fixture.courseInfo Scenario.assignmentGroup
                   Scenario.assignments Scenario.assignmentMap Scenario.early
                   _ [] eq_refl eq_refl _)) (VNum 102) _ _ _).
  - vm_compute. reflexivity.
  - intros s Hin Hs. simpl in Hin.
    destruct Hin as [<-|[<-|[<-|[]]]]; try reflexivity. discriminate Hs.
  - left. reflexivity.
Defined.

(** ** What a call writes *)

Section StoreRules.
Import Store.

Lemma spec_ret {A} (P : state -> Prop) (a : A) Q E :
  (forall st, P st -> Q a st) -> spec P (mret a) Q E.
Proof. intros H st r st' HP [= <- <-]. apply H, HP. Qed.

Lemma spec_skip (P : state -> Prop) Q E :
  (forall st, P st -> Q tt st) -> spec P skip Q E.
Proof. apply spec_ret. Qed.

Lemma spec_throw {A} (P : state -> Prop) e (Q : A -> state -> Prop) (E : state -> Prop) :
  (forall st, P st -> E st) -> spec P (throw e) Q E.
Proof. intros H st r st' HP [= <- <-]. apply H, HP. Qed.

Lemma spec_unsupported {A} (P : state -> Prop) (Q : A -> state -> Prop) E :
  spec P unsupported Q E.
Proof. intros st r st' _ [=]. Qed.

Lemma spec_bind {A B} (P : state -> Prop) (m : M A) (f : A -> M B) R Q E :
  spec P m R E -> (forall a, spec (R a) (f a) Q E) -> spec P (mbind f m) Q E.
Proof.
  intros Hm Hf st r st' HP. unfold mbind, M_bind.
  destruct (m st) as [[[a|e] st1]|] eqn:Em; [| |discriminate].
  - apply (Hf a). apply (Hm _ _ _ HP Em).
  - intros [= <- <-]. apply (Hm _ _ _ HP Em).
Qed.

(** The same, with a fact about the result that does not depend on the
    state. *)
Lemma spec_bind_pure {A B} (P : state -> Prop) (m : M A) (f : A -> M B)
    (P' : A -> state -> Prop) (F : A -> Prop) Q E :
  spec P m (fun a st => P' a st /\ F a) E ->
  (forall a, F a -> spec (P' a) (f a) Q E) ->
  spec P (mbind f m) Q E.
Proof.
  intros Hm Hf. eapply spec_bind; [exact Hm|].
  intros a st r st' [HP HF]. apply (Hf a HF), HP.
Qed.

Lemma spec_weaken {A} (P P' : state -> Prop) (m : M A) (Q Q' : A -> state -> Prop)
    (E E' : state -> Prop) :
  spec P' m Q' E' ->
  (forall st, P st -> P' st) ->
  (forall a st, Q' a st -> Q a st) ->
  (forall st, E' st -> E st) ->
  spec P m Q E.
Proof.
  intros H HP HQ HE st r st' Hst Hrun. specialize (H st r st' (HP _ Hst) Hrun).
  destruct r; auto.
Qed.

Lemma spec_catch {A} (P : state -> Prop) (m : M A) handler Q E R :
  spec P m Q R -> (forall e, spec R (handler e) Q E) -> spec P (catch m handler) Q E.
Proof.
  intros Hm Hh st r st' HP. unfold catch.
  destruct (m st) as [[[a|e] st1]|] eqn:Em; [| |discriminate].
  - intros [= <- <-]. apply (Hm _ _ _ HP Em).
  - apply (Hh e). apply (Hm _ _ _ HP Em).
Qed.

(** Computations that leave the state as it is keep any assertion. *)
Lemma reads_only_spec {A} (P : state -> Prop) (m : M A) :
  reads_only m -> spec P m (fun _ => P) P.
Proof.
  intros H st r st' HP Hrun. rewrite (H _ _ _ Hrun). destruct r; exact HP.
Qed.

Lemma reads_only_ret {A} (a : A) : reads_only (mret a).
Proof. intros st r st' [= _ <-]. reflexivity. Qed.

Lemma reads_only_throw {A} e : reads_only (throw (A := A) e).
Proof. intros st r st' [= _ <-]. reflexivity. Qed.

Lemma reads_only_unsupported {A} : reads_only (unsupported (A := A)).
Proof. intros st r st' [=]. Qed.

Lemma reads_only_bind {A B} (m : M A) (f : A -> M B) :
  reads_only m -> (forall a, reads_only (f a)) -> reads_only (mbind f m).
Proof.
  intros Hm Hf st r st'. unfold mbind, M_bind.
  destruct (m st) as [[[a|e] st1]|] eqn:Em; [| |discriminate].
  - intros Hrun. rewrite (Hf _ _ _ _ Hrun). apply (Hm _ _ _ Em).
  - intros [= _ <-]. apply (Hm _ _ _ Em).
Qed.

Lemma reads_only_read l : reads_only (read l).
Proof.
  intros st r st'. unfold read. destruct (cells st !! l); [|discriminate].
  intros [= _ <-]. reflexivity.
Qed.

Lemma reads_only_getProp v k : reads_only (getProp v k).
Proof.
  destruct v; simpl;
    try apply reads_only_ret; try apply reads_only_throw.
  apply reads_only_bind; [apply reads_only_read|].
  intros [props|elems|entries]; destruct k;
    try apply reads_only_ret; apply reads_only_unsupported.
Qed.

Lemma reads_only_getNum v k : reads_only (getNum v k).
Proof.
  apply reads_only_bind; [apply reads_only_getProp|].
  intros []; try apply reads_only_unsupported. apply reads_only_ret.
Qed.

Lemma reads_only_Map_entries m : reads_only (Map_entries m).
Proof.
  apply reads_only_bind; [apply reads_only_read|].
  intros []; try apply reads_only_unsupported. apply reads_only_ret.
Qed.

Lemma reads_only_Map_has m k : reads_only (Map_has m k).
Proof.
  apply reads_only_bind; [apply reads_only_Map_entries|].
  intros entries. apply reads_only_ret.
Qed.

Lemma reads_only_Map_get m k : reads_only (Map_get m k).
Proof.
  apply reads_only_bind; [apply reads_only_Map_entries|].
  intros entries. apply reads_only_ret.
Qed.

Lemma reads_only_Array_elems a : reads_only (Array_elems a).
Proof.
  apply reads_only_bind; [apply reads_only_read|].
  intros []; try apply reads_only_unsupported. apply reads_only_ret.
Qed.

Lemma reads_only_isArray v : reads_only (isArray v).
Proof.
  destruct v; simpl; try apply reads_only_ret.
  apply reads_only_bind; [apply reads_only_read|].
  intros c. apply reads_only_ret.
Qed.

Lemma reads_only_ownProps v : reads_only (ownProps v).
Proof.
  destruct v; simpl; try apply reads_only_ret.
  apply reads_only_bind; [apply reads_only_read|].
  intros []; try apply reads_only_unsupported. apply reads_only_ret.
Qed.

Lemma reads_only_newDate Date_of v : reads_only (newDate Date_of v).
Proof. intros st r st' [= _ <-]. reflexivity. Qed.

End StoreRules.

Section StoreFrame.
Import Store.

Variable initial : gmap loc cell.

Abbreviation frame := (Store.frame initial).
Abbreviation local := (Store.local initial).
Abbreviation learner_ok := (Store.learner_ok initial).
Abbreviation learners := (Store.learners initial).
Abbreviation update := (Store.update initial).
Abbreviation stable := (Store.stable initial).
Abbreviation learnersKept := (Store.learnersKept initial).
Abbreviation learnerAtHand := (Store.learnerAtHand initial).

Lemma key_eqb_scoresKey_r k : key_eqb k scoresKey = true -> k = scoresKey.
Proof.
  destruct k as [s|x]; unfold key_eqb, scoresKey; [|discriminate].
  intros H. apply String.eqb_eq in H. congruence.
Qed.

Lemma key_eqb_scoresKey_l k : key_eqb scoresKey k = true -> k = scoresKey.
Proof.
  destruct k as [s|x]; unfold key_eqb, scoresKey; [|discriminate].
  intros H. apply String.eqb_eq in H. congruence.
Qed.

Lemma lookup_update_prop_other k x props :
  k <> scoresKey ->
  lookup_prop scoresKey (update_prop k x props) = lookup_prop scoresKey props.
Proof.
  intros Hk.
  assert (Hk' : key_eqb k scoresKey = false).
  { destruct (key_eqb k scoresKey) eqn:E; [|reflexivity].
    apply key_eqb_scoresKey_r in E. contradiction. }
  induction props as [|[k' v'] rest IH]; cbn [update_prop lookup_prop].
  - rewrite Hk'. reflexivity.
  - destruct (key_eqb k' k) eqn:E; cbn [lookup_prop].
    + destruct (key_eqb k' scoresKey) eqn:E'; [|reflexivity].
      apply key_eqb_scoresKey_r in E'. subst k'.
      apply key_eqb_scoresKey_l in E. contradiction.
    + rewrite IH. reflexivity.
Qed.

Lemma update_frame σ σ' : update σ σ' -> initial ⊆ σ -> initial ⊆ σ'.
Proof.
  intros [σ1|σ1 l c Hnone|σ1 l props k x Hl Hobj Hk] Hsub.
  - exact Hsub.
  - apply insert_subseteq_r; [|exact Hsub].
    eapply lookup_weaken_None; eassumption.
  - apply insert_subseteq_r; assumption.
Qed.

Lemma update_learner_ok σ σ' v : update σ σ' -> learner_ok σ v -> learner_ok σ' v.
Proof.
  intros Hup (l & props & -> & Hl & Hcell & Hlocal).
  destruct Hup as [σ1|σ1 l' c Hnone|σ1 l' props' k x Hl' Hobj Hk].
  - exists l, props. auto.
  - exists l, props. repeat split; auto.
    rewrite lookup_insert_ne; [exact Hcell|]. intros ->. congruence.
  - destruct (decide (l' = l)) as [->|Hne].
    + rewrite Hobj in Hcell. injection Hcell as ->.
      exists l, (update_prop k x props). repeat split; auto.
      * apply lookup_insert_eq.
      * rewrite lookup_update_prop_other by exact Hk. exact Hlocal.
    + exists l, props. repeat split; auto.
      rewrite lookup_insert_ne; assumption.
Qed.

Lemma update_learners learnerData σ σ' :
  update σ σ' -> learners learnerData σ -> learners learnerData σ'.
Proof.
  intros Hup (entries & Hmap & Hall). exists entries. split.
  - destruct Hup as [σ1|σ1 l' c Hnone|σ1 l' props' k x Hl' Hobj Hk].
    + exact Hmap.
    + rewrite lookup_insert_ne; [exact Hmap|]. intros ->. congruence.
    + rewrite lookup_insert_ne; [exact Hmap|]. intros ->. congruence.
  - eapply Forall_impl; [exact Hall|].
    intros e. apply update_learner_ok, Hup.
Qed.

Lemma stable_frame : stable frame.
Proof. intros st σ' console' H Hup. eapply update_frame; eassumption. Qed.

Lemma stable_learnersKept learnerData : stable (learnersKept learnerData).
Proof.
  intros st σ' console' [Hf Hl] Hup. split.
  - eapply update_frame; eassumption.
  - eapply update_learners; eassumption.
Qed.

Lemma stable_learnerAtHand learnerData learner :
  stable (learnerAtHand learnerData learner).
Proof.
  intros st σ' console' [Hk Hl] Hup. split.
  - eapply stable_learnersKept; eassumption.
  - destruct Hl as [->|Hok]; [left; reflexivity|right].
    eapply update_learner_ok; eassumption.
Qed.

Lemma stable_and (P : state -> Prop) (F : Prop) :
  stable P -> stable (fun st => P st /\ F).
Proof. intros HP st σ' console' [H HF] Hup. split; [eapply HP; eassumption | exact HF]. Qed.

(** *** The writing primitives *)

Lemma print_spec (P : state -> Prop) d E :
  stable P -> spec P (print d) (fun _ => P) E.
Proof.
  intros HP st r st' Hst [= <- <-]. eapply HP; [exact Hst | apply update_none].
Qed.

Lemma alloc_spec (P : state -> Prop) c E :
  stable P -> (forall st, P st -> frame st) ->
  spec P (alloc c) (fun l st => P st /\ initial !! l = None /\ cells st !! l = Some c) E.
Proof.
  intros HP Hframe st r st' Hst [= <- <-].
  assert (Hfresh : cells st !! fresh (dom (cells st)) = None)
    by (apply not_elem_of_dom, is_fresh).
  split; [|split].
  - eapply HP; [exact Hst|]. apply update_alloc. exact Hfresh.
  - eapply lookup_weaken_None; [exact Hfresh|]. apply Hframe, Hst.
  - simpl. apply lookup_insert_eq.
Qed.

Lemma setProp_spec (P : state -> Prop) v k x E :
  stable P -> (forall st, P st -> local v) -> k <> scoresKey ->
  (forall st, P st -> E st) ->
  spec P (setProp v k x) (fun _ => P) E.
Proof.
  intros HP Hlocal Hk HE st r st' Hst.
  destruct v; simpl; try (intros [= <- <-]; auto; fail).
  unfold mbind, M_bind, read.
  destruct (cells st !! l) as [c|] eqn:Hc; [|discriminate].
  destruct c as [props| |]; try discriminate.
  unfold write. rewrite Hc. intros [= <- <-].
  eapply HP; [exact Hst|]. apply update_props; auto.
  eapply Hlocal; [exact Hst | reflexivity].
Qed.

(** A write to a cell made by this call keeps the initial cells. *)
Lemma write_frame l c E :
  initial !! l = None -> spec frame (write l c) (fun _ => frame) E.
Proof.
  intros Hl st r st' Hst. unfold write.
  destruct (cells st !! l); [|discriminate]. intros [= <- <-].
  apply insert_subseteq_r; assumption.
Qed.

Lemma Map_set_frame m k v :
  initial !! m = None -> spec frame (Map_set m k v) (fun _ => frame) frame.
Proof.
  intros Hm. eapply spec_bind; [apply reads_only_spec, reads_only_Map_entries|].
  intros entries. apply write_frame, Hm.
Qed.

Lemma Array_push_frame a x :
  initial !! a = None -> spec frame (Array_push a x) (fun _ => frame) frame.
Proof.
  intros Ha. eapply spec_bind; [apply reads_only_spec, reads_only_Array_elems|].
  intros elems. apply write_frame, Ha.
Qed.

(** A new cell is not a cell of the initial store. *)
Lemma alloc_fresh_spec (P : state -> Prop) c E :
  stable P -> (forall st, P st -> frame st) ->
  spec P (alloc c) (fun l st => P st /\ initial !! l = None) E.
Proof.
  intros HP Hframe. eapply spec_weaken; [apply (alloc_spec P c E HP Hframe) | auto | | auto].
  intros l st (H & Hl & _). auto.
Qed.

(** *** Iteration *)

Lemma iterate_spec {X} (P : state -> Prop) n i (item : nat -> M (option X)) body :
  (forall i, reads_only (item i)) ->
  (forall x, spec P (body x) (fun _ => P) P) ->
  spec P (iterate n i item body) (fun _ => P) P.
Proof.
  intros Hitem Hbody. revert i. induction n as [|n IH]; intros i; simpl.
  - apply spec_ret. auto.
  - eapply spec_bind; [apply reads_only_spec, Hitem|].
    intros [x|]; [|apply spec_ret; auto].
    eapply spec_bind; [apply Hbody|]. intros ?. apply IH.
Qed.

Lemma forEach_spec (P : state -> Prop) a body :
  (forall x, spec P (body x) (fun _ => P) P) ->
  spec P (forEach a body) (fun _ => P) P.
Proof.
  intros Hbody. destruct a; simpl; try (apply spec_throw; auto).
  eapply spec_bind; [apply reads_only_spec, reads_only_read|].
  intros [props|elems|entries].
  - apply spec_throw. auto.
  - apply iterate_spec; [|exact Hbody].
    intros i. apply reads_only_bind; [apply reads_only_Array_elems|].
    intros es. apply reads_only_ret.
  - apply spec_unsupported.
Qed.

Lemma forOfArray_spec (P : state -> Prop) a body :
  (forall x, spec P (body x) (fun _ => P) P) ->
  spec P (forOfArray a body) (fun _ => P) P.
Proof.
  intros Hbody. unfold forOfArray.
  eapply spec_bind; [apply reads_only_spec, reads_only_Array_elems|].
  intros elems. eapply spec_bind.
  { apply iterate_spec; [|exact Hbody].
    intros i. apply reads_only_bind; [apply reads_only_Array_elems|].
    intros es. apply reads_only_ret. }
  intros ?. eapply spec_bind; [apply reads_only_spec, reads_only_Array_elems|].
  intros elems'. destruct (length elems' <=? length elems)%nat.
  - apply spec_skip. auto.
  - apply spec_unsupported.
Qed.

Lemma forOfMap_spec (P : state -> Prop) m body :
  (forall x, spec P (body x) (fun _ => P) P) ->
  spec P (forOfMap m body) (fun _ => P) P.
Proof.
  intros Hbody. unfold forOfMap.
  eapply spec_bind; [apply reads_only_spec, reads_only_Map_entries|].
  intros entries. eapply spec_bind.
  { apply iterate_spec; [|exact Hbody].
    intros i. apply reads_only_bind; [apply reads_only_Map_entries|].
    intros es. apply reads_only_ret. }
  intros ?. eapply spec_bind; [apply reads_only_spec, reads_only_Map_entries|].
  intros entries'. destruct (length entries' <=? length entries)%nat.
  - apply spec_skip. auto.
  - apply spec_unsupported.
Qed.

(** *** The routine *)

Create HintDb reads.

#[local] Hint Resolve reads_only_getProp reads_only_getNum reads_only_Map_entries
  reads_only_Map_has reads_only_Map_get reads_only_Array_elems reads_only_isArray
  reads_only_ownProps reads_only_newDate reads_only_read : reads.

Ltac reading :=
  eapply spec_bind; [apply reads_only_spec; auto with reads | intros ?; cbv beta].

Lemma learnerAtHand_local learnerData learner st :
  learnerAtHand learnerData learner st -> local learner.
Proof.
  intros [_ [->|(l & props & -> & Hl & _)]] l' [=]. congruence.
Qed.

Lemma getProp_scores_spec learnerData learner :
  spec (learnerAtHand learnerData learner) (getProp learner scoresKey)
    (fun x st => learnerAtHand learnerData learner st /\ local x)
    (learnerAtHand learnerData learner).
Proof.
  intros st r st' Hst Hrun.
  pose proof (reads_only_getProp _ _ _ _ _ Hrun) as ->.
  destruct r as [x|e]; [|exact Hst]. split; [exact Hst|].
  destruct Hst as [_ [->|(l & props & -> & Hl & Hcell & Hlocal)]]; [discriminate|].
  revert Hrun. unfold getProp, mbind, M_bind, read. rewrite Hcell.
  unfold scoresKey. intros [= <-]. exact Hlocal.
Qed.

Lemma retract_spec (P : state -> Prop) learner recorded points_possible :
  stable P -> (forall st, P st -> local learner) ->
  spec P (retract learner recorded points_possible) (fun _ => P) P.
Proof.
  intros HP Hlocal. unfold retract.
  destruct (truthy recorded); [|apply spec_skip; auto].
  destruct recorded; try apply spec_unsupported.
  reading.
  eapply spec_bind; [apply setProp_spec; auto; try discriminate|]. intros ?.
  reading.
  apply setProp_spec; auto; try discriminate.
Qed.

Lemma keepHighest_spec learnerData learner key percentage score points_possible :
  spec (learnerAtHand learnerData learner)
    (keepHighest learner key percentage score points_possible)
    (fun _ => learnerAtHand learnerData learner)
    (learnerAtHand learnerData learner).
Proof.
  pose proof (stable_learnerAtHand learnerData learner) as Hstable.
  pose proof (learnerAtHand_local learnerData learner) as Hlocal.
  unfold keepHighest.
  eapply spec_bind; [apply reads_only_spec, reads_only_getProp|]. intros ?.
  reading.
  destruct (negb (truthy a0) || _); [|apply spec_skip; auto].
  eapply spec_bind; [apply retract_spec; assumption|]. intros ?.
  eapply spec_bind; [apply getProp_scores_spec|]. intros scoresObj.
  eapply spec_bind with (R := fun _ => learnerAtHand learnerData learner).
  { eapply spec_weaken.
    - apply (setProp_spec (fun st => learnerAtHand learnerData learner st
                                     /\ local scoresObj)
               scoresObj (Numbered key) (Num percentage)
               (learnerAtHand learnerData learner)).
      + apply stable_and, Hstable.
      + intros st [_ H]. exact H.
      + discriminate.
      + intros st [H _]. exact H.
    - auto.
    - intros ? st [H _]. exact H.
    - auto. }
  intros ?. reading.
  eapply spec_bind; [apply setProp_spec; auto; try discriminate|]. intros ?.
  reading.
  apply setProp_spec; auto; try discriminate.
Qed.

Lemma entries_get_In entries k v :
  entries_get entries k = Some v -> exists k', In (k', v) entries.
Proof.
  induction entries as [|[k0 v0] rest IH]; simpl; [discriminate|].
  destruct (strict_eq k0 k).
  - intros [= ->]. eauto.
  - intros H. destruct (IH H) as [k' Hin]. eauto.
Qed.

Lemma Map_get_learner_spec learnerData k :
  spec (learnersKept learnerData) (Map_get learnerData k)
    (fun x st => learnerAtHand learnerData x st) (learnersKept learnerData).
Proof.
  intros st r st' Hst Hrun.
  pose proof (reads_only_Map_get _ _ _ _ _ Hrun) as ->.
  destruct r as [x|e]; [|exact Hst]. split; [exact Hst|].
  destruct Hst as [_ (entries & Hmap & Hall)].
  revert Hrun. unfold Map_get, Map_entries, mbind, M_bind, read. rewrite Hmap.
  intros [= <-].
  destruct (entries_get entries k) as [v|] eqn:E; [right|left; reflexivity].
  apply entries_get_In in E as [k' Hin].
  rewrite Forall_forall in Hall. apply (Hall (k', v)).
  apply list_elem_of_In, Hin.
Qed.

Lemma Forall_entries_set (P : val * val -> Prop) entries k v :
  Forall P entries -> (forall k', P (k', v)) ->
  Forall P (entries_set entries k v).
Proof.
  intros Hall Hv. induction Hall as [|[k0 v0] rest H0 Hrest IH]; simpl.
  - constructor; [apply Hv | constructor].
  - destruct (strict_eq k0 k); constructor; auto.
Qed.

Lemma Map_set_learner_spec learnerData k v :
  initial !! learnerData = None ->
  spec (fun st => learnersKept learnerData st /\ learner_ok (cells st) v)
    (Map_set learnerData k v)
    (fun _ => learnersKept learnerData) (learnersKept learnerData).
Proof.
  intros Hfresh st r st' [[Hframe (entries & Hmap & Hall)] Hv].
  unfold Map_set, Map_entries, mbind, M_bind, read, write, mret, M_ret.
  rewrite Hmap. cbv iota beta. rewrite Hmap.
  intros [= <- <-].
  assert (Hkeep : forall x, learner_ok (cells st) x ->
            learner_ok (<[learnerData := MapObj (entries_set entries k v)]> (cells st)) x).
  { intros x (l & props & -> & Hl & Hcell & Hlocal).
    exists l, props. repeat split; auto.
    rewrite lookup_insert_ne; [exact Hcell|]. intros ->. congruence. }
  split.
  - apply insert_subseteq_r; assumption.
  - exists (entries_set entries k v). split; [apply lookup_insert_eq|].
    apply Forall_entries_set.
    + eapply Forall_impl; [exact Hall|]. intros e. apply Hkeep.
    + intros ?. apply Hkeep, Hv.
Qed.

Lemma ensureLearner_spec learnerData learnerId :
  initial !! learnerData = None ->
  spec (learnersKept learnerData) (ensureLearner learnerData learnerId)
    (fun _ => learnersKept learnerData) (learnersKept learnerData).
Proof.
  intros Hfresh. unfold ensureLearner.
  pose proof (stable_learnersKept learnerData) as Hstable.
  reading. destruct (negb a); [|apply spec_skip; auto].
  eapply spec_bind.
  { apply alloc_spec; [exact Hstable | intros st [H _]; exact H]. }
  intros scoresObj.
  eapply spec_bind with
    (R := fun l st => (learnersKept learnerData st /\ initial !! scoresObj = None)
                      /\ initial !! l = None
                      /\ cells st !! l
                         = Some (Obj [(Named "id", learnerId);
                                      (Named "totalScore", Num 0);
                                      (Named "totalPossible", Num 0);
                                      (Named "assignmentScores", Ref scoresObj)])).
  { eapply spec_weaken.
    - apply (alloc_spec (fun st => learnersKept learnerData st
                                   /\ initial !! scoresObj = None)).
      + apply stable_and, Hstable.
      + intros st [[H _] _]. exact H.
    - intros st (H & Hl & _). split; assumption.
    - intros l st H. exact H.
    - intros st H. exact H. }
  intros learner. cbv beta.
  eapply spec_weaken; [apply (Map_set_learner_spec learnerData learnerId (Ref learner) Hfresh)
                      | | auto | auto].
  intros st ((Hkept & Hscores) & Hl & Hcell). split; [exact Hkept|].
  eexists learner, _. repeat split; [exact Hl | exact Hcell |].
  intros l [= <-]. exact Hscores.
Qed.

Section Routine.
Variable Date_of : gmap loc cell -> val -> option Z.
Variable now : Z.

Lemma processSubmission_spec assignmentMap learnerData submission :
  initial !! learnerData = None ->
  spec (learnersKept learnerData)
    (processSubmission Date_of now assignmentMap learnerData submission)
    (fun _ => learnersKept learnerData) (learnersKept learnerData).
Proof.
  intros Hfresh. unfold processSubmission.
  reading. reading. reading.
  destruct (negb (truthy a) || negb (truthy a0) || negb (truthy a1)).
  { apply print_spec, stable_learnersKept. }
  eapply spec_bind; [apply ensureLearner_spec, Hfresh|]. intros ?.
  eapply spec_bind; [apply Map_get_learner_spec|]. intros learner.
  eapply spec_weaken with (P' := learnerAtHand learnerData learner)
                          (Q' := fun _ => learnerAtHand learnerData learner)
                          (E' := learnerAtHand learnerData learner);
    [| auto | intros ? st [H _]; exact H | intros st [H _]; exact H].
  reading.
  destruct (negb (truthy a3)); [apply spec_skip; auto|].
  reading. reading.
  destruct (date_gt a5 (Some now)); [apply spec_skip; auto|].
  reading.
  destruct a6; try apply spec_unsupported.
  destruct (Qeq_bool x 0); [apply spec_skip; auto|].
  reading. reading. reading.
  destruct a8; try apply spec_unsupported.
  destruct a0; try apply spec_unsupported.
  apply keepHighest_spec.
Qed.

Lemma indexAssignment_spec assignmentMap assignment :
  initial !! assignmentMap = None ->
  spec frame (indexAssignment assignmentMap assignment) (fun _ => frame) frame.
Proof.
  intros Hfresh. unfold indexAssignment.
  reading.
  destruct (match a with Num x => Qltb x 0 | _ => true end).
  - reading. apply spec_throw. auto.
  - reading. apply Map_set_frame, Hfresh.
Qed.

Lemma summarise_spec results entry :
  initial !! results = None ->
  spec frame (summarise results entry) (fun _ => frame) frame.
Proof.
  intros Hfresh. unfold summarise.
  reading.
  destruct (Qeq_bool a 0); [apply spec_skip; auto|].
  reading. reading. reading. reading.
  eapply spec_bind; [apply alloc_spec; [apply stable_frame | auto]|].
  intros result.
  eapply spec_weaken; [apply (Array_push_frame results (Ref result) Hfresh)
                      | intros st [H _]; exact H | auto | auto].
Qed.

Lemma tryBlock_spec courseInfo assignmentGroup learnerSubmissions :
  spec frame (tryBlock Date_of now courseInfo assignmentGroup learnerSubmissions)
    (fun _ => frame) frame.
Proof.
  unfold tryBlock.
  reading. reading.
  destruct (negb (strict_eq a a0)); [apply spec_throw; auto|].
  eapply spec_bind_pure;
    [apply (alloc_fresh_spec frame); [apply stable_frame | auto]|].
  intros results Hresults.
  eapply spec_bind_pure;
    [apply (alloc_fresh_spec frame); [apply stable_frame | auto]|].
  intros assignmentMap HassignmentMap.
  reading.
  eapply spec_bind.
  { apply forEach_spec. intros assignment.
    apply indexAssignment_spec, HassignmentMap. }
  intros ?.
  eapply spec_bind_pure with
    (P' := fun l => learnersKept l) (F := fun l => initial !! l = None).
  { eapply spec_weaken;
      [apply (alloc_spec frame (MapObj [])); [apply stable_frame | auto]
      | auto | | intros st H; exact H].
    intros l st (H & Hl & Hcell). split; [split|]; auto.
    exists []. split; [exact Hcell | constructor]. }
  intros learnerData HlearnerData.
  eapply spec_bind with (R := fun _ => frame).
  { eapply spec_weaken;
      [apply (forOfArray_spec (learnersKept learnerData))
      | auto | intros ? st [H _]; exact H | intros st [H _]; exact H].
    intros submission. apply processSubmission_spec, HlearnerData. }
  intros ?.
  eapply spec_bind.
  { apply forOfMap_spec. intros entry. apply summarise_spec, Hresults. }
  intros ?. apply spec_ret. auto.
Qed.

(** *** The loops are followed to their end

    The loops of the routine stop where the collection they visit ends:
    it has not grown meanwhile. *)

Lemma forOfArray_followed (P : state -> Prop) a body elems st st1 :
  (forall x, spec P (body x) (fun _ => P) P) ->
  (forall st, P st -> cells st !! a = Some (Arr elems)) ->
  P st ->
  iterate (length elems) 0 (fun i => es ← Array_elems a; mret (es !! i)) body st
    = Some (Normal tt, st1) ->
  forOfArray a body st = Some (Normal tt, st1).
Proof.
  intros Hbody Hcell Hst Hrun.
  assert (Hst1 : P st1).
  { refine (iterate_spec P _ _ _ body _ Hbody st (Normal tt) st1 Hst Hrun).
    intros i. apply reads_only_bind; [apply reads_only_Array_elems|].
    intros es. apply reads_only_ret. }
  unfold forOfArray, Array_elems, mbind, M_bind, read, mret, M_ret.
  rewrite (Hcell _ Hst). cbv iota beta.
  unfold Array_elems, mbind, M_bind, read, mret, M_ret in Hrun. rewrite Hrun.
  rewrite (Hcell _ Hst1). cbv iota beta.
  rewrite Nat.leb_refl. reflexivity.
Qed.

Lemma forOfMap_followed (P : state -> Prop) m body entries st st1 :
  (forall x, spec P (body x) (fun _ => P) P) ->
  (forall st, P st -> cells st !! m = Some (MapObj entries)) ->
  P st ->
  iterate (length entries) 0 (fun i => es ← Map_entries m; mret (es !! i)) body st
    = Some (Normal tt, st1) ->
  forOfMap m body st = Some (Normal tt, st1).
Proof.
  intros Hbody Hcell Hst Hrun.
  assert (Hst1 : P st1).
  { refine (iterate_spec P _ _ _ body _ Hbody st (Normal tt) st1 Hst Hrun).
    intros i. apply reads_only_bind; [apply reads_only_Map_entries|].
    intros es. apply reads_only_ret. }
  unfold forOfMap, Map_entries, mbind, M_bind, read, mret, M_ret.
  rewrite (Hcell _ Hst). cbv iota beta.
  unfold Map_entries, mbind, M_bind, read, mret, M_ret in Hrun. rewrite Hrun.
  rewrite (Hcell _ Hst1). cbv iota beta.
  rewrite Nat.leb_refl. reflexivity.
Qed.

(** The loop over the submissions: the array is an argument, and the
    arguments are left alone. *)
Lemma submissions_loop_followed assignmentMap learnerData submissions elems st st1 :
  initial !! learnerData = None ->
  initial !! submissions = Some (Arr elems) ->
  learnersKept learnerData st ->
  iterate (length elems) 0 (fun i => es ← Array_elems submissions; mret (es !! i))
    (processSubmission Date_of now assignmentMap learnerData) st
    = Some (Normal tt, st1) ->
  forOfArray submissions (processSubmission Date_of now assignmentMap learnerData) st
  = Some (Normal tt, st1).
Proof.
  intros Hfresh Hsubs Hst.
  apply (forOfArray_followed (learnersKept learnerData)); auto.
  - intros x. apply processSubmission_spec, Hfresh.
  - intros st0 [Hframe _]. eapply lookup_weaken; eassumption.
Qed.

Lemma alloc_keeps_cell m c0 c E :
  spec (fun st => cells st !! m = Some c0) (alloc c)
    (fun _ st => cells st !! m = Some c0) E.
Proof.
  intros st r st' Hst [= <- <-]. cbn [cells].
  rewrite lookup_insert_ne; [exact Hst|].
  intros Heq. apply (is_fresh (dom (cells st))). rewrite Heq.
  apply elem_of_dom. eauto.
Qed.

Lemma Array_push_keeps_Map m entries a x E :
  spec (fun st => cells st !! m = Some (MapObj entries)) (Array_push a x)
    (fun _ st => cells st !! m = Some (MapObj entries)) E.
Proof.
  intros st r st' Hst.
  unfold Array_push, Array_elems, mbind, M_bind, read, write, mret, M_ret.
  destruct (cells st !! a) as [[| elems |]|] eqn:Ha; try discriminate.
  rewrite Ha. intros [= <- <-]. cbn [cells].
  rewrite lookup_insert_ne; [exact Hst|]. intros ->. congruence.
Qed.

(** The loop over the learners: its body adds a summary to the results
    and does nothing to the Map it visits. *)
Lemma learners_loop_followed results learnerData entries st st1 :
  cells st !! learnerData = Some (MapObj entries) ->
  iterate (length entries) 0 (fun i => es ← Map_entries learnerData; mret (es !! i))
    (summarise results) st
    = Some (Normal tt, st1) ->
  forOfMap learnerData (summarise results) st = Some (Normal tt, st1).
Proof.
  intros Hmap.
  apply (forOfMap_followed
           (fun st => cells st !! learnerData = Some (MapObj entries))); auto.
  intros entry. unfold summarise.
  reading.
  destruct (Qeq_bool a 0); [apply spec_skip; auto|].
  reading. reading. reading. reading.
  eapply spec_bind; [apply alloc_keeps_cell|]. intros result.
  apply Array_push_keeps_Map.
Qed.

Lemma getLearnerData_spec courseInfo assignmentGroup learnerSubmissions :
  spec frame (getLearnerData Date_of now courseInfo assignmentGroup learnerSubmissions)
    (fun _ => frame) frame.
Proof.
  unfold getLearnerData. reading.
  destruct learnerSubmissions; try (apply spec_throw; auto).
  destruct (negb (String.eqb (typeof courseInfo) "object")
            || negb (String.eqb (typeof assignmentGroup) "object")
            || negb a); [apply spec_throw; auto|].
  eapply spec_catch; [apply tryBlock_spec|].
  intros e. eapply spec_bind; [apply print_spec, stable_frame|].
  intros ?. apply spec_throw. auto.
Qed.

End Routine.

End StoreFrame.

(** C10.  Every object that exists when [getLearnerData] is called (the
    course record, the assignment group, its assignments, the array of
    submissions, every submission record, and whatever else the store
    holds) is the same when the call is over, whether the call returns
    or throws: the call writes to objects of its own making only. *)
Theorem arguments_not_mutated Date_of now courseInfo assignmentGroup learnerSubmissions
      st r st' :
    Store.getLearnerData Date_of now courseInfo assignmentGroup learnerSubmissions st
      = Some (r, st') ->
    forall l c, Store.cells st !! l = Some c -> Store.cells st' !! l = Some c.
Proof.
    intros Hrun l c Hc.
    pose proof (getLearnerData_spec (Store.cells st) Date_of now
                  courseInfo assignmentGroup learnerSubmissions st r st') as H.
    assert (Hframe : Store.frame (Store.cells st) st') by
      (destruct r; apply H; try exact Hrun; unfold Store.frame; reflexivity).
    eapply lookup_weaken; [exact Hc | exact Hframe].
Qed.

(** The call on the repository's data in a store: the three summaries
    are new objects with the numbers of [fixture_run], nothing is
    printed, and (an instance of the theorem) the first submission
    record is as it was. *)
Example stored_fixture_run :
  Stored.arguments Stored.empty
  = Some (Store.Normal (Store.Ref 1, Store.Ref 6, Store.Ref 19), Stored.before)
  /\ Store.getLearnerData isoClockOf Fixture.now
       (Store.Ref 1) (Store.Ref 6) (Store.Ref 19) Stored.before
     = Some (Store.Normal (Store.Ref 20), Stored.after)
  /\ Store.console Stored.after = []
  /\ Store.cells Stored.after !! 20%positive
     = Some (Store.Arr [Store.Ref 29; Store.Ref 30; Store.Ref 31])
  /\ Store.cells Stored.after !! 29%positive
     = Some (Store.Obj [(Store.Named "id", Store.Num 101);
                        (Store.Named "avg", Store.Num (250000 # 300000));
                        (Store.Numbered 1, Store.Num (90 # 100));
                        (Store.Numbered 2, Store.Num (1600 # 2000))])
  /\ Store.cells Stored.after !! 30%positive
     = Some (Store.Obj [(Store.Named "id", Store.Num 102);
                        (Store.Named "avg", Store.Num (2050 # 2500));
                        (Store.Numbered 1, Store.Num (850 # 1000));
                        (Store.Numbered 3, Store.Num (120 # 150))])
  /\ Store.cells Stored.after !! 31%positive
     = Some (Store.Obj [(Store.Named "id", Store.Num 103);
                        (Store.Named "avg", Store.Num (150 # 200));
                        (Store.Numbered 2, Store.Num (150 # 200))]).
Proof.
  repeat (apply conj; [vm_compute; reflexivity|]). vm_compute. reflexivity.
Qed.

(** The two embeddings on the inputs of C1, C8 and C6: in the store too
    the points of the assignment are counted twice (cell 16 is the
    learner's record), a [null] course raises a TypeError (cell 1 is
    then the first assignment), and the malformed record (cell 9) is
    warned about. *)
Example stored_scenarios :
  observed 16 (callOnTrees Fixture.now Fixture.courseInfo Fixture.assignmentGroup
                 (VArr Scenario.resubmitted) Stored.empty)
  = Some (Store.Normal (Store.Ref 12), [],
          Some (Store.Obj [(Store.Named "id", Store.Num 101);
                           (Store.Named "totalScore", Store.Num 50);
                           (Store.Named "totalPossible", Store.Num 200);
                           (Store.Named "assignmentScores", Store.Ref 15)]))
  /\ observed 1 (callOnTrees Fixture.now VNull Fixture.assignmentGroup
                   Fixture.learnerSubmissions Stored.empty)
     = Some (Store.Throw Store.TypeError, [Store.ErrorLog Store.TypeError],
             Some (Store.Obj [(Store.Named "id", Store.Num 1);
                              (Store.Named "due_at", Store.Str "2023-10-01");
                              (Store.Named "points_possible", Store.Num 100)]))
  /\ observed 9 (callOnTrees Fixture.now Fixture.courseInfo Fixture.assignmentGroup
                   (VArr [Fixture.submitted 101 1 "2023-09-30" 85;
                          VObj [("learner_id", VNum 101); ("assignment_id", VNum 1)];
                          Fixture.submitted 102 1 "2023-10-02" 95]) Stored.empty)
     = Some (Store.Normal (Store.Ref 13), [Store.Warn (Store.Ref 9)],
             Some (Store.Obj [(Store.Named "learner_id", Store.Num 101);
                              (Store.Named "assignment_id", Store.Num 1)])).
Proof.
  repeat (apply conj; [vm_compute; reflexivity|]). vm_compute. reflexivity.
Qed.

Lemma arguments_not_mutated_witness :
  Store.cells Stored.after !! 8%positive
  = Some (Store.Obj [(Store.Named "learner_id", Store.Num 101);
                     (Store.Named "assignment_id", Store.Num 1);
                     (Store.Named "submission", Store.Ref 7)]).
Proof.
  apply (arguments_not_mutated isoClockOf Fixture.now
           (Store.Ref 1) (Store.Ref 6) (Store.Ref 19)
           Stored.before (Store.Normal (Store.Ref 20)) Stored.after).
  - vm_compute. reflexivity.
  - vm_compute. reflexivity.
Defined.

(** * Further properties of the routine *)

(** ** The index of assignments (lines 26-33) *)

(** Indexing stops at the first assignment that fails the test of
    line 29. *)
Lemma indexAssignments_stops valid bad rest assignmentMap :
  Forall (fun a => nullish a = false /\ invalidPoints a = false) valid ->
  nullish bad = false -> invalidPoints bad = true ->
  indexAssignments (valid ++ bad :: rest) assignmentMap
  = Throw (InvalidAssignment (prop bad "id")).
Proof.
  intros Hvalid Hn Hbad. revert assignmentMap.
  induction Hvalid as [|a valid [Han Hap] _ IH]; intros assignmentMap; simpl.
  - rewrite Hn. unfold invalidPoints in Hbad.
    destruct (prop bad "points_possible"); try reflexivity.
    rewrite Hbad. reflexivity.
  - rewrite Han. unfold invalidPoints in Hap.
    destruct (prop a "points_possible"); try discriminate.
    rewrite Hap. apply IH.
Qed.

(** Indexing succeeds on lists of assignments that all pass the test,
    and on no other list. *)
Lemma indexAssignments_Normal assignments assignmentMap assignmentMap' :
  indexAssignments assignments assignmentMap = Normal assignmentMap' ->
  Forall (fun a => nullish a = false /\ invalidPoints a = false) assignments.
Proof.
  revert assignmentMap.
  induction assignments as [|a rest IH]; simpl; intros assignmentMap;
    [constructor|].
  destruct (nullish a) eqn:Hn; [discriminate|].
  destruct (prop a "points_possible") eqn:Hp; try discriminate.
  destruct (Qltb x 0) eqn:Hneg; [discriminate|].
  intros H. constructor; [|eapply IH, H].
  unfold invalidPoints. rewrite Hp. auto.
Qed.

Lemma find_last {A} (f : A -> bool) (l : list A) (x : A) :
  List.find f (l ++ [x])
  = match List.find f l with
    | Some y => Some y
    | None => if f x then Some x else None
    end.
Proof.
  induction l as [|y l IH]; simpl; [reflexivity|].
  destruct (f y); [reflexivity | exact IH].
Qed.

Lemma Map_get_set_any {V} (m : list (value * V)) k k' v :
  Map_get (Map_set m k v) k' = if strict_eq k k' then Some v else Map_get m k'.
Proof.
  destruct (strict_eq k k) eqn:Hrefl; [apply Map_get_set, Hrefl|].
  destruct (strict_eq k k') eqn:E.
  - apply strict_eq_refl_of in E. congruence.
  - apply Map_get_set_other, E.
Qed.

Lemma indexAssignments_lookup assignments assignmentMap assignmentMap' key :
  indexAssignments assignments assignmentMap = Normal assignmentMap' ->
  Map_get assignmentMap' key
  = match lastWithId key assignments with
    | Some a => Some a
    | None => Map_get assignmentMap key
    end.
Proof.
  unfold lastWithId. revert assignmentMap.
  induction assignments as [|a rest IH]; simpl; intros assignmentMap.
  - intros [= <-]. reflexivity.
  - destruct (nullish a); [discriminate|].
    destruct (prop a "points_possible"); try discriminate.
    destruct (Qltb x 0); [discriminate|].
    intros H. rewrite (IH _ H), find_last.
    destruct (List.find _ (rev rest)); [reflexivity|].
    rewrite Map_get_set_any. destruct (strict_eq (prop a "id") key); reflexivity.
Qed.

(** X1.  When the course and the group pass the first two checks and
    some assignment of the group has a [points_possible] that is not a
    number or is negative, the call fails with the error that names the
    first such assignment.  No submission is looked at: nothing but the
    error report is printed, whatever the list of submissions holds. *)
Theorem invalid_points_abort Date_of now courseInfo assignmentGroup
    valid bad rest submissions :
  typeof courseInfo = "object"%string -> nullish courseInfo = false ->
  typeof assignmentGroup = "object"%string -> nullish assignmentGroup = false ->
  strict_eq (prop assignmentGroup "course_id") (prop courseInfo "id") = true ->
  prop assignmentGroup "assignments" = VArr (valid ++ bad :: rest) ->
  Forall (fun a => nullish a = false /\ invalidPoints a = false) valid ->
  nullish bad = false -> invalidPoints bad = true ->
  getLearnerData Date_of now courseInfo assignmentGroup (VArr submissions)
  = Some (Throw (InvalidAssignment (prop bad "id")),
          [ErrorLog (InvalidAssignment (prop bad "id"))]).
Proof.
  intros Hc Hcn Hg Hgn Heq Hassign Hvalid Hn Hbad.
  unfold getLearnerData, tryBlock.
  rewrite Hc, Hg, Hcn, Hgn, Heq, Hassign.
  rewrite (indexAssignments_stops _ _ _ _ Hvalid Hn Hbad). reflexivity.
Qed.

Lemma invalid_points_abort_witness :
  getLearnerData isoClock Fixture.now Fixture.courseInfo
    (VObj [("course_id", VNum 1);
           ("assignments",
             VArr ([Fixture.assignment 1 "2023-10-01" 100]
                   ++ Fixture.assignment 2 "2023-10-08" (-5)
                   :: [VObj [("id", VNum 3); ("points_possible", VStr "150")]]))])
    (VArr [VNull; Fixture.submitted 101 1 "2023-09-30" 85])
  = Some (Throw (InvalidAssignment (VNum 2)), [ErrorLog (InvalidAssignment (VNum 2))]).
Proof.
  apply (invalid_points_abort isoClock Fixture.now Fixture.courseInfo
           (VObj [("course_id", VNum 1);
                  ("assignments",
                    VArr ([Fixture.assignment 1 "2023-10-01" 100]
                          ++ Fixture.assignment 2 "2023-10-08" (-5)
                          :: [VObj [("id", VNum 3); ("points_possible", VStr "150")]]))])
           [Fixture.assignment 1 "2023-10-01" 100]
           (Fixture.assignment 2 "2023-10-08" (-5))
           [VObj [("id", VNum 3); ("points_possible", VStr "150")]]);
    try reflexivity.
  constructor; [split; reflexivity | constructor].
Defined.

(** X2.  The index holds, under an id, the last assignment of the
    group that carries this id: an assignment listed again under the
    same id replaces the earlier one, and an id the group does not
    list is not in the index. *)
Theorem index_holds_last_assignment assignments assignmentMap key :
  indexAssignments assignments [] = Normal assignmentMap ->
  Map_get assignmentMap key = lastWithId key assignments.
Proof.
  intros H. rewrite (indexAssignments_lookup _ _ _ key H). simpl.
  destruct (lastWithId key assignments); reflexivity.
Qed.

Lemma index_holds_last_assignment_witness :
  Map_get [(VNum 1, Fixture.assignment 1 "2023-11-01" 50);
           (VNum 2, Fixture.assignment 2 "2023-10-08" 200)] (VNum 1)
  = lastWithId (VNum 1)
      [Fixture.assignment 1 "2023-10-01" 100;
       Fixture.assignment 2 "2023-10-08" 200;
       Fixture.assignment 1 "2023-11-01" 50].
Proof.
  apply (index_holds_last_assignment
           [Fixture.assignment 1 "2023-10-01" 100;
            Fixture.assignment 2 "2023-10-08" 200;
            Fixture.assignment 1 "2023-11-01" 50]).
  reflexivity.
Defined.

(** Every assignment of the index is an assignment of the group that
    passed the test of line 29. *)
Lemma indexed_valid assignments assignmentMap key assignment :
  indexAssignments assignments [] = Normal assignmentMap ->
  Map_get assignmentMap key = Some assignment ->
  In assignment assignments
  /\ strict_eq (prop assignment "id") key = true
  /\ exists points_possible,
       prop assignment "points_possible" = VNum points_possible
       /\ 0 <= points_possible.
Proof.
  intros Hindex Hget.
  rewrite (indexAssignments_lookup _ _ _ key Hindex) in Hget. simpl in Hget.
  destruct (lastWithId key assignments) as [a|] eqn:E; [|discriminate].
  injection Hget as ->. unfold lastWithId in E.
  apply find_some in E as [Hin Hid]. apply in_rev in Hin.
  split; [exact Hin|]. split; [exact Hid|].
  pose proof (indexAssignments_Normal _ _ _ Hindex) as Hall.
  rewrite List.Forall_forall in Hall. destruct (Hall _ Hin) as [_ Hp].
  unfold invalidPoints in Hp.
  destruct (prop assignment "points_possible"); try discriminate.
  exists x. split; [reflexivity|].
  unfold Qltb in Hp. apply negb_false_iff, Qle_bool_iff in Hp. exact Hp.
Qed.

(** X3.  Once indexing has succeeded, whatever the loop finds in the
    index under an id is an assignment of the group with that id
    whose [points_possible] is a number that is not negative. *)
Theorem indexed_assignment_is_valid assignments assignmentMap key assignment :
  indexAssignments assignments [] = Normal assignmentMap ->
  Map_get assignmentMap key = Some assignment ->
  In assignment assignments
  /\ strict_eq (prop assignment "id") key = true
  /\ exists points_possible,
       prop assignment "points_possible" = VNum points_possible
       /\ 0 <= points_possible.
Proof. apply indexed_valid. Qed.

Lemma indexed_assignment_is_valid_witness :
  In (Fixture.assignment 2 "2023-10-08" 200)
    [Fixture.assignment 1 "2023-10-01" 100;
     Fixture.assignment 2 "2023-10-08" 200;
     Fixture.assignment 3 "2023-10-15" 150]
  /\ strict_eq (prop (Fixture.assignment 2 "2023-10-08" 200) "id") (VNum 2) = true
  /\ exists points_possible,
       prop (Fixture.assignment 2 "2023-10-08" 200) "points_possible"
       = VNum points_possible
       /\ 0 <= points_possible.
Proof.
  apply (indexed_assignment_is_valid
           [Fixture.assignment 1 "2023-10-01" 100;
            Fixture.assignment 2 "2023-10-08" 200;
            Fixture.assignment 3 "2023-10-15" 150]
           Fixture.assignmentMap (VNum 2)); reflexivity.
Defined.

(** ** What a call prints (lines 41-44 and 112-115) *)

Section Console.
Variable Date_of : value -> option Z.
Variable now : Z.

(** A call that returns has got through validation and indexing, has
    run the loop to its end and has assembled the learner map. *)
Lemma getLearnerData_Normal courseInfo assignmentGroup learnerSubmissions out printed :
  getLearnerData Date_of now courseInfo assignmentGroup learnerSubmissions
    = Some (Normal out, printed) ->
  exists submissions assignments assignmentMap learnerData,
    learnerSubmissions = VArr submissions
    /\ prop assignmentGroup "assignments" = VArr assignments
    /\ indexAssignments assignments [] = Normal assignmentMap
    /\ forSubmissions Date_of now assignmentMap submissions []
       = Some (Normal learnerData, printed)
    /\ out = assemble learnerData.
Proof.
  unfold getLearnerData, tryBlock.
  destruct learnerSubmissions as [| | | | | |submissions]; try discriminate.
  destruct (negb (String.eqb (typeof courseInfo) "object")
            || negb (String.eqb (typeof assignmentGroup) "object"));
    [discriminate|].
  destruct (nullish assignmentGroup || nullish courseInfo); [discriminate|].
  destruct (negb (strict_eq _ _)); [discriminate|].
  destruct (prop assignmentGroup "assignments") as [| | | | | |assignments];
    try discriminate.
  destruct (indexAssignments assignments []) as [assignmentMap|e] eqn:Hindex;
    [|discriminate].
  destruct (forSubmissions Date_of now assignmentMap submissions [])
    as [[[ld|e] p]|] eqn:E; try discriminate.
  intros [= <- <-]. exists submissions, assignments, assignmentMap, ld.
  repeat split; assumption.
Qed.

(** An iteration that completes prints the warning for a malformed
    record and nothing else. *)
Lemma processSubmission_prints assignmentMap learnerData submission learnerData' printed :
  processSubmission Date_of now assignmentMap learnerData submission
    = Some (Normal learnerData', printed) ->
  nullish submission = false
  /\ printed = if malformed submission then [Warn submission] else [].
Proof.
  unfold processSubmission, malformed.
  destruct (nullish submission); [discriminate|].
  destruct (negb (truthy (prop submission "learner_id"))
            || negb (truthy (prop submission "assignment_id"))
            || negb (truthy (prop submission "submission")));
    [intros [= _ <-]; auto|].
  repeat (match goal with
          | |- context [if ?b then _ else _] => destruct b
          | |- context [match ?x with _ => _ end] => destruct x
          end; try discriminate);
    intros [= _ <-]; auto.
Qed.

Lemma forSubmissions_prints assignmentMap submissions learnerData learnerData' printed :
  forSubmissions Date_of now assignmentMap submissions learnerData
    = Some (Normal learnerData', printed) ->
  Forall (fun s => nullish s = false) submissions
  /\ printed = List.map Warn (List.filter malformed submissions).
Proof.
  revert learnerData printed.
  induction submissions as [|s rest IH]; simpl; intros learnerData printed.
  - intros [= _ <-]. split; [constructor | reflexivity].
  - destruct (processSubmission Date_of now assignmentMap learnerData s)
      as [[[ld1|e] p]|] eqn:E; try discriminate.
    destruct (forSubmissions Date_of now assignmentMap rest ld1)
      as [[c p']|] eqn:E'; [|discriminate].
    intros [= -> <-].
    apply processSubmission_prints in E as [Hn ->].
    apply IH in E' as [Hall ->].
    split; [constructor; assumption|].
    destruct (malformed s); reflexivity.
Qed.

(** A run of the loop that stops with an error has met a [null] or
    [undefined] element, and has printed the warnings for the
    malformed records before it. *)
Lemma forSubmissions_stops assignmentMap submissions learnerData e printed :
  forSubmissions Date_of now assignmentMap submissions learnerData
    = Some (Throw e, printed) ->
  exists before x after,
    submissions = before ++ x :: after
    /\ nullish x = true
    /\ Forall (fun s => nullish s = false) before
    /\ printed = List.map Warn (List.filter malformed before).
Proof.
  revert learnerData printed.
  induction submissions as [|s rest IH]; simpl; intros learnerData printed;
    [discriminate|].
  destruct (processSubmission Date_of now assignmentMap learnerData s)
    as [[[ld1|e1] p]|] eqn:E; try discriminate.
  - destruct (forSubmissions Date_of now assignmentMap rest ld1)
      as [[c p']|] eqn:E'; [|discriminate].
    intros [= -> <-].
    apply processSubmission_prints in E as [Hn ->].
    apply IH in E' as (before & x & after & -> & Hx & Hall & ->).
    exists (s :: before), x, after. repeat split; auto.
    simpl. destruct (malformed s); reflexivity.
  - intros [= _ <-].
    apply processSubmission_throws in E as (_ & -> & Hn).
    exists [], s, rest. repeat split; auto.
Qed.

(** X4.  A call that returns has printed one warning for each
    malformed record of the list, in the order of the list, and
    nothing else. *)
Theorem warnings_are_the_malformed courseInfo assignmentGroup submissions out printed :
  getLearnerData Date_of now courseInfo assignmentGroup (VArr submissions)
    = Some (Normal out, printed) ->
  printed = List.map Warn (List.filter malformed submissions).
Proof.
  intros H.
  apply getLearnerData_Normal in H as (subs & a & m & ld & [= <-] & _ & _ & Hrun & _).
  apply forSubmissions_prints in Hrun as [_ Hp]. exact Hp.
Qed.

(** X5.  A call that fails has reported its error exactly once, as the
    last thing printed, unless the error is the one of the type test,
    which is raised before the [try] block and is not reported.
    Warnings come before the report of a TypeError only: the other
    errors are raised before the first submission is looked at. *)
Theorem error_is_reported_once courseInfo assignmentGroup learnerSubmissions e printed :
  getLearnerData Date_of now courseInfo assignmentGroup learnerSubmissions
    = Some (Throw e, printed) ->
  (e = InvalidInputType /\ printed = [])
  \/ (e <> InvalidInputType
      /\ exists warned,
           printed = List.map Warn warned ++ [ErrorLog e]
           /\ Forall (fun s => malformed s = true) warned
           /\ (e <> TypeError -> warned = [])).
Proof.
  unfold getLearnerData.
  destruct learnerSubmissions as [| | | | | |submissions];
    try (intros [= <- <-]; left; auto).
  destruct (negb (String.eqb (typeof courseInfo) "object")
            || negb (String.eqb (typeof assignmentGroup) "object"));
    [intros [= <- <-]; left; auto|].
  destruct (tryBlock Date_of now courseInfo assignmentGroup submissions)
    as [[[out|e'] p]|] eqn:E; try discriminate.
  intros [= <- <-]. right.
  split; [eapply tryBlock_throws, E|].
  revert E. unfold tryBlock.
  assert (Hnone : forall e0 : error,
            exists warned, @nil diagnostic ++ [ErrorLog e0]
                           = List.map Warn warned ++ [ErrorLog e0]
                           /\ Forall (fun s => malformed s = true) warned
                           /\ (e0 <> TypeError -> warned = []))
    by (intros e0; exists []; auto).
  destruct (nullish assignmentGroup || nullish courseInfo);
    [intros [= <- <-]; apply Hnone|].
  destruct (negb (strict_eq _ _)); [intros [= <- <-]; apply Hnone|].
  destruct (prop assignmentGroup "assignments") as [| | | | | |assignments];
    try (intros [= <- <-]; apply Hnone).
  destruct (indexAssignments assignments []) as [assignmentMap|e0];
    [|intros [= <- <-]; apply Hnone].
  destruct (forSubmissions Date_of now assignmentMap submissions [])
    as [[[ld|e0] p0]|] eqn:Hrun; try discriminate.
  intros [= <- <-].
  pose proof (forSubmissions_throws _ _ _ _ _ _ _ Hrun) as ->.
  apply forSubmissions_stops in Hrun as (before & x & after & _ & _ & _ & ->).
  exists (List.filter malformed before). repeat split; [| congruence].
  apply List.Forall_forall. intros s Hs. apply filter_In in Hs. tauto.
Qed.

(** X6.  A [null] or [undefined] element in the list of submissions
    makes the call fail with a TypeError when the loop reaches it: what
    the earlier submissions have contributed is not returned, the
    warnings for them have been printed, and the later ones are not
    looked at. *)
Theorem null_submission_aborts courseInfo assignmentGroup before x after out printed :
  nullish x = true ->
  getLearnerData Date_of now courseInfo assignmentGroup (VArr before)
    = Some (Normal out, printed) ->
  getLearnerData Date_of now courseInfo assignmentGroup (VArr (before ++ x :: after))
  = Some (Throw TypeError, printed ++ [ErrorLog TypeError]).
Proof.
  intros Hx H.
  pose proof H as H'.
  apply getLearnerData_Normal in H' as (subs & a & m & ld & [= <-] & Ha & Hm & Hrun & _).
  rewrite (getLearnerData_loop _ _ _ _ _ _ _ _ _ Ha Hm H).
  rewrite forSubmissions_app, Hrun. simpl.
  unfold processSubmission. rewrite Hx. rewrite app_nil_r. reflexivity.
Qed.

End Console.

Lemma warnings_are_the_malformed_witness :
  [Warn (VObj [("learner_id", VNum 101); ("assignment_id", VNum 0)])]
  = List.map Warn
      (List.filter malformed
         [Fixture.submitted 101 1 "2023-09-30" 85;
          VObj [("learner_id", VNum 101); ("assignment_id", VNum 0)]]).
Proof.
  apply (warnings_are_the_malformed isoClock Fixture.now
           Fixture.courseInfo Fixture.assignmentGroup
           [Fixture.submitted 101 1 "2023-09-30" 85;
            VObj [("learner_id", VNum 101); ("assignment_id", VNum 0)]]
           [ {| result_id := VNum 101; avg := 85 # 100; scores := [(1, 85 # 100)] |} ]).
  vm_compute. reflexivity.
Defined.

Lemma error_is_reported_once_witness :
  (TypeError = InvalidInputType /\ [Warn (VNum 7); ErrorLog TypeError] = [])
  \/ (TypeError <> InvalidInputType
      /\ exists warned,
           [Warn (VNum 7); ErrorLog TypeError]
           = List.map Warn warned ++ [ErrorLog TypeError]
           /\ Forall (fun s => malformed s = true) warned
           /\ (TypeError <> TypeError -> warned = [])).
Proof.
  apply (error_is_reported_once isoClock Fixture.now
           Fixture.courseInfo Fixture.assignmentGroup
           (VArr [VNum 7; VNull; Fixture.submitted 101 1 "2023-09-30" 85])).
  vm_compute. reflexivity.
Defined.

Lemma null_submission_aborts_witness :
  getLearnerData isoClock Fixture.now Fixture.courseInfo Fixture.assignmentGroup
    (VArr ([Fixture.submitted 101 1 "2023-09-30" 85] ++ VUndefined
           :: [Fixture.submitted 102 1 "2023-10-02" 95]))
  = Some (Throw TypeError, [] ++ [ErrorLog TypeError]).
Proof.
  apply (null_submission_aborts isoClock Fixture.now
           Fixture.courseInfo Fixture.assignmentGroup
           [Fixture.submitted 101 1 "2023-09-30" 85] VUndefined
           [Fixture.submitted 102 1 "2023-10-02" 95]
           [ {| result_id := VNum 101; avg := 85 # 100; scores := [(1, 85 # 100)] |} ]).
  - reflexivity.
  - vm_compute. reflexivity.
Defined.

(** ** The learners of the output (lines 36-57 and 98-109) *)







Section Learners.
Variable Date_of : value -> option Z.
Variable now : Z.
Variable assignmentMap : list (value * value).



End Learners.




(** ** The totals, whatever the scores (lines 80-95) *)

Lemma Forall_scores_set (P : Q * Q -> Prop) o k p :
  Forall P o -> P (k, p) ->
  (forall k' p', P (k', p') -> P (k', p)) ->
  Forall P (scores_set o k p).
Proof.
  intros Hall Hnew Hrepl. induction Hall as [|[k0 p0] o H0 Ho IH]; simpl.
  - constructor; [exact Hnew | constructor].
  - destruct (Qeq_bool k0 k); constructor; eauto.
Qed.

Lemma scores_set_not_nil o k p : scores_set o k p <> [].
Proof. destruct o as [|[k0 p0] o]; simpl; [|destruct (Qeq_bool k0 k)]; discriminate. Qed.

Lemma scores_get_In o k p :
  scores_get o k = Some p -> exists k', Qeq_bool k' k = true /\ In (k', p) o.
Proof.
  induction o as [|[k0 p0] o IH]; simpl; [discriminate|].
  destruct (Qeq_bool k0 k) eqn:E.
  - intros [= ->]. exists k0. auto.
  - intros H. destruct (IH H) as (k' & Hk & Hin). exists k'. auto.
Qed.

(** A loop invariant on the records of the learner map holds at the
    end of the loop when a new record satisfies it and [keepHighest]
    keeps it at every counted submission. *)
Lemma forSubmissions_invariant Date_of now assignmentMap (P : Learner -> Prop)
    submissions :
  (forall learnerId, P (newLearner learnerId)) ->
  (forall s key score points_possible learner,
      In s submissions ->
      classify Date_of now assignmentMap s
      = Some (Normal (Scored key score points_possible)) ->
      P learner ->
      P (keepHighest learner key (score / points_possible) score points_possible)) ->
  forall learnerData learnerData' printed,
    Forall (fun e => P e.2) learnerData ->
    forSubmissions Date_of now assignmentMap submissions learnerData
      = Some (Normal learnerData', printed) ->
    Forall (fun e => P e.2) learnerData'.
Proof.
  intros Hnew.
  induction submissions as [|s rest IH]; simpl;
    intros Hkeep learnerData learnerData' printed Hall.
  - intros [= <- _]. exact Hall.
  - destruct (processSubmission Date_of now assignmentMap learnerData s)
      as [[[ld1|e] p]|] eqn:E; try discriminate.
    destruct (forSubmissions Date_of now assignmentMap rest ld1)
      as [[c p']|] eqn:E'; [|discriminate].
    intros [= -> _].
    apply (IH (fun s' k sc pp l Hin => Hkeep s' k sc pp l (or_intror Hin)) ld1 _ p');
      [|exact E'].
    clear IH E'. revert E. rewrite processSubmission_classify.
    assert (Hensure : forall learnerId,
              Forall (fun e => P e.2) (ensureLearner learnerData learnerId)).
    { intros learnerId. unfold ensureLearner.
      destruct (Map_has learnerData learnerId); [exact Hall|].
      apply (Forall_Map_set P); [exact Hall | apply Hnew]. }
    destruct (classify Date_of now assignmentMap s)
      as [[[| |key score pp]|e]|] eqn:Ec; try discriminate.
    + intros [= <- _]. exact Hall.
    + intros [= <- _]. apply Hensure.
    + cbv zeta.
      destruct (Map_get (ensureLearner learnerData (prop s "learner_id"))
                  (prop s "learner_id")) as [l|] eqn:El; [|discriminate].
      intros [= <- _].
      apply (Forall_Map_set P); [apply Hensure|].
      apply (Hkeep s); [left; reflexivity | exact Ec |].
      eapply (Forall_Map_get P); [apply Hensure | exact El].
Qed.

Section Totals.
Variable Date_of : value -> option Z.
Variable now : Z.
Variable assignmentMap : list (value * value).

(** What validation (lines 28-31) has established of the index. *)
Hypothesis indexed_points :
  forall key assignment,
    Map_get assignmentMap key = Some assignment ->
    exists points_possible,
      prop assignment "points_possible" = VNum points_possible
      /\ 0 <= points_possible.

Lemma classify_Scored_points submission key score points_possible :
  classify Date_of now assignmentMap submission
  = Some (Normal (Scored key score points_possible)) ->
  pointsOf assignmentMap key = points_possible /\ 0 < points_possible.
Proof.
  intros H. apply classify_Scored in H as (a & _ & Ha & _ & Hp & Hnz).
  unfold pointsOf. rewrite Ha, Hp. split; [reflexivity|].
  destruct (indexed_points _ _ Ha) as (pp & Hp' & Hpos).
  rewrite Hp in Hp'. injection Hp' as <-.
  destruct (Qlt_le_dec 0 points_possible) as [Hlt|Hle]; [exact Hlt|].
  exfalso. apply Hnz. lra.
Qed.

Lemma newLearner_totals_sound learnerId :
  totals_sound assignmentMap (newLearner learnerId).
Proof. repeat split; simpl; try reflexivity; try lra. constructor. Qed.

Lemma keepHighest_totals_sound learner key score points_possible :
  totals_sound assignmentMap learner ->
  pointsOf assignmentMap key = points_possible -> 0 < points_possible ->
  totals_sound assignmentMap
    (keepHighest learner key (score / points_possible) score points_possible).
Proof.
  intros (Hs & Hp & He & Hk) Hpoints Hpp.
  destruct (recomputed_set assignmentMap (assignmentScores learner) key
              (score / points_possible)) as [Hsets Hsetp].
  rewrite Hpoints in Hsets, Hsetp.
  assert (Hk' : Forall (fun kp => 0 < pointsOf assignmentMap kp.1)
                  (scores_set (assignmentScores learner) key
                     (score / points_possible))).
  { apply Forall_scores_set; [exact Hk | simpl; rewrite Hpoints; exact Hpp | auto]. }
  assert (Hnz : ~ points_possible == 0) by lra.
  unfold keepHighest.
  destruct (scores_get (assignmentScores learner) key) as [r|] eqn:E; simpl.
  - destruct (Qeq_bool r 0) eqn:Ez; simpl.
    + apply Qeq_bool_iff in Ez. repeat split; simpl; [| | |exact Hk'].
      * rewrite Hsets, Hs, Ez. field. exact Hnz.
      * rewrite Hsetp. lra.
      * intros Hnil. destruct (scores_set_not_nil _ _ _ Hnil).
    + destruct (Qltb r (score / points_possible)); simpl.
      * repeat split; simpl; [| | |exact Hk'].
        -- rewrite Hsets, Hs. field. exact Hnz.
        -- rewrite Hsetp. lra.
        -- intros Hnil. destruct (scores_set_not_nil _ _ _ Hnil).
      * repeat split; auto.
  - repeat split; simpl; [| | |exact Hk'].
    + rewrite Hsets, Hs. field. exact Hnz.
    + rewrite Hsetp. lra.
    + intros Hnil. destruct (scores_set_not_nil _ _ _ Hnil).
Qed.

Lemma forSubmissions_totals_sound submissions learnerData printed :
  forSubmissions Date_of now assignmentMap submissions []
    = Some (Normal learnerData, printed) ->
  Forall (fun e => totals_sound assignmentMap e.2) learnerData.
Proof.
  apply (forSubmissions_invariant Date_of now assignmentMap
           (totals_sound assignmentMap)); [| |constructor].
  - apply newLearner_totals_sound.
  - intros s key score pp learner _ Hc Hl.
    destruct (classify_Scored_points _ _ _ _ Hc) as [Hpoints Hpos].
    apply keepHighest_totals_sound; assumption.
Qed.

Lemma recomputedPossible_positive percentages :
  Forall (fun kp => 0 < pointsOf assignmentMap kp.1) percentages ->
  percentages <> [] ->
  0 < recomputedPossible assignmentMap percentages.
Proof.
  intros Hall. induction Hall as [|[k p] rest H0 Hrest IH]; [congruence|].
  intros _. simpl in *. destruct rest as [|e rest'].
  - simpl. lra.
  - assert (0 < recomputedPossible assignmentMap (e :: rest'))
      by (apply IH; discriminate).
    lra.
Qed.


End Totals.

(** A call that returns, seen from an index known to be the one its
    group yields. *)
Lemma getLearnerData_run Date_of now courseInfo assignmentGroup assignments
    assignmentMap submissions out printed :
  prop assignmentGroup "assignments" = VArr assignments ->
  indexAssignments assignments [] = Normal assignmentMap ->
  getLearnerData Date_of now courseInfo assignmentGroup (VArr submissions)
    = Some (Normal out, printed) ->
  exists learnerData,
    forSubmissions Date_of now assignmentMap submissions []
      = Some (Normal learnerData, printed)
    /\ out = assemble learnerData.
Proof.
  intros Hassign Hindex H.
  apply getLearnerData_Normal in H
    as (subs & a & m & ld & [= <-] & Ha & Hm & Hrun & ->).
  rewrite Hassign in Ha. injection Ha as <-.
  rewrite Hindex in Hm. injection Hm as <-.
  exists ld. auto.
Qed.

Lemma indexed_points_of assignments assignmentMap :
  indexAssignments assignments [] = Normal assignmentMap ->
  forall key assignment,
    Map_get assignmentMap key = Some assignment ->
    exists points_possible,
      prop assignment "points_possible" = VNum points_possible
      /\ 0 <= points_possible.
Proof.
  intros Hindex key a Hget.
  destruct (indexed_valid _ _ _ _ Hindex Hget) as (_ & _ & H). exact H.
Qed.



(** ** Percentages and averages between 0 and 1 *)





(** ** Who is in the output *)

Lemma keepHighest_scores_not_nil learner key percentage score points_possible :
  assignmentScores (keepHighest learner key percentage score points_possible) <> [].
Proof.
  unfold keepHighest.
  destruct (scores_get (assignmentScores learner) key) as [r|] eqn:E; simpl;
    [|apply scores_set_not_nil].
  destruct (negb (negb (Qeq_bool r 0)) || Qltb r percentage).
  - destruct (negb (Qeq_bool r 0)); apply scores_set_not_nil.
  - intros Hnil. rewrite Hnil in E. discriminate.
Qed.

Section Listed.
Variable Date_of : value -> option Z.
Variable now : Z.
Variable assignmentMap : list (value * value).

Lemma forSubmissions_split before s after learnerData learnerData' printed :
  forSubmissions Date_of now assignmentMap (before ++ s :: after) learnerData
    = Some (Normal learnerData', printed) ->
  exists ld1 ld2 p1 p2 p3,
    forSubmissions Date_of now assignmentMap before learnerData = Some (Normal ld1, p1)
    /\ processSubmission Date_of now assignmentMap ld1 s = Some (Normal ld2, p2)
    /\ forSubmissions Date_of now assignmentMap after ld2 = Some (Normal learnerData', p3).
Proof.
  rewrite forSubmissions_app. simpl.
  destruct (forSubmissions Date_of now assignmentMap before learnerData)
    as [[[ld1|e] p1]|] eqn:E1; try discriminate.
  destruct (processSubmission Date_of now assignmentMap ld1 s)
    as [[[ld2|e] p2]|] eqn:E2; try discriminate.
  destruct (forSubmissions Date_of now assignmentMap after ld2)
    as [[[ld3|e] p3]|] eqn:E3; try discriminate.
  intros [= <- _]. exists ld1, ld2, p1, p2, p3. repeat split; assumption.
Qed.

(** Once a learner has a percentage, the learner keeps one. *)
Lemma processSubmission_scores_stay learnerId learnerData submission learnerData' printed :
  snd (tally learnerData learnerId) <> [] ->
  processSubmission Date_of now assignmentMap learnerData submission
    = Some (Normal learnerData', printed) ->
  snd (tally learnerData' learnerId) <> [].
Proof.
  intros Hne. rewrite processSubmission_classify.
  destruct (classify Date_of now assignmentMap submission)
    as [[[| |key score pp]|e]|]; try discriminate.
  - intros [= <- _]. exact Hne.
  - intros [= <- _]. rewrite tally_ensureLearner. exact Hne.
  - cbv zeta. set (lid := prop submission "learner_id").
    destruct (Map_get (ensureLearner learnerData lid) lid) as [l|] eqn:El;
      [|discriminate].
    intros [= <- _].
    assert (Hrefl : strict_eq lid lid = true).
    { destruct (strict_eq lid lid) eqn:Er; [reflexivity|].
      rewrite Map_get_ensureLearner_ref in El by exact Er. discriminate. }
    rewrite tally_Map_set by exact Hrefl.
    destruct (strict_eq lid learnerId).
    + apply keepHighest_scores_not_nil.
    + rewrite tally_ensureLearner. exact Hne.
Qed.

Lemma forSubmissions_scores_stay learnerId submissions learnerData learnerData' printed :
  snd (tally learnerData learnerId) <> [] ->
  forSubmissions Date_of now assignmentMap submissions learnerData
    = Some (Normal learnerData', printed) ->
  snd (tally learnerData' learnerId) <> [].
Proof.
  revert learnerData printed.
  induction submissions as [|s rest IH]; simpl; intros learnerData printed Hne.
  - intros [= <- _]. exact Hne.
  - destruct (processSubmission Date_of now assignmentMap learnerData s)
      as [[[ld1|e] p]|] eqn:E; try discriminate.
    destruct (forSubmissions Date_of now assignmentMap rest ld1)
      as [[c p']|] eqn:E'; [|discriminate].
    intros [= -> _]. eapply IH; [|exact E'].
    eapply processSubmission_scores_stay; eassumption.
Qed.

(** A counted submission leaves its learner with a percentage. *)
Lemma processSubmission_counted_scores learnerId learnerData submission
    learnerData' printed :
  counted Date_of now assignmentMap submission = true ->
  strict_eq (prop submission "learner_id") learnerId = true ->
  processSubmission Date_of now assignmentMap learnerData submission
    = Some (Normal learnerData', printed) ->
  snd (tally learnerData' learnerId) <> [].
Proof.
  unfold counted. intros Hc Hl. rewrite processSubmission_classify.
  destruct (classify Date_of now assignmentMap submission)
    as [[[| |key score pp]|e]|]; try discriminate.
  cbv zeta.
  destruct (Map_get (ensureLearner learnerData (prop submission "learner_id"))
              (prop submission "learner_id")) as [l|] eqn:El; [|discriminate].
  intros [= <- _].
  rewrite tally_Map_set by (eapply strict_eq_refl_of, Hl).
  rewrite Hl. apply keepHighest_scores_not_nil.
Qed.

End Listed.

(** X10.  A learner has a summary in the output exactly when at least
    one submission of this learner is counted, that is, passes every
    check of the loop. *)
Theorem learner_listed_iff_counted Date_of now courseInfo assignmentGroup
    assignments assignmentMap submissions out printed learnerId :
  prop assignmentGroup "assignments" = VArr assignments ->
  indexAssignments assignments [] = Normal assignmentMap ->
  getLearnerData Date_of now courseInfo assignmentGroup (VArr submissions)
    = Some (Normal out, printed) ->
  (exists r, In r out /\ strict_eq (result_id r) learnerId = true)
  <-> (exists s, In s submissions
                 /\ strict_eq (prop s "learner_id") learnerId = true
                 /\ counted Date_of now assignmentMap s = true).
Proof.
  intros Hassign Hindex H.
  destruct (getLearnerData_run _ _ _ _ _ _ _ _ _ Hassign Hindex H) as (ld & Hrun & ->).
  assert (Hd : distinct_learners ld)
    by (eapply forSubmissions_distinct; [|exact Hrun]; exact I).
  pose proof (summaries_of_assemble ld learnerId Hd) as Hsum.
  split.
  - intros (r & Hin & Hr).
    set (mine := fun s => strict_eq (prop s "learner_id") learnerId
                          && counted Date_of now assignmentMap s).
    destruct (existsb mine submissions) eqn:E.
    + apply existsb_exists in E as (s & Hs & Hm).
      apply andb_true_iff in Hm as [Hl Hc]. exists s. auto.
    + exfalso.
      assert (Hall : forall s, In s submissions ->
                strict_eq (prop s "learner_id") learnerId = true ->
                counted Date_of now assignmentMap s = false).
      { intros s Hs Hl.
        destruct (counted Date_of now assignmentMap s) eqn:Hc; [|reflexivity].
        assert (Hex : existsb mine submissions = true).
        { apply existsb_exists. exists s. split; [exact Hs|].
          unfold mine. rewrite Hl, Hc. reflexivity. }
        congruence. }
      rewrite (forSubmissions_uncounted_learner Date_of now assignmentMap
                 learnerId submissions Hall [] ld printed Hrun) in Hsum.
      unfold summaries_of in Hsum. simpl in Hsum.
      assert (Hf : In r (List.filter (fun r => strict_eq (result_id r) learnerId)
                           (assemble ld)))
        by (apply filter_In; split; assumption).
      apply (in_map (fun r => (avg r, scores r))) in Hf.
      rewrite Hsum in Hf. destruct Hf.
  - intros (s & Hs & Hl & Hc).
    apply in_split in Hs as (before & after & ->).
    apply forSubmissions_split in Hrun as Hparts.
    destruct Hparts as (ld1 & ld2 & p1 & p2 & p3 & _ & Hstep & Hrest).
    pose proof (processSubmission_counted_scores _ _ _ _ _ _ _ _ Hc Hl Hstep) as Hne.
    pose proof (forSubmissions_scores_stay _ _ _ _ _ _ _ _ Hne Hrest) as Hne'.
    pose proof (forSubmissions_totals_sound Date_of now assignmentMap
                  (indexed_points_of _ _ Hindex) _ _ _ Hrun) as Hsound.
    unfold tally in Hne', Hsum.
    destruct (Map_get ld learnerId) as [l|] eqn:El; [|simpl in Hne'; congruence].
    pose proof (Forall_Map_get (totals_sound assignmentMap) _ _ _ Hsound El)
      as (_ & Hp & _ & Hk).
    unfold view in Hne', Hsum. simpl in Hne', Hsum.
    pose proof (recomputedPossible_positive assignmentMap _ Hk Hne') as Hpos.
    destruct (Qeq_bool (totalPossible l) 0) eqn:Ez;
      [apply Qeq_bool_iff in Ez; lra|].
    unfold summaries_of in Hsum.
    destruct (List.filter (fun r => strict_eq (result_id r) learnerId) (assemble ld))
      as [|r rest] eqn:Ef; [discriminate|].
    assert (Hin : In r (List.filter (fun r => strict_eq (result_id r) learnerId)
                          (assemble ld)))
      by (rewrite Ef; left; reflexivity).
    apply filter_In in Hin. exists r. exact Hin.
Qed.

Lemma learner_listed_iff_counted_witness :
  exists s,
    In s Scenario.early
    /\ strict_eq (prop s "learner_id") (VNum 101) = true
    /\ counted isoClock Fixture.now Scenario.assignmentMap s = true.
Proof.
  apply (learner_listed_iff_counted isoClock Fixture.now
           Fixture.courseInfo Scenario.assignmentGroup
           Scenario.assignments Scenario.assignmentMap Scenario.early
           [ {| result_id := VNum 101; avg := 85 # 100; scores := [(1, 85 # 100)] |} ]
           [] (VNum 101) eq_refl eq_refl).
  - vm_compute. reflexivity.
  - eexists. split; [left; reflexivity | reflexivity].
Defined.

(** ** The recorded percentage is the best one (lines 82-93) *)

Lemma scores_get_congr o k k' :
  Qeq_bool k k' = true -> scores_get o k = scores_get o k'.
Proof.
  intros H. induction o as [|[k0 p0] o IH]; simpl; [reflexivity|].
  destruct (Qeq_bool k0 k) eqn:E.
  - rewrite (Qeq_bool_trans_true _ _ _ E H). reflexivity.
  - destruct (Qeq_bool k0 k') eqn:E'; [|exact IH].
    rewrite Qeq_bool_sym in H.
    rewrite (Qeq_bool_trans_true _ _ _ E' H) in E. discriminate.
Qed.

Section Best.
Variable Date_of : value -> option Z.
Variable now : Z.
Variable assignmentMap : list (value * value).
Variable learnerId : value.
Variable key : Q.

Abbreviation better :=
  (fun best s =>
     match classify Date_of now assignmentMap s with
     | Some (Normal (Scored k score points_possible)) =>
         if strict_eq (prop s "learner_id") learnerId && Qeq_bool k key
         then betterOf best (score / points_possible)
         else best
     | _ => best
     end).

Abbreviation recorded learnerData := (scores_get (snd (tally learnerData learnerId)) key).

Lemma processSubmission_best learnerData submission learnerData' printed best :
  (forall k score points_possible,
      classify Date_of now assignmentMap submission
      = Some (Normal (Scored k score points_possible)) ->
      0 <= score / points_possible) ->
  same_number (recorded learnerData) best ->
  (forall r, recorded learnerData = Some r -> 0 <= r) ->
  processSubmission Date_of now assignmentMap learnerData submission
    = Some (Normal learnerData', printed) ->
  same_number (recorded learnerData') (better best submission)
  /\ (forall r, recorded learnerData' = Some r -> 0 <= r).
Proof.
  intros Hpct Hsame Hpos. rewrite processSubmission_classify.
  destruct (classify Date_of now assignmentMap submission)
    as [[[| |k score pp]|e]|] eqn:Ec; try discriminate.
  - intros [= <- _]. auto.
  - intros [= <- _]. rewrite tally_ensureLearner. auto.
  - cbv zeta. set (lid := prop submission "learner_id").
    destruct (Map_get (ensureLearner learnerData lid) lid) as [l|] eqn:El;
      [|discriminate].
    intros [= <- _].
    assert (Hrefl : strict_eq lid lid = true).
    { destruct (strict_eq lid lid) eqn:Er; [reflexivity|].
      rewrite Map_get_ensureLearner_ref in El by exact Er. discriminate. }
    rewrite tally_Map_set by exact Hrefl.
    destruct (strict_eq lid learnerId) eqn:Hl; simpl andb; cbv iota;
      [|rewrite tally_ensureLearner; auto].
    assert (Hview : tally learnerData learnerId = view l).
    { rewrite <- (tally_ensureLearner learnerData lid learnerId).
      unfold tally. rewrite <- (Map_get_congr _ _ _ Hl), El. reflexivity. }
    rewrite Hview in Hsame, Hpos. unfold view in *. simpl in *.
    destruct (Qeq_bool k key) eqn:Hk.
    2:{ rewrite keepHighest_scores_other by exact Hk. auto. }
    rewrite <- (scores_get_congr (assignmentScores l) _ _ Hk) in Hsame, Hpos.
    rewrite <- (scores_get_congr _ _ _ Hk).
    destruct (keepHighest_records_max l k (score / pp) score pp
                (Hpct _ _ _ eq_refl) Hpos) as (rec & -> & Hrec).
    assert (Hmax : same_number (Some rec) (betterOf best (score / pp))).
    { destruct (scores_get (assignmentScores l) k) as [r|], best as [b|];
        simpl in *; try contradiction.
      - rewrite Hrec, Hsame. reflexivity.
      - exact Hrec. }
    split; [exact Hmax|].
    intros r [= <-]. specialize (Hpct _ _ _ eq_refl).
    destruct (scores_get (assignmentScores l) k) as [r|].
    + rewrite Hrec. eapply Qle_trans; [exact Hpct | apply Q.le_max_r].
    + rewrite Hrec. exact Hpct.
Qed.

Lemma forSubmissions_best submissions :
  (forall s k score points_possible,
      In s submissions ->
      classify Date_of now assignmentMap s
      = Some (Normal (Scored k score points_possible)) ->
      0 <= score / points_possible) ->
  forall learnerData learnerData' printed best,
    same_number (recorded learnerData) best ->
    (forall r, recorded learnerData = Some r -> 0 <= r) ->
    forSubmissions Date_of now assignmentMap submissions learnerData
      = Some (Normal learnerData', printed) ->
    same_number (recorded learnerData') (fold_left better submissions best).
Proof.
  induction submissions as [|s rest IH]; simpl;
    intros Hpct learnerData learnerData' printed best Hsame Hpos.
  - intros [= <- _]. exact Hsame.
  - destruct (processSubmission Date_of now assignmentMap learnerData s)
      as [[[ld1|e] p]|] eqn:E; try discriminate.
    destruct (forSubmissions Date_of now assignmentMap rest ld1)
      as [[c p']|] eqn:E'; [|discriminate].
    intros [= -> _].
    destruct (processSubmission_best _ _ _ _ best
                (fun k sc pp => Hpct s k sc pp (or_introl eq_refl)) Hsame Hpos E)
      as [Hsame1 Hpos1].
    exact (IH (fun s' k sc pp Hin => Hpct s' k sc pp (or_intror Hin))
              _ _ _ _ Hsame1 Hpos1 E').
Qed.

End Best.

(** X11.  When no counted submission enters the totals with a negative
    score, the percentage a learner's summary shows for an assignment
    is the greatest percentage among the counted submissions of this
    learner for this assignment, and the summary shows none when
    there is no such submission. *)
Theorem best_percentage_is_recorded Date_of now courseInfo assignmentGroup
    assignments assignmentMap submissions out printed learnerId key :
  prop assignmentGroup "assignments" = VArr assignments ->
  indexAssignments assignments [] = Normal assignmentMap ->
  (forall s k score points_possible,
      In s submissions ->
      classify Date_of now assignmentMap s
      = Some (Normal (Scored k score points_possible)) ->
      0 <= score) ->
  getLearnerData Date_of now courseInfo assignmentGroup (VArr submissions)
    = Some (Normal out, printed) ->
  forall r, In r out -> strict_eq (result_id r) learnerId = true ->
    same_number (scores_get (scores r) key)
      (bestPercentage Date_of now assignmentMap learnerId key submissions).
Proof.
  intros Hassign Hindex Hscores H r Hin Hr.
  destruct (getLearnerData_run _ _ _ _ _ _ _ _ _ Hassign Hindex H) as (ld & Hrun & ->).
  assert (Hd : distinct_learners ld)
    by (eapply forSubmissions_distinct; [|exact Hrun]; exact I).
  apply assemble_In in Hin as (k & l & Hin & Hid & _ & -> & _).
  pose proof (Map_get_In _ _ _ Hd Hin) as Hget.
  pose proof (Map_get_ident _ _ _ Hd Hget) as Hkey.
  rewrite Hid in Hr.
  assert (Hk : strict_eq k learnerId = true).
  { eapply strict_eq_trans; [|exact Hr]. rewrite strict_eq_sym. exact Hkey. }
  rewrite (Map_get_congr _ _ _ Hk) in Hget.
  assert (Hpct : forall s k0 score pp, In s submissions ->
            classify Date_of now assignmentMap s = Some (Normal (Scored k0 score pp)) ->
            0 <= score / pp).
  { intros s k0 score pp Hs Hc.
    destruct (classify_Scored_points Date_of now assignmentMap
                (indexed_points_of _ _ Hindex) _ _ _ _ Hc) as [_ Hpos].
    apply Qle_shift_div_l; [exact Hpos|].
    pose proof (Hscores _ _ _ _ Hs Hc). lra. }
  assert (Hnone : forall r, scores_get (snd (tally [] learnerId)) key = Some r ->
                            0 <= r) by (intros r0; discriminate).
  pose proof (forSubmissions_best Date_of now assignmentMap learnerId key
                submissions Hpct [] ld printed None I Hnone Hrun) as Hbest.
  unfold tally in Hbest. rewrite Hget in Hbest. exact Hbest.
Qed.

Lemma best_percentage_is_recorded_witness :
  same_number
    (scores_get
       (scores {| result_id := VNum 101; avg := 250000 # 300000;
                  scores := [(1, 90 # 100); (2, 1600 # 2000)] |}) 1)
    (bestPercentage isoClock Fixture.now Fixture.assignmentMap (VNum 101) 1
       [Fixture.submitted 101 1 "2023-09-30" 85;
        Fixture.submitted 101 2 "2023-10-09" 180;
        Fixture.submitted 101 1 "2023-09-29" 90;
        Fixture.submitted 102 1 "2023-10-02" 95;
        Fixture.submitted 102 3 "2023-10-10" 120;
        Fixture.submitted 103 2 "2023-10-05" 150]).
Proof.
  apply (best_percentage_is_recorded isoClock Fixture.now
           Fixture.courseInfo Fixture.assignmentGroup _ Fixture.assignmentMap _
           [ {| result_id := VNum 101; avg := 250000 # 300000;
                scores := [(1, 90 # 100); (2, 1600 # 2000)] |};
             {| result_id := VNum 102; avg := 2050 # 2500;
                scores := [(1, 850 # 1000); (3, 120 # 150)] |};
             {| result_id := VNum 103; avg := 150 # 200;
                scores := [(2, 150 # 200)] |} ]
           [] (VNum 101) 1 eq_refl eq_refl).
  - intros s k score pp [<-|[<-|[<-|[<-|[<-|[<-|[]]]]]]] Hc; vm_compute in Hc;
      injection Hc as _ <- _; discriminate.
  - exact fixture_run.
  - left. reflexivity.
  - reflexivity.
Defined.

(** ** What a summary lists *)

Lemma keepHighest_keys (R : Q -> Prop) learner key percentage score points_possible :
  Forall (fun kp => R kp.1) (assignmentScores learner) -> R key ->
  Forall (fun kp => R kp.1)
    (assignmentScores (keepHighest learner key percentage score points_possible)).
Proof.
  intros Hall Hkey.
  assert (Hset : Forall (fun kp => R kp.1)
                   (scores_set (assignmentScores learner) key percentage))
    by (apply Forall_scores_set; auto).
  unfold keepHighest.
  destruct (scores_get (assignmentScores learner) key) as [r|]; simpl; [|exact Hset].
  destruct (negb (negb (Qeq_bool r 0)) || Qltb r percentage); [|exact Hall].
  destruct (negb (Qeq_bool r 0)); exact Hset.
Qed.

(** X12.  Every percentage of a summary stands under the id of an
    assignment of the index that is due at the instant of the call and
    whose points possible are more than zero. *)
Theorem summary_lists_due_assignments_with_points Date_of now courseInfo
    assignmentGroup assignments assignmentMap submissions out printed :
  prop assignmentGroup "assignments" = VArr assignments ->
  indexAssignments assignments [] = Normal assignmentMap ->
  getLearnerData Date_of now courseInfo assignmentGroup (VArr submissions)
    = Some (Normal out, printed) ->
  forall r key p, In r out -> scores_get (scores r) key = Some p ->
    exists assignment points_possible,
      Map_get assignmentMap (VNum key) = Some assignment
      /\ notYetDue Date_of now assignment = false
      /\ prop assignment "points_possible" = VNum points_possible
      /\ 0 < points_possible.
Proof.
  intros Hassign Hindex H r key p Hin Hget.
  destruct (getLearnerData_run _ _ _ _ _ _ _ _ _ Hassign Hindex H) as (ld & Hrun & ->).
  pose proof (indexed_points_of _ _ Hindex) as Hvalid.
  set (R := fun k : Q =>
         exists assignment points_possible,
           Map_get assignmentMap (VNum k) = Some assignment
           /\ notYetDue Date_of now assignment = false
           /\ prop assignment "points_possible" = VNum points_possible
           /\ 0 < points_possible).
  assert (Hall : Forall (fun e : value * Learner =>
                           Forall (fun kp => R kp.1) (assignmentScores e.2)) ld).
  { apply (forSubmissions_invariant Date_of now assignmentMap
             (fun l => Forall (fun kp => R kp.1) (assignmentScores l))
             submissions) with (learnerData := []) (printed := printed);
      [| |constructor|exact Hrun].
    - intros learnerId. constructor.
    - intros s k score pp learner _ Hc Hl.
      apply keepHighest_keys; [exact Hl|].
      destruct (classify_Scored_points Date_of now assignmentMap Hvalid _ _ _ _ Hc)
        as [_ Hpos].
      apply classify_Scored in Hc as (a & _ & Ha & Hdue & Hp & _).
      exists a, pp. auto. }
  apply assemble_In in Hin as (k & l & Hin & _ & _ & Hscores & _).
  rewrite Hscores in Hget.
  rewrite List.Forall_forall in Hall. pose proof (Hall _ Hin) as Hl. simpl in Hl.
  apply scores_get_In in Hget as (k' & Hk & Hin').
  rewrite List.Forall_forall in Hl.
  destruct (Hl _ Hin') as (a & pp & Ha & Hrest). simpl in Ha.
  exists a, pp. split; [|exact Hrest].
  rewrite <- (Map_get_congr assignmentMap (VNum k') (VNum key) Hk). exact Ha.
Qed.

Lemma summary_lists_due_assignments_with_points_witness :
  exists assignment points_possible,
    Map_get Scenario.assignmentMap (VNum 1) = Some assignment
    /\ notYetDue isoClock Fixture.now assignment = false
    /\ prop assignment "points_possible" = VNum points_possible
    /\ 0 < points_possible.
Proof.
  apply (summary_lists_due_assignments_with_points isoClock Fixture.now
           Fixture.courseInfo Scenario.assignmentGroup
           Scenario.assignments Scenario.assignmentMap Scenario.early
           [ {| result_id := VNum 101; avg := 85 # 100; scores := [(1, 85 # 100)] |} ]
           [] eq_refl eq_refl)
    with (r := {| result_id := VNum 101; avg := 85 # 100; scores := [(1, 85 # 100)] |})
         (p := 85 # 100).
  - vm_compute. reflexivity.
  - left. reflexivity.
  - reflexivity.
Defined.

(** ** Submissions for an assignment the group does not hold (line 63) *)

Section Unknown.
Variable Date_of : value -> option Z.
Variable now : Z.

Lemma refersToUnknown_uncounted assignmentMap submission :
  refersToUnknown assignmentMap submission = true ->
  counted Date_of now assignmentMap submission = false.
Proof.
  unfold refersToUnknown, counted. intros H.
  destruct (classify Date_of now assignmentMap submission)
    as [[[| |key score pp]|e]|] eqn:E; try reflexivity.
  revert E. unfold classify.
  destruct (nullish submission); [discriminate|].
  destruct (malformed submission); [discriminate|].
  destruct (negb (strict_eq _ _)); [discriminate|].
  destruct (Map_get assignmentMap (prop submission "assignment_id")) as [a|];
    [|discriminate].
  rewrite H. discriminate.
Qed.

(** X13.  A well-formed submission for an assignment that the index
    does not hold is passed over without a warning: its iteration
    makes sure the learner has a record and changes nothing else.
    The call without such submissions returns too, with the same
    [avg] and the same percentages for every learner. *)
Theorem unknown_assignment_ignored courseInfo assignmentGroup assignments
    assignmentMap submissions out printed :
  prop assignmentGroup "assignments" = VArr assignments ->
  indexAssignments assignments [] = Normal assignmentMap ->
  getLearnerData Date_of now courseInfo assignmentGroup (VArr submissions)
    = Some (Normal out, printed) ->
  let known :=
    List.filter (fun s => negb (refersToUnknown assignmentMap s)) submissions in
  (forall s learnerData,
      nullish s = false -> malformed s = false ->
      strict_eq (prop s "learner_id") (prop s "learner_id") = true ->
      refersToUnknown assignmentMap s = true ->
      processSubmission Date_of now assignmentMap learnerData s
      = Some (Normal (ensureLearner learnerData (prop s "learner_id")), [])
      /\ same_tallies learnerData (ensureLearner learnerData (prop s "learner_id")))
  /\ exists out' printed',
       getLearnerData Date_of now courseInfo assignmentGroup (VArr known)
       = Some (Normal out', printed')
       /\ forall learnerId,
            summaries_of learnerId out' = summaries_of learnerId out.
Proof.
  intros Hassign Hindex H known. split.
  - intros s ld Hn Hm Hrefl Hu. split.
    + rewrite processSubmission_classify. unfold classify.
      rewrite Hn, Hm, Hrefl. simpl negb. cbv iota.
      unfold refersToUnknown in Hu.
      destruct (Map_get assignmentMap (prop s "assignment_id")) as [a|];
        [|reflexivity].
      rewrite Hu. reflexivity.
    + intros learnerId. rewrite tally_ensureLearner. reflexivity.
  - assert (Hdrop : forall s, In s submissions ->
              negb (refersToUnknown assignmentMap s) = false ->
              counted Date_of now assignmentMap s = false).
    { intros s _ Hs. apply negb_false_iff in Hs.
      apply refersToUnknown_uncounted, Hs. }
    destruct (drop_uncounted Date_of now _ _ _ _ _ _ _ _ Hassign Hindex Hdrop H)
      as (ld & ld' & p' & _ & _ & _ & _ & Hcall & Hsum).
    exists (assemble ld'), p'. split; [exact Hcall | exact Hsum].
Qed.

End Unknown.

Lemma unknown_assignment_ignored_witness :
  exists out' printed',
    getLearnerData isoClock Fixture.now Fixture.courseInfo Fixture.assignmentGroup
      (VArr (List.filter (fun s => negb (refersToUnknown Fixture.assignmentMap s))
               [Fixture.submitted 101 1 "2023-09-30" 85;
                Fixture.submitted 101 9 "2023-09-30" 70;
                Fixture.submitted 102 9 "2023-09-30" 60]))
    = Some (Normal out', printed')
    /\ forall learnerId,
         summaries_of learnerId out'
         = summaries_of learnerId
             [ {| result_id := VNum 101; avg := 85 # 100;
                  scores := [(1, 85 # 100)] |} ].
Proof.
  apply (unknown_assignment_ignored isoClock Fixture.now
           Fixture.courseInfo Fixture.assignmentGroup _ Fixture.assignmentMap
           [Fixture.submitted 101 1 "2023-09-30" 85;
            Fixture.submitted 101 9 "2023-09-30" 70;
            Fixture.submitted 102 9 "2023-09-30" 60]
           [ {| result_id := VNum 101; avg := 85 # 100; scores := [(1, 85 # 100)] |} ]
           [] eq_refl eq_refl).
  vm_compute. reflexivity.
Defined.

(** ** Dates that are not dates (lines 65-66 and 72-77) *)

Section InvalidDates.
Variable Date_of : value -> option Z.
Variable now : Z.
Variable assignmentMap : list (value * value).

Lemma date_gt_invalid_l d : date_gt None d = false.
Proof. reflexivity. Qed.

Lemma date_gt_invalid_r d : date_gt d None = false.
Proof. destruct d; reflexivity. Qed.

(** X14.  The routine does not call [isValidDate].  An assignment
    whose [due_at] the helper would reject is due at every instant, and
    a submission for it is never late; a submission whose
    [submitted_at] the helper would reject is never late either.  In
    both cases the raw score enters the percentage and the totals. *)
Theorem invalid_date_is_never_late learnerData submission key learner assignment
    raw points_possible :
  let learnerId := prop submission "learner_id" in
  let body := prop submission "submission" in
  nullish submission = false ->
  truthy learnerId = true -> truthy body = true ->
  prop submission "assignment_id" = VNum key -> truthy (VNum key) = true ->
  Map_get (ensureLearner learnerData learnerId) learnerId = Some learner ->
  Map_get assignmentMap (VNum key) = Some assignment -> truthy assignment = true ->
  prop assignment "points_possible" = VNum points_possible ->
  ~ points_possible == 0 ->
  prop body "score" = VNum raw ->
  isValidDate Date_of (prop assignment "due_at") = false
  \/ (isValidDate Date_of (prop body "submitted_at") = false
      /\ notYetDue Date_of now assignment = false) ->
  notYetDue Date_of now assignment = false
  /\ processSubmission Date_of now assignmentMap learnerData submission
     = Some (Normal
               (Map_set (ensureLearner learnerData learnerId) learnerId
                  (keepHighest learner key (raw / points_possible)
                     raw points_possible)), []).
Proof.
  intros learnerId body Hn Hl Hb Ha Hk Hlearner Hassign Ht Hpp Hnz Hraw Hdates.
  assert (Hdue : notYetDue Date_of now assignment = false
                 /\ date_gt (Date_of (prop body "submitted_at"))
                      (Date_of (prop assignment "due_at")) = false).
  { unfold isValidDate, notYetDue in *.
    destruct Hdates as [Hd|[Hs Hd]].
    - destruct (Date_of (prop assignment "due_at")); [discriminate|].
      split; [reflexivity | apply date_gt_invalid_r].
    - destruct (Date_of (prop body "submitted_at")); [discriminate|].
      split; [exact Hd | reflexivity]. }
  destruct Hdue as [Hdue Hlate]. split; [exact Hdue|].
  unfold processSubmission. fold learnerId body.
  rewrite Hn, Ha, Hl, Hb, Hk. simpl orb. cbv iota.
  rewrite Hlearner, Hassign, Ht. simpl negb. cbv iota.
  unfold notYetDue in Hdue. rewrite Hdue, Hpp.
  destruct (Qeq_bool points_possible 0) eqn:E;
    [apply Qeq_bool_iff in E; contradiction|].
  rewrite Hraw. unfold penalised. rewrite Hlate. reflexivity.
Qed.

End InvalidDates.

Lemma invalid_date_is_never_late_witness :
  let assignment :=
    VObj [("id", VNum 7); ("due_at", VStr "next week"); ("points_possible", VNum 50)] in
  notYetDue isoClock 0 assignment = false
  /\ processSubmission isoClock 0 [(VNum 7, assignment)] []
       (Fixture.submitted 101 7 "2023-09-30" 40)
     = Some (Normal
               (Map_set (ensureLearner [] (VNum 101)) (VNum 101)
                  (keepHighest (newLearner (VNum 101)) 7 (40 / 50) 40 50)), []).
Proof.
  intros assignment.
  apply (invalid_date_is_never_late isoClock 0 [(VNum 7, assignment)] []
           (Fixture.submitted 101 7 "2023-09-30" 40) 7 (newLearner (VNum 101))
           assignment 40 50); try reflexivity.
  - intros H. discriminate H.
  - left. reflexivity.
Defined.

(** ** How much the penalty takes (lines 74-77) *)



(** ** A group without a list of assignments (line 27) *)

(** X16.  When the course and the group pass the first two checks and
    the group's [assignments] is not an array (absent, for one), the
    call fails with a TypeError, raised where [forEach] is called, and
    not with one of the routine's own errors; no submission is looked
    at. *)
Theorem assignments_not_an_array_is_a_type_error Date_of now courseInfo
    assignmentGroup submissions :
  typeof courseInfo = "object"%string -> nullish courseInfo = false ->
  typeof assignmentGroup = "object"%string -> nullish assignmentGroup = false ->
  strict_eq (prop assignmentGroup "course_id") (prop courseInfo "id") = true ->
  isArray (prop assignmentGroup "assignments") = false ->
  getLearnerData Date_of now courseInfo assignmentGroup (VArr submissions)
  = Some (Throw TypeError, [ErrorLog TypeError]).
Proof.
  intros Hc Hcn Hg Hgn Heq Harr. unfold getLearnerData, tryBlock.
  rewrite Hc, Hg, Hcn, Hgn, Heq.
  destruct (prop assignmentGroup "assignments"); try reflexivity. discriminate.
Qed.

Lemma assignments_not_an_array_is_a_type_error_witness :
  getLearnerData isoClock Fixture.now Fixture.courseInfo
    (VObj [("id", VNum 1); ("course_id", VNum 1)])
    (VArr [VObj []; Fixture.submitted 101 1 "2023-09-30" 85])
  = Some (Throw TypeError, [ErrorLog TypeError]).
Proof.
  apply (assignments_not_an_array_is_a_type_error isoClock Fixture.now
           Fixture.courseInfo (VObj [("id", VNum 1); ("course_id", VNum 1)]));
    reflexivity.
Defined.

(** ** The same submission twice *)






(** ** What a call on the store returns *)

Create HintDb readings.

Section StoreResults.
Import Store.

Variable initial : gmap loc cell.
Variable results : loc.

Abbreviation frame := (Store.frame initial).
Abbreviation learnersKept := (Store.learnersKept initial).
Abbreviation kept := (resultsKept initial results).

#[local] Hint Resolve reads_only_getProp reads_only_getNum reads_only_Map_entries
  reads_only_Map_has reads_only_Map_get reads_only_Array_elems reads_only_isArray
  reads_only_ownProps reads_only_newDate reads_only_read : readings.

Ltac reading :=
  eapply spec_bind; [apply reads_only_spec; auto with readings | intros ?; cbv beta].

Lemma spec_conj {A} (P P' : state -> Prop) (m : M A) (Q Q' : A -> state -> Prop)
    (E E' : state -> Prop) :
  spec P m Q E -> spec P' m Q' E' ->
  spec (fun st => P st /\ P' st) m (fun a st => Q a st /\ Q' a st)
    (fun st => E st /\ E' st).
Proof.
  intros H H' st r st' [HP HP'] Hrun.
  specialize (H _ _ _ HP Hrun). specialize (H' _ _ _ HP' Hrun).
  destruct r; auto.
Qed.

(** The array of results is left alone by a write to a cell that is
    not an array, by a new cell, and by printing. *)
Lemma kept_insert st elems l c :
  cells st !! results = Some (Arr elems) -> Forall (newRef initial) elems ->
  l <> results ->
  kept {| cells := <[l := c]> (cells st); console := console st |}.
Proof.
  intros Hcell Hall Hne. exists elems. split; [|exact Hall].
  cbn [cells]. rewrite lookup_insert_ne; [exact Hcell | exact Hne].
Qed.

Lemma setProp_kept v k x : spec kept (setProp v k x) (fun _ => kept) kept.
Proof.
  intros st r st' (elems & Hcell & Hall).
  destruct v; simpl; try (intros [= <- <-]; exists elems; auto; fail).
  unfold mbind, M_bind, read.
  destruct (cells st !! l) as [[props| |]|] eqn:Hc; try discriminate.
  unfold write. rewrite Hc. intros [= <- <-].
  apply (kept_insert st elems); auto. intros ->. congruence.
Qed.

Lemma Map_set_kept m k v : spec kept (Map_set m k v) (fun _ => kept) kept.
Proof.
  intros st r st' (elems & Hcell & Hall).
  unfold Map_set, Map_entries, mbind, M_bind, read, write, mret, M_ret.
  destruct (cells st !! m) as [[| |entries]|] eqn:Hc; try discriminate.
  rewrite Hc. intros [= <- <-].
  apply (kept_insert st elems); auto. intros ->. congruence.
Qed.

Lemma alloc_kept c : spec kept (alloc c) (fun _ => kept) kept.
Proof.
  intros st r st' (elems & Hcell & Hall) [= <- <-].
  apply (kept_insert st elems); auto.
  intros Heq. apply (is_fresh (dom (cells st))). rewrite Heq.
  apply elem_of_dom. eauto.
Qed.

Lemma print_kept d : spec kept (print d) (fun _ => kept) kept.
Proof. intros st r st' H [= <- <-]. exact H. Qed.

Lemma retract_kept learner recorded points_possible :
  spec kept (retract learner recorded points_possible) (fun _ => kept) kept.
Proof.
  unfold retract.
  destruct (truthy recorded); [|apply spec_skip; auto].
  destruct recorded; try apply spec_unsupported.
  reading. eapply spec_bind; [apply setProp_kept|]. intros ?.
  reading. apply setProp_kept.
Qed.

Lemma keepHighest_kept learner key percentage score points_possible :
  spec kept (keepHighest learner key percentage score points_possible)
    (fun _ => kept) kept.
Proof.
  unfold keepHighest. reading. reading.
  destruct (negb (truthy a0) || _); [|apply spec_skip; auto].
  eapply spec_bind; [apply retract_kept|]. intros ?.
  reading. eapply spec_bind; [apply setProp_kept|]. intros ?.
  reading. eapply spec_bind; [apply setProp_kept|]. intros ?.
  reading. apply setProp_kept.
Qed.

Lemma ensureLearner_kept learnerData learnerId :
  spec kept (ensureLearner learnerData learnerId) (fun _ => kept) kept.
Proof.
  unfold ensureLearner. reading.
  destruct (negb a); [|apply spec_skip; auto].
  eapply spec_bind; [apply alloc_kept|]. intros ?.
  eapply spec_bind; [apply alloc_kept|]. intros ?.
  apply Map_set_kept.
Qed.

Section Routine.
Variable Date_of : gmap loc cell -> val -> option Z.
Variable now : Z.

Lemma processSubmission_kept assignmentMap learnerData submission :
  spec kept (processSubmission Date_of now assignmentMap learnerData submission)
    (fun _ => kept) kept.
Proof.
  unfold processSubmission. reading. reading. reading.
  destruct (negb (truthy a) || negb (truthy a0) || negb (truthy a1));
    [apply print_kept|].
  eapply spec_bind; [apply ensureLearner_kept|]. intros ?.
  reading. reading.
  destruct (negb (truthy a4)); [apply spec_skip; auto|].
  reading. reading.
  destruct (date_gt a6 (Some now)); [apply spec_skip; auto|].
  reading.
  destruct a7; try apply spec_unsupported.
  destruct (Qeq_bool x 0); [apply spec_skip; auto|].
  reading. reading. reading.
  destruct a9; try apply spec_unsupported.
  destruct a0; try apply spec_unsupported.
  apply keepHighest_kept.
Qed.

Lemma indexAssignment_kept assignmentMap assignment :
  spec kept (indexAssignment assignmentMap assignment) (fun _ => kept) kept.
Proof.
  unfold indexAssignment. reading.
  destruct (match a with Num x => Qltb x 0 | _ => true end).
  - reading. apply spec_throw. auto.
  - reading. apply Map_set_kept.
Qed.

(** The body of the loop over the learners adds a reference to a new
    cell to the array of results. *)
Lemma Array_push_kept x :
  initial !! results = None -> newRef initial x ->
  spec (fun st => frame st /\ kept st) (Array_push results x)
    (fun _ st => frame st /\ kept st) (fun st => frame st /\ kept st).
Proof.
  intros Hfresh Hx st r st' [Hframe (elems & Hcell & Hall)].
  unfold Array_push, Array_elems, mbind, M_bind, read, write, mret, M_ret.
  rewrite Hcell. cbv iota beta. rewrite Hcell. intros [= <- <-]. split.
  - apply insert_subseteq_r; assumption.
  - exists (elems ++ [x]). split; [apply lookup_insert_eq|].
    apply Forall_app. split; [exact Hall|]. constructor; [exact Hx | constructor].
Qed.

Lemma stable_frame_kept : Store.stable initial (fun st => frame st /\ kept st).
Proof.
  intros st σ' console' [Hframe (elems & Hcell & Hall)] Hup. split.
  - eapply update_frame; eassumption.
  - exists elems. split; [|exact Hall]. cbn [cells] in *.
    destruct Hup as [σ1|σ1 l c Hnone|σ1 l props k x Hl Hobj Hk].
    + exact Hcell.
    + rewrite lookup_insert_ne; [exact Hcell|]. intros ->. congruence.
    + rewrite lookup_insert_ne; [exact Hcell|]. intros ->. congruence.
Qed.

Lemma summarise_kept entry :
  initial !! results = None ->
  spec (fun st => frame st /\ kept st) (summarise results entry)
    (fun _ st => frame st /\ kept st) (fun st => frame st /\ kept st).
Proof.
  intros Hfresh. unfold summarise.
  reading.
  destruct (Qeq_bool a 0); [apply spec_skip; auto|].
  reading. reading. reading. reading.
  eapply spec_bind_pure with
    (P' := fun _ st => frame st /\ kept st) (F := fun l => initial !! l = None).
  { eapply spec_weaken;
      [apply (alloc_fresh_spec initial (fun st => frame st /\ kept st));
       [apply stable_frame_kept | intros st [H _]; exact H]
      | auto | | intros st H; exact H].
    intros l st [H Hl]. split; assumption. }
  intros result Hresult. apply Array_push_kept; [exact Hfresh|].
  exists result. auto.
Qed.

End Routine.

End StoreResults.

Section StoreReturn.
Import Store.

Variable initial : gmap loc cell.
Variable Date_of : gmap loc cell -> val -> option Z.
Variable now : Z.

Abbreviation frame := (Store.frame initial).
Abbreviation learnersKept := (Store.learnersKept initial).
Abbreviation kept := (resultsKept initial).

(** Rules for a computation whose failures are of no interest. *)
Lemma spec_bind_lax {A B} (P : state -> Prop) (m : M A) (f : A -> M B) R Q E :
  spec P m R E ->
  (forall a, spec (R a) (f a) Q (fun _ => True)) ->
  spec P (mbind f m) Q (fun _ => True).
Proof.
  intros Hm Hf. eapply spec_bind; [|exact Hf].
  eapply spec_weaken; [exact Hm | auto | auto | auto].
Qed.

Lemma spec_pure {A} (P : state -> Prop) (F : Prop) (m : M A) Q E :
  (F -> spec P m Q E) -> spec (fun st => P st /\ F) m Q E.
Proof. intros H st r st' [HP HF]. apply (H HF), HP. Qed.

(** The [try] block returns a reference to the array of results, which
    is a new cell that holds references to new cells. *)
Lemma tryBlock_returns courseInfo assignmentGroup learnerSubmissions :
  spec frame (tryBlock Date_of now courseInfo assignmentGroup learnerSubmissions)
    (fun v st => exists l, v = Ref l /\ initial !! l = None /\ kept l st)
    (fun _ => True).
Proof.
  unfold tryBlock.
  eapply spec_bind_lax; [apply reads_only_spec, reads_only_getProp|]. intros course_id.
  eapply spec_bind_lax; [apply reads_only_spec, reads_only_getProp|]. intros id.
  destruct (negb (strict_eq course_id id)); [apply spec_throw; auto|].
  eapply spec_bind_lax with
    (R := fun l st => (frame st /\ kept l st) /\ initial !! l = None).
  { eapply spec_weaken;
      [apply (alloc_spec initial frame (Arr []) frame); [apply stable_frame | auto]
      | auto | | intros st H; exact H].
    intros l st (H & Hl & Hcell). split; [split; [exact H|] | exact Hl].
    exists []. split; [exact Hcell | constructor]. }
  intros results. apply spec_pure. intros Hresults.
  eapply spec_bind_lax.
  { apply (alloc_fresh_spec initial (fun st => frame st /\ kept results st)
             (MapObj []) frame);
      [apply stable_frame_kept | intros st [H _]; exact H]. }
  intros assignmentMap. apply spec_pure. intros HassignmentMap.
  eapply spec_bind_lax; [apply reads_only_spec, reads_only_getProp|]. intros assignments.
  eapply spec_bind_lax with (R := fun _ st => frame st /\ kept results st).
  { apply forEach_spec. intros assignment. apply spec_conj.
    - apply indexAssignment_spec, HassignmentMap.
    - apply indexAssignment_kept. }
  intros ?.
  eapply spec_bind_lax with
    (R := fun l st => (learnersKept l st /\ kept results st) /\ initial !! l = None).
  { eapply spec_weaken;
      [apply (alloc_spec initial (fun st => frame st /\ kept results st)
                (MapObj []) frame);
       [apply stable_frame_kept | intros st [H _]; exact H]
      | auto | | intros st H; exact H].
    intros l st ((Hf & Hk) & Hl & Hcell).
    split; [split; [split; [exact Hf|] | exact Hk] | exact Hl].
    exists []. split; [exact Hcell | constructor]. }
  intros learnerData. apply spec_pure. intros HlearnerData.
  eapply spec_bind_lax with (R := fun _ st => frame st /\ kept results st).
  { eapply spec_weaken;
      [apply (forOfArray_spec
                (fun st => learnersKept learnerData st /\ kept results st))
      | auto | intros ? st [[H _] Hk]; split; [exact H | exact Hk]
      | intros st H; exact H].
    intros submission. apply spec_conj.
    - apply processSubmission_spec, HlearnerData.
    - apply processSubmission_kept. }
  intros ?.
  eapply spec_bind_lax with (R := fun _ st => frame st /\ kept results st).
  { apply forOfMap_spec. intros entry. apply summarise_kept, Hresults. }
  intros ?. apply spec_ret. intros st [_ Hk]. exists results. auto.
Qed.

End StoreReturn.

(** X18.  What a call on the store returns is a reference to an array
    that did not exist when the call started, and every element of
    this array is a reference to an object that did not exist either:
    the result shares no array and no summary with the arguments. *)
Theorem result_is_made_of_new_objects Date_of now courseInfo assignmentGroup
    learnerSubmissions st v st' :
  Store.getLearnerData Date_of now courseInfo assignmentGroup learnerSubmissions st
    = Some (Store.Normal v, st') ->
  exists l elems,
    v = Store.Ref l
    /\ Store.cells st !! l = None
    /\ Store.cells st' !! l = Some (Store.Arr elems)
    /\ Forall (fun x => exists l', x = Store.Ref l' /\ Store.cells st !! l' = None)
         elems.
Proof.
  unfold Store.getLearnerData, mbind, Store.M_bind.
  destruct (Store.isArray learnerSubmissions st) as [[[array|e] st1]|] eqn:Harr;
    try discriminate.
  pose proof (reads_only_isArray _ _ _ _ Harr) as ->.
  destruct learnerSubmissions as [| | | | |submissions]; try discriminate.
  destruct (negb (String.eqb (Store.typeof courseInfo) "object")
            || negb (String.eqb (Store.typeof assignmentGroup) "object")
            || negb array); [discriminate|].
  unfold Store.catch.
  destruct (Store.tryBlock Date_of now courseInfo assignmentGroup submissions st)
    as [[[v0|e] st1]|] eqn:Htry; try discriminate.
  intros [= <- <-].
  pose proof (tryBlock_returns (Store.cells st) Date_of now
                courseInfo assignmentGroup submissions st _ _
                (reflexivity (Store.cells st)) Htry)
    as (l & -> & Hl & elems & Hcell & Hall).
  exists l, elems. auto.
Qed.

Lemma result_is_made_of_new_objects_witness :
  exists l elems,
    Store.Ref 20 = Store.Ref l
    /\ Store.cells Stored.before !! l = None
    /\ Store.cells Stored.after !! l = Some (Store.Arr elems)
    /\ Forall (fun x => exists l', x = Store.Ref l'
                                   /\ Store.cells Stored.before !! l' = None)
         elems.
Proof.
  apply (result_is_made_of_new_objects isoClockOf Fixture.now
           (Store.Ref 1) (Store.Ref 6) (Store.Ref 19)).
  vm_compute. reflexivity.
Defined.

(** ** The average when no counted score is zero *)



(** ** The penalty in terms of percentages *)


